(** * SuccessForge: the agent execution engine and the markdown Q&A pipeline

    A shallow embedding of [fscm/orchestrator.py] (retry policy, conversation
    loop, delegation supervisor) and [fscm/markdown_processor.py] (sequential
    Q&A pipeline, answer insertion), with the properties the specification
    states about them.

    Conventions of the embedding:
    - a Python [str] is a [string] whose characters are the code points
      below 256 (ASCII and Latin-1); character classes follow Python's
      Unicode tables on that range;
    - a Python [dict] is a [gmap]; a dict comprehension is a left fold of
      inserts, so a later entry with the same key replaces an earlier one;
    - a raised [Exception] is the [Raise] outcome of a computation in the
      monad [M], which threads the state of the external collaborators
      (model providers, tools) and collects the observable events (provider
      requests, sleeps, tool invocations, file writes);
    - a file write is an event, and it can fail: what [Path.write_text]
      answers is the parameter [write_text] of the pipeline; the files are
      not part of the state of the providers and tools;
    - console output is not recorded, but it can fail: [console.print]
      renders its text as rich markup and raises on a text that rich does
      not accept (a closing tag that matches no opening one). What rich
      raises for a text, if anything, is the parameter [markup_error] of the
      definitions that print text they did not write themselves: question
      texts, agent names, responses, failures, documents. Prints of the
      program's own markup with numbers or file paths are taken to render
      (a file path is assumed to hold no markup), and the debug panels of
      the engine, off by default, and the progress display are left out. *)

From Stdlib Require Import String Ascii ZArith List Lia DecimalString.
From stdpp Require Import base gmap strings list.
From Equations Require Import Equations.

Local Open Scope Z_scope.

(** ** Python strings *)

Module PyStr.

Definition nl : string := String "010"%char "".

(** [str.isspace] on code points below 256; also the regex class [\s]. *)
Definition isspace (c : ascii) : bool :=
  let n := nat_of_ascii c in
  ((9 <=? n) && (n <=? 13))%nat || ((28 <=? n) && (n <=? 32))%nat
  || (n =? 133)%nat || (n =? 160)%nat.

(** The regex class [\d] (Unicode decimal digits) on code points below 256. *)
Definition isdecimal (c : ascii) : bool :=
  let n := nat_of_ascii c in ((48 <=? n) && (n <=? 57))%nat.

(** The regex class [\w] on code points below 256: [str.isalnum] or "_". *)
Definition isword (c : ascii) : bool :=
  let n := nat_of_ascii c in
  isdecimal c
  || ((65 <=? n) && (n <=? 90))%nat || ((97 <=? n) && (n <=? 122))%nat
  || (n =? 95)%nat
  || (n =? 170)%nat || (n =? 181)%nat || (n =? 186)%nat
  || (n =? 178)%nat || (n =? 179)%nat || (n =? 185)%nat
  || ((188 <=? n) && (n <=? 190))%nat
  || ((192 <=? n) && (n <=? 214))%nat || ((216 <=? n) && (n <=? 246))%nat
  || ((248 <=? n) && (n <=? 255))%nat.

(** [str.lower] on one code point below 256. *)
Definition lower_char (c : ascii) : ascii :=
  let n := nat_of_ascii c in
  if ((65 <=? n) && (n <=? 90))%nat || ((192 <=? n) && (n <=? 214))%nat
     || ((216 <=? n) && (n <=? 222))%nat
  then ascii_of_nat (n + 32) else c.

Fixpoint lower (s : string) : string :=
  match s with
  | EmptyString => EmptyString
  | String c r => String (lower_char c) (lower r)
  end.

(** [s.startswith(p)] *)
Definition startswith (p s : string) : bool := String.prefix p s.

(** [needle in hay] *)
Fixpoint contains (needle hay : string) : bool :=
  String.prefix needle hay ||
  match hay with
  | EmptyString => false
  | String _ r => contains needle r
  end.

(** [bool(s)]: a string is true when it is not empty. *)
Definition truthy (s : string) : bool :=
  match s with EmptyString => false | _ => true end.

Fixpoint lstrip (s : string) : string :=
  match s with
  | EmptyString => EmptyString
  | String c r => if isspace c then lstrip r else s
  end.

Fixpoint rstrip (s : string) : string :=
  match s with
  | EmptyString => EmptyString
  | String c r =>
      match rstrip r with
      | EmptyString => if isspace c then EmptyString else String c EmptyString
      | r' => String c r'
      end
  end.

(** [s.strip()] *)
Definition strip (s : string) : string := rstrip (lstrip s).

(** [s.split('\n')]: always at least one piece. *)
Fixpoint split_lines (s : string) : list string :=
  match s with
  | EmptyString => [EmptyString]
  | String c r =>
      if Ascii.eqb c "010"%char then EmptyString :: split_lines r
      else match split_lines r with
           | l :: ls => String c l :: ls
           | [] => [String c EmptyString]
           end
  end.

(** [sep.join(parts)] *)
Fixpoint join (sep : string) (parts : list string) : string :=
  match parts with
  | [] => EmptyString
  | [p] => p
  | p :: ps => p +:+ sep +:+ join sep ps
  end.

(** [str(n)] for an int. *)
Definition str_of_int (n : Z) : string := NilZero.string_of_int (Z.to_int n).

End PyStr.

(** ** Messages, tool invocations and exceptions *)

(** A raised instance of Python's [Exception] (what [except Exception]
    catches), identified by [str(e)]. *)
Inductive exn : Type := Exception (msg : string).

Definition str_exn (e : exn) : string := match e with Exception msg => msg end.

Inductive result (A : Type) : Type :=
| Ok (a : A)
| Raise (e : exn).
Arguments Ok {A} a.
Arguments Raise {A} e.

(** One entry of [response.tool_calls]: the keys [name], [args] and [id]. *)
Record ToolCall : Type := mkToolCall {
  tc_name : string;
  tc_args : gmap string string;
  tc_id : string
}.

(** The assistant message a provider returns. *)
Record AIMessage : Type := mkAIMessage {
  content : string;
  tool_calls : list ToolCall
}.

Inductive Message : Type :=
| SystemMessage (text : string)
| HumanMessage (text : string)
| AssistantMessage (response : AIMessage)
| ToolMessage (text : string) (tool_call_id : string).

(** ** Effects *)

Inductive event : Type :=
| EvRequest (messages : list Message)      (* a provider request carrying the history *)
| EvSleep (seconds : Z)                    (* time.sleep *)
| EvTool (name : string) (args : gmap string string)  (* a capability invocation *)
| EvRun (agent : string) (query : string)  (* entry into a Conversation Loop *)
| EvWrite (path : string) (text : string). (* Path.write_text *)

(** Computations over the state [W] of the external collaborators
    (providers, tools): an outcome, the new state, the events in order. *)
Definition M (W A : Type) : Type := W -> result A * W * list event.

Definition ret {W A} (a : A) : M W A := fun w => (Ok a, w, []).

Definition raise {W A} (e : exn) : M W A := fun w => (Raise e, w, []).

Definition bind {W A B} (m : M W A) (f : A -> M W B) : M W B :=
  fun w =>
    match m w with
    | (Ok a, w1, t1) => let '(r, w2, t2) := f a w1 in (r, w2, t1 ++ t2)
    | (Raise e, w1, t1) => (Raise e, w1, t1)
    end.

(** [try: m  except Exception as e: h e] *)
Definition try_except {W A} (m : M W A) (h : exn -> M W A) : M W A :=
  fun w =>
    match m w with
    | (Ok a, w1, t1) => (Ok a, w1, t1)
    | (Raise e, w1, t1) => let '(r, w2, t2) := h e w1 in (r, w2, t1 ++ t2)
    end.

Definition emit {W} (ev : event) : M W unit := fun w => (Ok tt, w, [ev]).

(** A call into an external collaborator. *)
Definition call {W A} (f : W -> result A * W) : M W A :=
  fun w => let '(r, w1) := f w in (r, w1, []).

(** [console.print(text)]: nothing to observe when the text renders, the
    failure of the renderer when it does not. *)
Definition console_print {W} (markup_error : string -> option exn) (text : string)
    : M W unit :=
  match markup_error text with
  | Some e => raise e
  | None => ret tt
  end.

Notation "x <- m ; k" := (bind m (fun x => k))
  (at level 20, m at level 100, k at level 200, only parsing).
Notation "m ;;; k" := (bind m (fun _ => k))
  (at level 100, k at level 200, only parsing, right associativity).

(** [path.write_text(text)]: the call is the event; the file system answers
    through [write_text] and may raise (an [OSError]). *)
Definition write_file {W} (write_text : string -> string -> W -> result unit)
    (path text : string) : M W unit :=
  emit (EvWrite path text) ;;; call (fun w => (write_text path text w, w)).

Section Engine.

Context {W : Type}.

(** ** Tool capabilities and model providers *)

Record Tool : Type := mkTool {
  tool_name : string;
  tool_invoke : gmap string string -> W -> result string * W
}.

(** Something with an [invoke(messages)] method. *)
Record Runnable : Type := mkRunnable {
  invoke : list Message -> W -> result AIMessage * W
}.

(** A chat model: invocable as it is, or after [bind_tools]. *)
Record ChatModel : Type := mkChatModel {
  plain : Runnable;
  bind_tools : list Tool -> Runnable
}.

Record AgentConfig : Type := mkAgentConfig {
  name : string;            (* display name *)
  system_prompt : string
}.

Record AgentRunner : Type := mkAgentRunner {
  agent_name : string;
  config : AgentConfig;
  llm : ChatModel;
  tools : list Tool
}.

(** [self.llm.bind_tools(self.tools) if self.tools else self.llm] *)
Definition llm_with_tools (self : AgentRunner) : Runnable :=
  match tools self with
  | [] => plain (llm self)
  | _ :: _ => bind_tools (llm self) (tools self)
  end.

(** ** Retry policy *)

Definition MAX_RETRIES : Z := 3.
Definition INITIAL_WAIT_SECONDS : Z := 60.

(** [range(n)] *)
Definition range (n : Z) : list Z := seqZ 0 n.

(** ["429" in error_str or "rate_limit" in error_str.lower()] *)
Definition is_rate_limit (error_str : string) : bool :=
  PyStr.contains "429" error_str || PyStr.contains "rate_limit" (PyStr.lower error_str).

Definition u_umlaut : string := String "252"%char "".

Definition retries_exhausted (max_retries : Z) (error_str : string) : exn :=
  Exception ("Rate limit: Max retries (" +:+ PyStr.str_of_int max_retries +:+ ") "
             +:+ u_umlaut +:+ "berschritten. " +:+ error_str).

(** The body of [for attempt in range(max_retries + 1)], over the
    attempts still to make. *)
Fixpoint retry_loop (self : AgentRunner) (messages : list Message)
    (max_retries : Z) (attempts : list Z) (wait_time : Z) : M W AIMessage :=
  match attempts with
  | [] => raise (Exception "Max retries exceeded")
  | attempt :: later =>
      try_except
        (emit (EvRequest messages) ;;; call (invoke (llm_with_tools self) messages))
        (fun e =>
           let error_str := str_exn e in
           if is_rate_limit error_str then
             if attempt <? max_retries then
               emit (EvSleep wait_time) ;;;
               retry_loop self messages max_retries later (Z.min (wait_time * 2) 300)
             else raise (retries_exhausted max_retries error_str)
           else raise e)
  end.

Definition _invoke_with_retry (self : AgentRunner) (messages : list Message)
    (max_retries : Z) : M W AIMessage :=
  retry_loop self messages max_retries (range (max_retries + 1)) INITIAL_WAIT_SECONDS.

(** ** Conversation loop *)

(** [{t.name: t for t in self.tools}] *)
Definition tools_by_name_of (ts : list Tool) : gmap string Tool :=
  foldl (fun m t => <[tool_name t := t]> m) ∅ ts.

(** The body of [for tool_call in response.tool_calls]: the text of the
    tool result. *)
Definition tool_result_text (tools_by_name : gmap string Tool) (tool_call : ToolCall)
    : M W string :=
  let tool_name := tc_name tool_call in
  let tool_args := tc_args tool_call in
  match tools_by_name !! tool_name with
  | Some t =>
      try_except
        (emit (EvTool tool_name tool_args) ;;; call (tool_invoke t tool_args))
        (fun e => ret ("Error executing tool " +:+ tool_name +:+ ": " +:+ str_exn e))
  | None => ret ("Unknown tool: " +:+ tool_name)
  end.

Fixpoint dispatch_tool_calls (tools_by_name : gmap string Tool)
    (calls : list ToolCall) (messages : list Message) : M W (list Message) :=
  match calls with
  | [] => ret messages
  | tool_call :: later =>
      result <- tool_result_text tools_by_name tool_call ;
      dispatch_tool_calls tools_by_name later
        (messages ++ [ToolMessage result (tc_id tool_call)])
  end.

(** The body of [for iteration in range(max_iterations)], over the
    iterations still to make; [last] is the variable [response] as the
    previous iteration left it. Returns the answer and the history. *)
Fixpoint agent_loop (self : AgentRunner) (tools_by_name : gmap string Tool)
    (iterations : list Z) (messages : list Message) (last : option AIMessage)
    : M W (string * list Message) :=
  match iterations with
  | [] =>
      match last with
      | Some response => ret (content response, messages)
      | None => raise (Exception "name 'response' is not defined")
      end
  | _ :: later =>
      response <- _invoke_with_retry self messages MAX_RETRIES ;
      let messages := messages ++ [AssistantMessage response] in
      match tool_calls response with
      | _ :: _ =>
          messages <- dispatch_tool_calls tools_by_name (tool_calls response) messages ;
          agent_loop self tools_by_name later messages (Some response)
      | [] => ret (content response, messages)
      end
  end.

(** [AgentRunner.run], with the final history. *)
Definition run_history (self : AgentRunner) (query : string) : M W (string * list Message) :=
  emit (EvRun (agent_name self) query) ;;;
  let messages := [SystemMessage (system_prompt (config self)); HumanMessage query] in
  let tools_by_name := tools_by_name_of (tools self) in
  let max_iterations := 10 in
  agent_loop self tools_by_name (range max_iterations) messages None.

Definition run (self : AgentRunner) (query : string) : M W string :=
  r <- run_history self query ; ret (fst r).

(** ** Delegation supervisor *)

Record Orchestrator : Type := mkOrchestrator {
  supervisor_config : AgentConfig;
  supervisor_with_tools : Runnable;
  agent_runners : gmap string AgentRunner
}.

(** [d.get(key, "")] *)
Definition get_or_empty (d : gmap string string) (key : string) : string :=
  default "" (d !! key).

(** The body of [for tool_call in response.tool_calls] in
    [Orchestrator.run]. *)
Definition delegate_one (self : Orchestrator) (tool_call : ToolCall)
    (messages : list Message) : M W (list Message) :=
  let agent_name := get_or_empty (tc_args tool_call) "agent_name" in
  let task := get_or_empty (tc_args tool_call) "task" in
  match agent_runners self !! agent_name with
  | Some runner =>
      result <- run runner task ;
      ret (messages ++
           [ToolMessage ("[" +:+ name (config runner) +:+ "]: " +:+ result) (tc_id tool_call)])
  | None =>
      ret (messages ++
           [ToolMessage ("Error: Unknown agent '" +:+ agent_name +:+ "'") (tc_id tool_call)])
  end.

Fixpoint delegate_all (self : Orchestrator) (calls : list ToolCall)
    (messages : list Message) : M W (list Message) :=
  match calls with
  | [] => ret messages
  | tool_call :: later =>
      messages <- delegate_one self tool_call messages ;
      delegate_all self later messages
  end.

Fixpoint supervisor_loop (self : Orchestrator) (iterations : list Z)
    (messages : list Message) (last : option AIMessage) : M W (string * list Message) :=
  match iterations with
  | [] =>
      match last with
      | Some response => ret (content response, messages)
      | None => raise (Exception "name 'response' is not defined")
      end
  | _ :: later =>
      response <- (emit (EvRequest messages) ;;;
                   call (invoke (supervisor_with_tools self) messages)) ;
      let messages := messages ++ [AssistantMessage response] in
      match tool_calls response with
      | _ :: _ =>
          messages <- delegate_all self (tool_calls response) messages ;
          supervisor_loop self later messages (Some response)
      | [] => ret (content response, messages)
      end
  end.

(** [Orchestrator.run], with the final history. *)
Definition orchestrate_history (self : Orchestrator) (query : string)
    : M W (string * list Message) :=
  let messages := [SystemMessage (system_prompt (supervisor_config self)); HumanMessage query] in
  let max_iterations := 10 in
  supervisor_loop self (range max_iterations) messages None.

Definition orchestrate (self : Orchestrator) (query : string) : M W string :=
  r <- orchestrate_history self query ; ret (fst r).

(** [run_single_agent]: [AgentRunner(agent_name, project_id, debug).run(query)].
    The constructor reads the agent configuration and builds the provider
    client and the tools; it is the collaborator [new_runner] and may raise
    (an unknown agent name, an unsupported provider). *)
Definition run_single_agent
    (new_runner : string -> option Z -> bool -> W -> result AgentRunner * W)
    (agent_name : string) (query : string) (project_id : option Z) (debug : bool)
    : M W string :=
  runner <- call (new_runner agent_name project_id debug) ;
  run runner query.

End Engine.

(** ** Regular expressions of [markdown_processor.py] *)

Module Regex.

(** Matchers in continuation-passing style: [m k s] holds when [m] matches
    a prefix of [s] such that [k] accepts the rest. *)
Definition matcher : Type := (string -> bool) -> string -> bool.

(** [c*] for a character class *)
Fixpoint star (cls : ascii -> bool) (k : string -> bool) (s : string) : bool :=
  match s with
  | String c r => (cls c && star cls k r) || k s
  | EmptyString => k s
  end.

(** [c+] *)
Definition plus (cls : ascii -> bool) : matcher :=
  fun k s =>
    match s with
    | String c r => cls c && star cls k r
    | EmptyString => false
    end.

(** a literal character *)
Definition lit (a : ascii) : matcher :=
  fun k s =>
    match s with
    | String c r => Ascii.eqb a c && k r
    | EmptyString => false
    end.

(** [(?:m)?] *)
Definition opt (m : matcher) : matcher := fun k s => m k s || k s.

(** [.] matches anything but a newline *)
Definition dot (c : ascii) : bool := negb (Ascii.eqb c "010"%char).

(** [$] under [re.MULTILINE]: at the end, or before a newline *)
Definition eol (s : string) : bool :=
  match s with
  | EmptyString => true
  | String c _ => Ascii.eqb c "010"%char
  end.

(** [QUESTION_PATTERN.match(s)] as a truth value, for
    [^(\d+)\.\s+(?:@(\w+)\s+)?(.+)$]. *)
Definition QUESTION_PATTERN (s : string) : bool :=
  plus PyStr.isdecimal
    (lit "."
      (plus PyStr.isspace
        (opt (fun k => lit "@" (plus PyStr.isword (plus PyStr.isspace k)))
          (plus dot eol)))) s.

End Regex.

(** ** Sequential Q&A pipeline *)

Record Question : Type := mkQuestion {
  number : Z;
  agent : string;
  text : string;
  line_index : Z;
  original_line : string
}.

Record Answer : Type := mkAnswer {
  question_number : Z;
  question_line : string;
  question_text : string;
  answer_text : string
}.

Definition format_previous_answers (answers : list Answer) : string :=
  match answers with
  | [] => ""
  | _ :: _ =>
      let parts :=
        ("Bisherige Fragen und Antworten:" +:+ PyStr.nl)
        :: map (fun a => "### " +:+ question_text a +:+ PyStr.nl
                         +:+ answer_text a +:+ PyStr.nl) answers in
      PyStr.join PyStr.nl parts
  end.

(** The prompt [full_query] of [process_questions]. *)
Definition full_query (context : string) (answers : list Answer) (q : Question) : string :=
  let previous_answers_context := format_previous_answers answers in
  if PyStr.truthy previous_answers_context then
    "Kontext:" +:+ PyStr.nl +:+ context +:+ PyStr.nl +:+ PyStr.nl
    +:+ previous_answers_context +:+ PyStr.nl +:+ PyStr.nl
    +:+ "Aktuelle Frage:" +:+ PyStr.nl +:+ text q +:+ PyStr.nl +:+ PyStr.nl
    +:+ "Bitte beantworte die Frage basierend auf dem Kontext und den bisherigen Antworten."
  else
    "Kontext:" +:+ PyStr.nl +:+ context +:+ PyStr.nl +:+ PyStr.nl
    +:+ "Frage:" +:+ PyStr.nl +:+ text q +:+ PyStr.nl +:+ PyStr.nl
    +:+ "Bitte beantworte die Frage basierend auf dem gegebenen Kontext.".

(** *** Answer insertion *)

(** A stripped line that is non-empty and matches [QUESTION_PATTERN]. *)
Definition is_question_line (line : string) : bool :=
  PyStr.truthy (PyStr.strip line) && Regex.QUESTION_PATTERN (PyStr.strip line).

(** The innermost [while] of [write_answers_to_markdown]: the lines from
    index [j] on, before and after. *)
Fixpoint skip_old_answer (lines : list string) : list string :=
  match lines with
  | [] => []
  | line :: rest =>
      if negb (PyStr.truthy (PyStr.strip line)) || PyStr.startswith "   " line then
        if is_question_line line then lines else skip_old_answer rest
      else lines
  end.

Lemma skip_old_answer_length lines :
  (length (skip_old_answer lines) <= length lines)%nat.
Proof.
  induction lines as [|line rest IH]; simpl; [lia|].
  repeat case_match; simpl; lia.
Qed.

(** The [while j < len(lines)] loop that skips an existing answer block: the
    lines from index [j] on, before and after. *)
Equations? skip_existing_block (lines : list string) : list string
  by wf (length lines) lt :=
  skip_existing_block [] := [];
  skip_existing_block (next_line :: rest) :=
    if is_question_line next_line then next_line :: rest
    else if PyStr.startswith "**Antwort:**" (PyStr.strip next_line)
            || PyStr.startswith "###" (PyStr.strip next_line)
         then skip_existing_block (skip_old_answer rest)
    else if negb (PyStr.truthy (PyStr.strip next_line))
         then skip_existing_block rest
    else next_line :: rest.
Proof.
  all: pose proof (skip_old_answer_length rest); simpl; lia.
Qed.

Lemma skip_existing_block_length lines :
  (length (skip_existing_block lines) <= length lines)%nat.
Proof.
  funelim (skip_existing_block lines); simp skip_existing_block; [simpl; lia|].
  pose proof (skip_old_answer_length rest).
  repeat case_match; simpl in *; try lia.
Qed.

(** [{a.question_line.strip(): a for a in answers}] *)
Definition answer_map_of (answers : list Answer) : gmap string Answer :=
  foldl (fun m a => <[PyStr.strip (question_line a) := a]> m) ∅ answers.

(** The main [while i < len(lines)] loop: the lines from index [i] on, and
    what is appended to [result_lines]. *)
Equations? insert_answers (answer_map : gmap string Answer) (lines : list string)
  : list string by wf (length lines) lt :=
  insert_answers answer_map [] := [];
  insert_answers answer_map (line :: rest) with answer_map !! PyStr.strip line := {
    | Some answer =>
        ("### " +:+ question_text answer) :: "" :: answer_text answer :: ""
        :: insert_answers answer_map (skip_existing_block rest);
    | None => line :: insert_answers answer_map rest }.
Proof.
  all: pose proof (skip_existing_block_length rest); simpl; lia.
Qed.

Definition write_answers_to_markdown (original_content : string) (answers : list Answer)
    : string :=
  let lines := PyStr.split_lines original_content in
  let answer_map := answer_map_of answers in
  PyStr.join PyStr.nl (insert_answers answer_map lines).

(** *** The pipeline *)

(** The texts [process_questions] prints about a question. *)
Definition question_banner (q : Question) : string :=
  "[bold]Question " +:+ PyStr.str_of_int (number q) +:+ ":[/bold] " +:+ text q.

Definition agent_banner (q : Question) : string :=
  "[dim]Agent: " +:+ agent q +:+ "[/dim]".

Definition error_banner (q : Question) (e : exn) : string :=
  "[red]Error processing question " +:+ PyStr.str_of_int (number q) +:+ ": "
  +:+ str_exn e +:+ "[/red]".

Definition preview_banner (response : string) : string :=
  let preview :=
    if (200 <? String.length response)%nat
    then String.substring 0 200 response +:+ "..."
    else response in
  "[green]Answer preview:[/green] " +:+ preview +:+ PyStr.nl.

Section Pipeline.

Context {W : Type}.
Context (markup_error : string -> option exn).
Context (write_text : string -> string -> W -> result unit).
Context (new_runner : string -> option Z -> bool -> W -> result (@AgentRunner W) * W).

(** The body of [for q in questions]: the answers after the question,
    from the answers before it. The print in the [except] block is part of
    the handler: when it raises, the loop is left, as it is when another
    print or the file write raises. *)
Definition process_question (context : string) (verbose debug : bool)
    (project_id : option Z) (output_path : option string)
    (original_content : option string) (answers : list Answer) (q : Question)
    : M W (list Answer) :=
  (if verbose
   then (console_print markup_error (question_banner q) ;;;
         console_print markup_error (agent_banner q))
   else ret tt) ;;;
  (let full_query := full_query context answers q in
   response <-
     try_except
       (run_single_agent new_runner (agent q) full_query project_id debug)
       (fun e =>
          (console_print markup_error (error_banner q e) ;;;
           ret ("Fehler bei der Verarbeitung: " +:+ str_exn e))) ;
   (let answers := answers ++ [mkAnswer (number q) (original_line q) (text q) response] in
    (match output_path, original_content with
     | Some path, Some (String c r) =>
         write_file write_text path (write_answers_to_markdown (String c r) answers)
     | _, _ => ret tt
     end) ;;;
    ((if verbose then console_print markup_error (preview_banner response) else ret tt) ;;;
     ret answers))).

Fixpoint process_loop (context : string) (questions : list Question)
    (verbose debug : bool) (project_id : option Z)
    (output_path : option string) (original_content : option string)
    (answers : list Answer) : M W (list Answer) :=
  match questions with
  | [] => ret answers
  | q :: later =>
      answers <- process_question context verbose debug project_id output_path
                   original_content answers q ;
      process_loop context later verbose debug project_id output_path original_content
        answers
  end.

Definition process_questions (context : string) (questions : list Question)
    (verbose debug : bool) (project_id : option Z)
    (output_path : option string) (original_content : option string)
    : M W (list Answer) :=
  process_loop context questions verbose debug project_id output_path original_content [].

End Pipeline.

(** ** Observations and specifications *)

(** The sleeps of a trace, in order. *)
Definition sleeps (t : list event) : list Z :=
  omap (fun ev => match ev with EvSleep n => Some n | _ => None end) t.

(** The provider requests of a trace, in order. *)
Definition requests (t : list event) : list (list Message) :=
  omap (fun ev => match ev with EvRequest ms => Some ms | _ => None end) t.

(** The waits of the backoff: each one is the previous one doubled, capped
    at 300. *)
Fixpoint backoff_from (wait_time : Z) (waits : list Z) : Prop :=
  match waits with
  | [] => True
  | n :: later => n = wait_time /\ backoff_from (Z.min (wait_time * 2) 300) later
  end.

(** The assistant messages of a history, in order: one per iteration. *)
Definition assistant_messages (history : list Message) : list AIMessage :=
  omap (fun m => match m with AssistantMessage r => Some r | _ => None end) history.

(** The tool invocations of a trace, in order. *)
Definition tool_events (t : list event) : list string :=
  omap (fun ev => match ev with EvTool n _ => Some n | _ => None end) t.

(** What the specification asks of the tool results for a list of
    invocations, in the order received, from the state [w] on: one
    tool_result per invocation with its [tool_call_id], whose text is the
    capability's output, the captured error text, or the unknown-tool
    message. *)
Inductive tool_results {W : Type} (tools_by_name : gmap string (@Tool W))
  : list ToolCall -> W -> list Message -> W -> Prop :=
| results_done w :
    tool_results tools_by_name [] w [] w
| results_output tc later t w out w1 ms w2 :
    tools_by_name !! tc_name tc = Some t ->
    tool_invoke t (tc_args tc) w = (Ok out, w1) ->
    tool_results tools_by_name later w1 ms w2 ->
    tool_results tools_by_name (tc :: later) w (ToolMessage out (tc_id tc) :: ms) w2
| results_error tc later t w e w1 ms w2 :
    tools_by_name !! tc_name tc = Some t ->
    tool_invoke t (tc_args tc) w = (Raise e, w1) ->
    tool_results tools_by_name later w1 ms w2 ->
    tool_results tools_by_name (tc :: later) w
      (ToolMessage ("Error executing tool " +:+ tc_name tc +:+ ": " +:+ str_exn e)
         (tc_id tc) :: ms) w2
| results_unknown tc later w ms w2 :
    tools_by_name !! tc_name tc = None ->
    tool_results tools_by_name later w ms w2 ->
    tool_results tools_by_name (tc :: later) w
      (ToolMessage ("Unknown tool: " +:+ tc_name tc) (tc_id tc) :: ms) w2.

Definition tool_call_id_of (m : Message) : option string :=
  match m with ToolMessage _ id => Some id | _ => None end.

(** A run of the conversation loop in which every provider call succeeds,
    from the history [messages] and the state [w], over the iterations
    still to make: the replies of the provider in order, the final history
    and the final state. Each reply is what [invoke] answers to the history
    as it stands; a reply without invocations ends the run, and after a
    reply with invocations the history goes on with the reply and its tool
    results. *)
Inductive succeeding_run {W : Type} (self : @AgentRunner W)
    (tools_by_name : gmap string (@Tool W))
  : list Z -> list Message -> W -> list AIMessage -> list Message -> W -> Prop :=
| run_ceiling messages w :
    succeeding_run self tools_by_name [] messages w [] messages w
| run_answer i later messages w reply w1 :
    invoke (llm_with_tools self) messages w = (Ok reply, w1) ->
    tool_calls reply = [] ->
    succeeding_run self tools_by_name (i :: later) messages w
      [reply] (messages ++ [AssistantMessage reply]) w1
| run_tools i later messages w reply w1 results w2 replies history w3 :
    invoke (llm_with_tools self) messages w = (Ok reply, w1) ->
    tool_calls reply <> [] ->
    tool_results tools_by_name (tool_calls reply) w1 results w2 ->
    succeeding_run self tools_by_name later
      (messages ++ AssistantMessage reply :: results) w2 replies history w3 ->
    succeeding_run self tools_by_name (i :: later) messages w
      (reply :: replies) history w3.

(** Every failure of the computation, from any state, is one of [P]. *)
Definition raises_only {W A : Type} (P : exn -> Prop) (m : M W A) : Prop :=
  forall w e, (m w).1.1 = Raise e -> P e.

(** What the console raises on some text. *)
Definition console_failure (markup_error : string -> option exn) (e : exn) : Prop :=
  exists text, markup_error text = Some e.

(** What the file system raises on some write. *)
Definition write_failure {W : Type} (write_text : string -> string -> W -> result unit)
    (e : exn) : Prop :=
  exists path text w, write_text path text w = Raise e.

(** Where the incremental write goes: [output_path and original_content]. *)
Definition write_target (output_path original_content : option string)
    : option (string * string) :=
  match output_path, original_content with
  | Some path, Some (String c r) => Some (path, String c r)
  | _, _ => None
  end.

(** The write events after the answers [answers]. *)
Definition write_events (target : option (string * string)) (answers : list Answer)
    : list event :=
  match target with
  | Some (path, original) => [EvWrite path (write_answers_to_markdown original answers)]
  | None => []
  end.

(** The placeholder answer for a failure. *)
Definition placeholder (e : exn) : string := "Fehler bei der Verarbeitung: " +:+ str_exn e.

(** The response the pipeline records for the outcome of an agent's run. *)
Definition recorded (outcome : result string) (response : string) : Prop :=
  match outcome with
  | Ok answer => response = answer
  | Raise e => response = placeholder e
  end.

(** An answer to the question [q]: its number, line and text. *)
Definition answers_question (a : Answer) (q : Question) : Prop :=
  question_number a = number q /\ question_line a = original_line q
  /\ question_text a = text q.

(** The labeled context block of an answer. *)
Definition context_block (a : Answer) : string :=
  "### " +:+ question_text a +:+ PyStr.nl +:+ answer_text a +:+ PyStr.nl.

Definition answer_of (q : Question) (response : string) : Answer :=
  mkAnswer (number q) (original_line q) (text q) response.

Definition key_of (a : Answer) : string := PyStr.strip (question_line a).

(** ** Stub collaborators

    Providers, tools and agents with scripted behaviour, as a test double
    would have it. The state of the collaborators is the number of provider
    calls made so far. *)

Module Stub.

(** A provider that answers its [n]-th call with the [n]-th entry of the
    script, and with [otherwise] once the script is used up. *)
Definition scripted (script : list (result AIMessage)) (otherwise : result AIMessage)
    : @Runnable nat :=
  mkRunnable (fun _ n => (default otherwise (script !! n), S n)).

Definition model (r : @Runnable nat) : @ChatModel nat := mkChatModel r (fun _ => r).

Definition rate_limited : result AIMessage :=
  Raise (Exception "Error code: 429 - rate_limit_error").

Definition research_config : @AgentConfig := mkAgentConfig "Research Agent" "Du bist ein Research Agent.".

(** Fails with a rate-limit signal twice, then succeeds. *)
Definition flaky_runner : @AgentRunner nat :=
  mkAgentRunner "research" research_config
    (model (scripted [rate_limited; rate_limited] (Ok (mkAIMessage "done" [])))) [].

(** Always fails with a rate-limit signal. *)
Definition throttled_runner : @AgentRunner nat :=
  mkAgentRunner "research" research_config (model (scripted [] rate_limited)) [].

(** Always fails with an error that carries no rate-limit signal. *)
Definition broken_runner : @AgentRunner nat :=
  mkAgentRunner "research" research_config
    (model (scripted [] (Raise (Exception "connection refused")))) [].

(** Two tools: one answers, one fails. *)
Definition search_tool : @Tool nat :=
  mkTool "search" (fun _ n => (Ok "3 hits", n)).

Definition failing_tool : @Tool nat :=
  mkTool "export" (fun _ n => (Raise (Exception "disk full"), n)).

Definition three_calls : list ToolCall :=
  [mkToolCall "search" ∅ "call_1"; mkToolCall "export" ∅ "call_2";
   mkToolCall "translate" ∅ "call_3"].

(** Every reply carries tool invocations. *)
Definition busy_runner : @AgentRunner nat :=
  mkAgentRunner "research" research_config
    (model (scripted [] (Ok (mkAIMessage "working" three_calls))))
    [search_tool; failing_tool].

Definition working : AIMessage := mkAIMessage "working" three_calls.

(** One turn of [busy_runner]: its reply and the three tool results. *)
Definition busy_turn : list Message :=
  [AssistantMessage working; ToolMessage "3 hits" "call_1";
   ToolMessage "Error executing tool export: disk full" "call_2";
   ToolMessage "Unknown tool: translate" "call_3"].

(** The history of [busy_runner] at the ceiling. *)
Definition busy_history (query : string) : list Message :=
  [SystemMessage "Du bist ein Research Agent."; HumanMessage query]
  ++ concat (replicate 10 busy_turn).

(** No tools; the plain model answers in plain text. *)
Definition plain_runner : @AgentRunner nat :=
  mkAgentRunner "projektleiter" (mkAgentConfig "Projektleiter" "Du bist ein Projektleiter.")
    (mkChatModel (scripted [] (Ok (mkAIMessage "hello" [])))
                 (fun _ => scripted [] (Ok (mkAIMessage "working" three_calls))))
    [].

(** No tools, yet the model's first reply carries a tool invocation. *)
Definition prompted_runner : @AgentRunner nat :=
  mkAgentRunner "projektleiter" (mkAgentConfig "Projektleiter" "Du bist ein Projektleiter.")
    (model (scripted [Ok (mkAIMessage "" [mkToolCall "translate" ∅ "call_3"])]
              (Ok (mkAIMessage "done" []))))
    [].

(** The delegate of the formatting example. *)
Definition architekt_runner : @AgentRunner nat :=
  mkAgentRunner "architekt" (mkAgentConfig "Solution Architekt" "Du bist ein Architekt.")
    (model (scripted [] (Ok (mkAIMessage "X" [])))) [].

Definition delegate_call (agent task id : string) : ToolCall :=
  mkToolCall "delegate_to_agent" (<["agent_name" := agent]> (<["task" := task]> ∅)) id.

(** A supervisor that delegates once, to [agent], and then concludes. *)
Definition supervisor (agent : string) (runners : gmap string (@AgentRunner nat))
    : @Orchestrator nat :=
  mkOrchestrator (mkAgentConfig "Supervisor" "Du bist der Supervisor.")
    (scripted [Ok (mkAIMessage "" [delegate_call agent "find it" "call_1"])]
       (Ok (mkAIMessage "all done" [])))
    runners.

Definition registry : gmap string (@AgentRunner nat) :=
  <["architekt" := architekt_runner]> (<["research" := broken_runner]> ∅).

(** The configuration collaborator: "research" fails on its first call,
    "architekt" answers, other names are unknown. *)
Definition new_runner (agent_name : string) (project_id : option Z) (debug : bool)
    (n : nat) : result (@AgentRunner nat) * nat :=
  if String.eqb agent_name "research" then (Ok broken_runner, n)
  else if String.eqb agent_name "architekt" then (Ok architekt_runner, n)
  else (Raise (Exception ("Unknown agent: " +:+ agent_name)), n).

(** A console that renders every text. *)
Definition lenient_console (text : string) : option exn := None.

(** [traceback.format_exc()], in short. *)
Definition format_exc (e : exn) : string :=
  "Traceback (most recent call last):" +:+ PyStr.nl +:+ "Exception: " +:+ str_exn e.

(** A file system on which every write succeeds. *)
Definition disk (path text : string) (n : nat) : result unit := Ok tt.

(** A file system that is full once the provider has been called twice. *)
Definition small_disk (path text : string) (n : nat) : result unit :=
  if (n <? 2)%nat then Ok tt else Raise (Exception "[Errno 28] No space left on device").

(** Where [needle] first occurs in [hay]. *)
Fixpoint position_of (needle hay : string) : option nat :=
  if String.prefix needle hay then Some 0%nat
  else match hay with
       | EmptyString => None
       | String _ r => option_map S (position_of needle r)
       end.

(** A console that refuses the closing tag "[/INST]", which matches no
    opening tag in the texts printed here, with the message rich gives. *)
Definition strict_console (text : string) : option exn :=
  match position_of "[/INST]" text with
  | Some n =>
      Some (Exception ("closing tag '[/INST]' at position "
                       +:+ PyStr.str_of_int (Z.of_nat n)
                       +:+ " doesn't match any open tag"))
  | None => None
  end.

(** Always fails, with a text that holds a closing tag. *)
Definition tagging_runner : @AgentRunner nat :=
  mkAgentRunner "research" research_config
    (model (scripted [] (Raise (Exception "Invalid tag [/INST] in prompt")))) [].

(** As [new_runner], with the "research" agent failing on a tag. *)
Definition tagging_new_runner (agent_name : string) (project_id : option Z) (debug : bool)
    (n : nat) : result (@AgentRunner nat) * nat :=
  if String.eqb agent_name "research" then (Ok tagging_runner, n)
  else if String.eqb agent_name "architekt" then (Ok architekt_runner, n)
  else (Raise (Exception ("Unknown agent: " +:+ agent_name)), n).

(** The text of the query a history ends with. *)
Definition human_text (messages : list Message) : string :=
  match last messages with
  | Some (HumanMessage text) => text
  | _ => ""
  end.

(** An agent whose provider echoes the prompt it receives. *)
Definition echo_runner : @AgentRunner nat :=
  mkAgentRunner "research" research_config
    (model (mkRunnable (fun messages n => (Ok (mkAIMessage (human_text messages) []), S n))))
    [].

Definition echo_new_runner (agent_name : string) (project_id : option Z) (debug : bool)
    (n : nat) : result (@AgentRunner nat) * nat := (Ok echo_runner, n).

Definition two_questions : list Question :=
  [mkQuestion 1 "research" "A?" 0 "1. @research A?";
   mkQuestion 2 "architekt" "B?" 1 "2. @arch B?"].

(** A document in which the question line "1. Q?" occurs twice. *)
Definition document : string :=
  "Kontext" +:+ PyStr.nl +:+ "1. Q?" +:+ PyStr.nl +:+ PyStr.nl
  +:+ "2. R?" +:+ PyStr.nl +:+ "  1. Q?".

(** A document in which the line "### T" occurs twice. *)
Definition headed_document : string := "### T" +:+ PyStr.nl +:+ "### T".

Definition old_answer : Answer := mkAnswer 1 "### T" "T" "old".
Definition new_answer : Answer := mkAnswer 2 "### T" "T" "new".

Definition first_answer : Answer := mkAnswer 1 "1. Q?" "Q?" "first".
Definition second_answer : Answer := mkAnswer 2 "2. R?" "R?" "middle".
Definition third_answer : Answer := mkAnswer 3 "  1. Q?" "Q?" "last".

End Stub.

(** ** More of [markdown_processor.py]: parsing the questions *)

Module PyMore.

(** [s.endswith(p)] *)
Fixpoint endswith (p s : string) : bool :=
  String.eqb p s ||
  match s with
  | EmptyString => false
  | String _ r => endswith p r
  end.

(** [int(s)] for a string of ASCII digits, most significant first, as Python
    reads it when no limit is set on the number of digits. *)
Definition int_of_digits (s : string) : Z :=
  fold_left (fun acc c => 10 * acc + (Z.of_nat (nat_of_ascii c) - 48))
    (list_ascii_of_string s) 0.

End PyMore.

(** Matchers that hand back what the groups captured, trying the
    alternatives in the order of Python's backtracking: a greedy repetition
    tries its longest match first, an optional group is tried before it is
    skipped. *)
Module RegexGroups.

Section Captures.

Context {R : Type}.

(** [c*], greedy; [taken] is what the repetition has consumed so far. The
    continuation gets the text consumed and the rest. *)
Fixpoint many (cls : ascii -> bool) (k : string -> string -> option R)
    (taken : string) (s : string) : option R :=
  match s with
  | String c r =>
      if cls c then
        match many cls k (taken +:+ String c EmptyString) r with
        | Some x => Some x
        | None => k taken s
        end
      else k taken s
  | EmptyString => k taken s
  end.

(** [c+], greedy *)
Definition many1 (cls : ascii -> bool) (k : string -> string -> option R)
    (s : string) : option R :=
  match s with
  | String c r => if cls c then many cls k (String c EmptyString) r else None
  | EmptyString => None
  end.

(** a literal character *)
Definition lit (a : ascii) (k : string -> option R) (s : string) : option R :=
  match s with
  | String c r => if Ascii.eqb a c then k r else None
  | EmptyString => None
  end.

(** first alternative, then the second *)
Definition orelse (a b : option R) : option R :=
  match a with
  | Some x => Some x
  | None => b
  end.

End Captures.

(** [QUESTION_PATTERN.match(s)]: the groups [(1, 2, 3)] of
    [^(\d+)\.\s+(?:@(\w+)\s+)?(.+)$], or [None]. *)
Definition QUESTION_PATTERN (s : string) : option (string * option string * string) :=
  many1 PyStr.isdecimal (fun g1 s1 =>
    lit "." (fun s2 =>
      many1 PyStr.isspace (fun _ s3 =>
        let text g2 :=
          many1 Regex.dot (fun g3 s5 => if Regex.eol s5 then Some (g1, g2, g3) else None) in
        orelse
          (lit "@" (many1 PyStr.isword (fun g2 s4 =>
             many1 PyStr.isspace (fun _ s5 => text (Some g2) s5) s4)) s3)
          (text None s3)) s2) s1) s.

(** a literal letter under [re.IGNORECASE] *)
Definition lit_ci (a : ascii) (k : string -> bool) (s : string) : bool :=
  match s with
  | String c r => Ascii.eqb (PyStr.lower_char a) (PyStr.lower_char c) && k r
  | EmptyString => false
  end.

(** [QUESTIONS_SECTION_PATTERN.match(s)] as a truth value, for
    [^#{1,3}\s*Fragen\s*$] under [re.MULTILINE | re.IGNORECASE]. *)
Definition QUESTIONS_SECTION_PATTERN (s : string) : bool :=
  let rest :=
    Regex.star PyStr.isspace
      (lit_ci "F" (lit_ci "r" (lit_ci "a" (lit_ci "g" (lit_ci "e" (lit_ci "n"
         (Regex.star PyStr.isspace Regex.eol))))))) in
  Regex.lit "#" (fun s1 =>
    Regex.lit "#" (fun s2 => Regex.lit "#" rest s2 || rest s2) s1 || rest s1) s.

End RegexGroups.

(** [AGENT_ALIASES], in the order of the dict. *)
Definition AGENT_ALIASES : list (string * list string) :=
  [("research", ["research"; "res"; "r"]);
   ("projektleiter", ["projektleiter"; "pm"; "pl"; "project"]);
   ("architekt", ["architekt"; "architect"; "arch"; "sa"])].

(** The [for agent_name, aliases in AGENT_ALIASES.items()] loop of
    [resolve_agent_alias]. *)
Fixpoint find_alias (mention_lower : string) (aliases : list (string * list string))
    : option string :=
  match aliases with
  | [] => None
  | (agent_name, names) :: later =>
      if existsb (String.eqb mention_lower) names then Some agent_name
      else find_alias mention_lower later
  end.

Definition resolve_agent_alias (mention : option string) : string :=
  match mention with
  | None => "research"
  | Some m =>
      if negb (PyStr.truthy m) then "research"
      else
        let mention_lower := PyStr.lower m in
        match find_alias mention_lower AGENT_ALIASES with
        | Some agent_name => agent_name
        | None => "research"   (* unknown alias, default to research *)
        end
  end.

(** The first index [i] with [QUESTIONS_SECTION_PATTERN.match(lines[i].strip())]. *)
Fixpoint find_section (i : nat) (lines : list string) : option nat :=
  match lines with
  | [] => None
  | line :: later =>
      if RegexGroups.QUESTIONS_SECTION_PATTERN (PyStr.strip line) then Some i
      else find_section (S i) later
  end.

(** The body of [for i in range(search_start, len(lines))] of
    [parse_markdown_questions], over the lines from index [i] on;
    [section] tells whether a "Fragen" header was found. *)
Fixpoint parse_loop (section : bool) (i : nat) (lines : list string)
    (questions : list Question) (context_end_index : nat) : list Question * nat :=
  match lines with
  | [] => (questions, context_end_index)
  | line :: later =>
      match RegexGroups.QUESTION_PATTERN (PyStr.strip line) with
      | Some (g1, agent_mention, g3) =>
          let number := PyMore.int_of_digits g1 in
          let question_text := PyStr.strip g3 in
          let no_mention :=
            match agent_mention with
            | None => true
            | Some m => negb (PyStr.truthy m)
            end in
          if negb section && no_mention && negb (PyMore.endswith "?" question_text)
          then parse_loop section (S i) later questions context_end_index
          else
            let context_end_index :=
              if negb section && negb (match questions with [] => false | _ => true end)
              then i else context_end_index in
            let agent := resolve_agent_alias agent_mention in
            parse_loop section (S i) later
              (questions ++ [mkQuestion number agent question_text (Z.of_nat i) line])
              context_end_index
      | None => parse_loop section (S i) later questions context_end_index
      end
  end.

Definition parse_markdown_questions (content : string) : string * list Question :=
  let lines := PyStr.split_lines content in
  let questions_section_start := find_section 0 lines in
  let search_start :=
    match questions_section_start with Some s => S s | None => 0%nat end in
  let context_end_index :=
    match questions_section_start with Some s => s | None => length lines end in
  let '(questions, context_end_index) :=
    parse_loop (match questions_section_start with Some _ => true | None => false end)
      search_start (drop search_start lines) [] context_end_index in
  let context_lines := take context_end_index lines in
  let context := PyStr.strip (PyStr.join PyStr.nl context_lines) in
  (context, questions).

Section MarkdownFile.

Context {W : Type}.
Context (markup_error : string -> option exn).
Context (write_text : string -> string -> W -> result unit).
Context (new_runner : string -> option Z -> bool -> W -> result (@AgentRunner W) * W).

(** [process_markdown_file]. The files that exist, with their text, are
    [files]; a path is the string it was made from. A dry run prints the
    document it made. *)
Definition process_markdown_file (files : gmap string string) (file_path : string)
    (output_path : option string) (dry_run verbose debug : bool)
    (project_id : option Z) : M W string :=
  match files !! file_path with
  | None => raise (Exception ("File not found: " +:+ file_path))
  | Some content =>
      let '(context, questions) := parse_markdown_questions content in
      match questions with
      | [] => ret content
      | _ :: _ =>
          let out_path :=
            match output_path with
            | Some p => if PyStr.truthy p then p else file_path
            | None => file_path
            end in
          answers <- process_questions markup_error write_text new_runner context questions
                       verbose
                       debug project_id (if dry_run then None else Some out_path)
                       (Some content) ;
          (let result := write_answers_to_markdown content answers in
           (if dry_run then console_print markup_error result else ret tt) ;;;
           ret result)
      end
  end.

End MarkdownFile.

From Stdlib Require Import Sorted.

(** What one line yields in [parse_markdown_questions]: the question at
    index [i], or nothing when the line is no numbered item or, without a
    "Fragen" section, has neither a mention nor a question mark. *)
Definition question_of (section : bool) (i : nat) (line : string) : option Question :=
  match RegexGroups.QUESTION_PATTERN (PyStr.strip line) with
  | Some (g1, agent_mention, g3) =>
      let question_text := PyStr.strip g3 in
      let no_mention :=
        match agent_mention with
        | None => true
        | Some m => negb (PyStr.truthy m)
        end in
      if negb section && no_mention && negb (PyMore.endswith "?" question_text)
      then None
      else Some (mkQuestion (PyMore.int_of_digits g1) (resolve_agent_alias agent_mention)
                   question_text (Z.of_nat i) line)
  | None => None
  end.

(** The questions of the lines from index [i] on, in order. *)
Fixpoint questions_from (section : bool) (i : nat) (lines : list string) : list Question :=
  match lines with
  | [] => []
  | line :: later =>
      match question_of section i line with
      | Some q => q :: questions_from section (S i) later
      | None => questions_from section (S i) later
      end
  end.

(** ** Observations for the properties below *)

(** The file writes of a trace, in order. *)
Definition writes (t : list event) : list (string * string) :=
  omap (fun ev => match ev with EvWrite p text => Some (p, text) | _ => None end) t.

(** A line with nothing but whitespace. *)
Definition blank (line : string) : bool := negb (PyStr.truthy (PyStr.strip line)).

(** A line of an old answer's body: blank or indented by three spaces, and not
    a numbered question. *)
Definition old_answer_line (line : string) : bool :=
  (blank line || PyStr.startswith "   " line) && negb (is_question_line line).

(** The line that opens an old answer. *)
Definition old_answer_header (line : string) : bool :=
  PyStr.startswith "**Antwort:**" (PyStr.strip line)
  || PyStr.startswith "###" (PyStr.strip line).

(** Whether a match was found. *)
Definition matched {A : Type} (o : option A) : bool :=
  match o with Some _ => true | None => false end.

(** every character of [s] is in the class *)
Fixpoint all_chars (cls : ascii -> bool) (s : string) : bool :=
  match s with
  | EmptyString => true
  | String c r => cls c && all_chars cls r
  end.

(** The names [AGENT_ALIASES] maps to. *)
Definition canonical_agents : list string := ["research"; "projektleiter"; "architekt"].

(** Every event of the computation, from any state, is one of [P]. *)
Definition emits_only {W A : Type} (P : event -> Prop) (m : M W A) : Prop :=
  forall w, Forall P (m w).2.

(** An event of the conversation loop's own provider traffic and tools. *)
Definition loop_event (ev : event) : Prop :=
  match ev with
  | EvRequest _ | EvSleep _ | EvTool _ _ => True
  | EvRun _ _ | EvWrite _ _ => False
  end.

Definition not_a_write (ev : event) : Prop :=
  match ev with EvWrite _ _ => False | _ => True end.

(** The events of a trace other than the file writes, in order. *)
Definition other_events (t : list event) : list event :=
  omap (fun ev => match ev with EvWrite _ _ => None | _ => Some ev end) t.

(** [Path(output_path) if output_path else path]: where a run writes. *)
Definition target_path (file_path : string) (output_path : option string) : string :=
  match output_path with
  | Some p => if PyStr.truthy p then p else file_path
  | None => file_path
  end.

(** The events of a retried provider call with the given waits: a request,
    then a sleep and a new request per wait. *)
Definition retry_trace (messages : list Message) (waits : list Z) : list event :=
  EvRequest messages :: flat_map (fun s => [EvSleep s; EvRequest messages]) waits.

(** The wait before retry [k + 1]: 60, 120, 240, and 300 from then on. *)
Definition backoff_wait (k : nat) : Z := Z.min (60 * 2 ^ Z.of_nat k) 300.

(** How the outcome of the retried call comes from the provider's last
    reply, after [retries] retries. *)
Definition retry_outcome (max_retries retries : Z)
    (reply outcome : result AIMessage) : Prop :=
  match reply with
  | Ok a => outcome = Ok a
  | Raise e =>
      if is_rate_limit (str_exn e)
      then retries = max_retries
           /\ outcome = Raise (retries_exhausted max_retries (str_exn e))
      else outcome = Raise e
  end.

(** A history after the opening messages: assistant messages, each followed
    by exactly the tool results of its invocations, ids in order. *)
Inductive answered_turns : list Message -> Prop :=
| turns_done : answered_turns []
| turns_next response results rest :
    map tool_call_id_of results = map (fun tc => Some (tc_id tc)) (tool_calls response) ->
    answered_turns rest ->
    answered_turns (AssistantMessage response :: results ++ rest).

(** A conversation opened by [seed]. *)
Definition conversation (seed messages : list Message) : Prop :=
  exists turns, messages = seed ++ turns /\ answered_turns turns.

(** A history that opens with a system prompt and a query and goes on in
    answered turns. *)
Definition well_formed_history (messages : list Message) : Prop :=
  exists prompt query, conversation [SystemMessage prompt; HumanMessage query] messages.

(** ** Tool selection: [tools.py] and [AgentRunner._get_tools_with_project_filter] *)

Section ToolRegistry.

Context {W : Type}.

(** What the tool functions do, by function name; [scoped] is the function
    that [create_project_scoped_knowledge_base_tool] closes over a project. *)
Variable implementation : string -> gmap string string -> W -> result string * W.
Variable scoped : Z -> gmap string string -> W -> result string * W.

(** [@tool def f]: the tool is named after its function. *)
Definition tool (function_name : string) : @Tool W :=
  mkTool function_name (implementation function_name).

Definition TOOL_REGISTRY : list (string * @Tool W) :=
  [("query_knowledge_base", tool "query_knowledge_base");
   ("list_projects", tool "list_projects");
   ("web_search", tool "web_search");
   ("get_weather", tool "get_weather");
   ("calculate_sum", tool "calculate_sum");
   ("save_markdown", tool "save_markdown")].

(** [d[key]] for a dict given by its items, [None] when [key not in d]. *)
Fixpoint dict_get {A : Type} (d : list (string * A)) (key : string) : option A :=
  match d with
  | [] => None
  | (k, v) :: later => if String.eqb k key then Some v else dict_get later key
  end.

Definition get_all_tools : list (@Tool W) := map snd TOOL_REGISTRY.

Fixpoint get_tools_by_names (tool_names : list string) : list (@Tool W) :=
  match tool_names with
  | [] => []
  | name :: later =>
      match dict_get TOOL_REGISTRY name with
      | Some t => t :: get_tools_by_names later
      | None => get_tools_by_names later     (* a warning is printed *)
      end
  end.

(** [get_agent_config(agent_name).tools]; [configs] holds the [tools] field
    of [AGENT_CONFIGS], by agent name. *)
Definition get_agent_config_tools (configs : list (string * list string))
    (agent_name : string) : result (list string) :=
  match dict_get configs agent_name with
  | Some config_tools => Ok config_tools
  | None =>
      Raise (Exception ("Unknown agent: " +:+ agent_name +:+ ". Available agents: "
                        +:+ PyStr.join ", " (map fst configs)))
  end.

Definition get_tools_for_agent (configs : list (string * list string))
    (agent_name : string) : result (list (@Tool W)) :=
  match get_agent_config_tools configs agent_name with
  | Raise e => Raise e
  | Ok config_tools =>
      if existsb (String.eqb "all") config_tools then Ok get_all_tools
      else if String.eqb agent_name "supervisor" then Ok []
      else Ok (get_tools_by_names config_tools)
  end.

Definition create_project_scoped_knowledge_base_tool (project_id : Z) : @Tool W :=
  mkTool "query_project_knowledge_base" (scoped project_id).

(** [if self.project_id:] *)
Definition project_given (project_id : option Z) : bool :=
  match project_id with
  | Some n => negb (n =? 0)
  | None => false
  end.

Definition _get_tools_with_project_filter (configs : list (string * list string))
    (agent_name : string) (project_id : option Z) : result (list (@Tool W)) :=
  match get_tools_for_agent configs agent_name with
  | Raise e => Raise e
  | Ok tools =>
      if project_given project_id then
        let scoped_tool :=
          create_project_scoped_knowledge_base_tool (default 0 project_id) in
        Ok (map (fun t => if String.eqb (tool_name t) "query_knowledge_base"
                          then scoped_tool else t) tools)
      else Ok tools
  end.

End ToolRegistry.

(** ** The delegation tool *)

Section DelegationTool.

Context {W : Type}.

(** [delegate_to_agent], the tool bound to the supervisor's model; [keys]
    are the keys of [self.agent_runners] in insertion order. *)
Definition delegate_to_agent (self : @Orchestrator W) (keys : list string)
    (agent_name task : string) : M W string :=
  match agent_runners self !! agent_name with
  | None =>
      let available := PyStr.join ", " keys in
      ret ("Error: Unknown agent '" +:+ agent_name +:+ "'. Available agents: " +:+ available)
  | Some runner =>
      result <- run runner task ;
      ret ("[" +:+ name (config runner) +:+ "]: " +:+ result)
  end.

End DelegationTool.

(** The keys of [TOOL_REGISTRY]. *)
Definition registry_names : list string :=
  ["query_knowledge_base"; "list_projects"; "web_search"; "get_weather";
   "calculate_sum"; "save_markdown"].

(** The name a tool has after the project filter. *)
Definition scoped_name (tool_name : string) : string :=
  if String.eqb tool_name "query_knowledge_base" then "query_project_knowledge_base"
  else tool_name.

(** ** Mentions in a chat query: [agents.py] *)

Module Agents.

(** [AGENT_ALIASES] of [agents.py], in the order of the dict. *)
Definition AGENT_ALIASES : list (string * list string) :=
  [("research", ["research"; "res"; "r"]);
   ("projektleiter", ["projektleiter"; "pm"; "pl"; "project"]);
   ("architekt", ["architekt"; "architect"; "arch"; "sa"])].

(** The longest run of word characters at the start: what [(\w+)] takes. *)
Fixpoint take_word (s : string) : string :=
  match s with
  | String c r => if PyStr.isword c then String c (take_word r) else EmptyString
  | EmptyString => EmptyString
  end.

(** [re.search(r'@(\w+)', s)]: group 1 of the leftmost match. *)
Fixpoint search_mention (s : string) : option string :=
  match s with
  | EmptyString => None
  | String c r =>
      if Ascii.eqb c "@" then
        match take_word r with
        | EmptyString => search_mention r
        | m => Some m
        end
      else search_mention r
  end.

(** A literal pattern matched at the start of [s] under [re.IGNORECASE]:
    the rest of [s] after the match. *)
Fixpoint match_ci (pattern s : string) : option string :=
  match pattern with
  | EmptyString => Some s
  | String a pattern' =>
      match s with
      | EmptyString => None
      | String c s' =>
          if Ascii.eqb (PyStr.lower_char a) (PyStr.lower_char c)
          then match_ci pattern' s' else None
      end
  end.

(** [re.sub(pattern + r'\s*', '', s, flags=re.IGNORECASE)] for a literal,
    non-empty pattern: every match, found from left to right without
    overlap, is dropped with the whitespace after it. [skip] counts the
    characters of the current match that are still to be passed over. *)
Fixpoint sub_loop (pattern : string) (skip : nat) (s : string) : string :=
  match s with
  | EmptyString => EmptyString
  | String c r =>
      match skip with
      | S k => sub_loop pattern k r
      | O =>
          match match_ci pattern s with
          | Some rest =>
              sub_loop pattern
                (String.length s - String.length (PyStr.lstrip rest) - 1) r
          | None => String c (sub_loop pattern 0 r)
          end
      end
  end.

Definition sub (pattern s : string) : string := sub_loop pattern 0 s.

Definition parse_agent_mention (query : string) : option string * string :=
  match search_mention query with
  | None => (None, query)
  | Some m =>
      let mention := PyStr.lower m in
      match find_alias mention AGENT_ALIASES with
      | Some agent_name =>
          let cleaned_query := PyStr.strip (sub ("@" +:+ mention) query) in
          (Some agent_name, cleaned_query)
      | None => (None, query)   (* unknown mention: the query is kept as it is *)
      end
  end.

(** [str.capitalize] on code points below 256: the first character in upper
    case, the others in lower case. (The capitals of the three characters
    181, 223 and 255 lie outside this range; no agent name starts with
    them.) *)
Definition upper_char (c : ascii) : ascii :=
  let n := nat_of_ascii c in
  if ((97 <=? n) && (n <=? 122))%nat || ((224 <=? n) && (n <=? 246))%nat
     || ((248 <=? n) && (n <=? 254))%nat
  then ascii_of_nat (n - 32) else c.

Definition capitalize (s : string) : string :=
  match s with
  | EmptyString => EmptyString
  | String c r => String (upper_char c) (PyStr.lower r)
  end.

(** One turn of the chat: the question, the agent and the answer. *)
Definition Turn : Type := string * string * string.

Definition format_chat_history (history : list Turn) : string :=
  match history with
  | [] => ""
  | _ :: _ =>
      let parts :=
        ("Bisheriger Chat-Verlauf:" +:+ PyStr.nl)
        :: flat_map (fun '(question, agent, answer) =>
                       ["User: " +:+ question;
                        capitalize agent +:+ ": " +:+ answer +:+ PyStr.nl]) history in
      PyStr.join PyStr.nl parts
  end.

(** The prompt [full_query] of a chat turn. *)
Definition chat_query (chat_history : list Turn) (cleaned_query : string) : string :=
  let context := format_chat_history chat_history in
  if PyStr.truthy context
  then context +:+ PyStr.nl +:+ PyStr.nl +:+ "Aktuelle Frage:" +:+ PyStr.nl +:+ cleaned_query
  else cleaned_query.

(** The mark at the head of the failure line, as the bytes of the source
    file: it lies outside the code points of the string model, and nothing
    here looks into it. *)
Definition cross_mark : string :=
  String "226"%char (String "128"%char (String "154"%char (String "195"%char
    (String "185"%char (String "195"%char (String "165"%char EmptyString)))))).

(** The texts the chat prints about a failure. *)
Definition failure_banner (e : exn) : string :=
  "[bold red]" +:+ cross_mark +:+ " Fehler:[/bold red] " +:+ str_exn e.

Definition traceback_banner (traceback : string) : string :=
  "[dim]" +:+ traceback +:+ "[/dim]".

Section Chat.

Context {W : Type}.
Context (markup_error : string -> option exn).
(** [traceback.format_exc()] in the handler of a failure *)
Context (format_exc : exn -> string).
Context (new_runner : string -> option Z -> bool -> W -> result (@AgentRunner W) * W).

(** The [while True] loop of [chat_mode] over the lines the user types; the
    end of the list is the end of the input. Next to the history the loop
    hands back what it printed for each query: the response, or the
    failure. The prints of a failure are part of the [except] block: when
    one raises, the chat is left. The prints inside the [try] block carry
    the agent's name, which is one of the three names of [AGENT_ALIASES],
    and the response as Markdown, which is not read as markup. *)
Fixpoint chat_loop (project_id : option Z) (debug : bool) (inputs : list string)
    (chat_history : list Turn) (printed : list (result string))
    : M W (list Turn * list (result string)) :=
  match inputs with
  | [] => ret (chat_history, printed)
  | line :: later =>
      let user_input := PyStr.strip line in
      if String.eqb (PyStr.lower user_input) "exit" then ret (chat_history, printed)
      else if String.eqb (PyStr.lower user_input) "clear"
      then chat_loop project_id debug later [] printed
      else if String.eqb (PyStr.lower user_input) "help"
      then chat_loop project_id debug later chat_history printed
      else if negb (PyStr.truthy user_input)
      then chat_loop project_id debug later chat_history printed
      else
        let '(mentioned, cleaned_query) := parse_agent_mention user_input in
        let agent_name :=
          match mentioned with
          | Some a => if PyStr.truthy a then a else "research"
          | None => "research"
          end in
        let full_query := chat_query chat_history cleaned_query in
        outcome <-
          try_except
            (runner <- call (new_runner agent_name project_id debug) ;
             response <- run runner full_query ;
             ret (Ok response))
            (fun e =>
               (console_print markup_error (failure_banner e) ;;;
                ((if debug
                  then console_print markup_error (traceback_banner (format_exc e))
                  else ret tt) ;;;
                 ret (Raise e)))) ;
        match outcome with
        | Ok response =>
            chat_loop project_id debug later
              (chat_history ++ [(cleaned_query, agent_name, response)])
              (printed ++ [Ok response])
        | Raise e =>
            chat_loop project_id debug later chat_history (printed ++ [Raise e])
        end
  end.

Definition chat_mode (project_id : option Z) (debug : bool) (inputs : list string)
    : M W (list Turn * list (result string)) :=
  chat_loop project_id debug inputs [] [].

End Chat.

End Agents.

(** Any character but "@". *)
Definition not_at (c : ascii) : bool := negb (Ascii.eqb c "@").

(** ** Sample documents and collaborators *)

Module Sample.

(** A document with a "Fragen" header: the numbered line before the header
    belongs to the context. *)
Definition fragen_document : string :=
  "Projekt X" +:+ PyStr.nl +:+ "1. Vorab?" +:+ PyStr.nl +:+ "" +:+ PyStr.nl
  +:+ "## Fragen" +:+ PyStr.nl +:+ "1. @arch Wie?" +:+ PyStr.nl +:+ "2. Punkt".

(** A document without a header: the numbered list item is no question. *)
Definition plain_document : string :=
  "Kontext" +:+ PyStr.nl +:+ "1. Liste" +:+ PyStr.nl +:+ "2. @pm Was?"
  +:+ PyStr.nl +:+ "3. Warum?".

Definition was : Question := mkQuestion 2 "projektleiter" "Was?" 2 "2. @pm Was?".
Definition warum : Question := mkQuestion 3 "research" "Warum?" 3 "3. Warum?".

Definition plain_answers : list Answer :=
  [mkAnswer 2 "2. @pm Was?" "Was?" "Das."; mkAnswer 3 "3. Warum?" "Warum?" "Darum."].

(** An answer to a question that is not in [Stub.document]. *)
Definition stray_answer : Answer := mkAnswer 9 "9. Z?" "Z?" "z".

(** A question line with an old answer under it. *)
Definition answered_lines : list string :=
  "1. Q?" :: [""] ++ "**Antwort:** alt" :: ["   mehr"; ""] ++ ["2. R?"].

Definition files : gmap string string := <["fragen.md" := plain_document]> ∅.

(** A document whose context holds a closing tag. *)
Definition tagged_document : string := "Kontext [/INST]" +:+ PyStr.nl +:+ "1. Was?".

Definition tagged_files : gmap string string := <["fragen.md" := tagged_document]> ∅.

(** Tool functions that answer with a fixed text. *)
Definition implementation (function_name : string) (args : gmap string string) (n : nat)
    : result string * nat := (Ok ("out: " +:+ function_name), n).

Definition scoped (project_id : Z) (args : gmap string string) (n : nat)
    : result string * nat := (Ok "scoped", n).

Definition configs : list (string * list string) :=
  [("research", ["query_knowledge_base"; "web_search"; "unknown_tool"]);
   ("supervisor", [])].

End Sample.

(** ** Observations on the chat *)

(** What a typed line is to the chat loop. *)
Definition is_exit (line : string) : bool :=
  String.eqb (PyStr.lower (PyStr.strip line)) "exit".

Definition is_clear (line : string) : bool :=
  String.eqb (PyStr.lower (PyStr.strip line)) "clear".

(** A line the loop passes over: "help", or nothing but whitespace. *)
Definition is_passed_over (line : string) : bool :=
  String.eqb (PyStr.lower (PyStr.strip line)) "help" || negb (PyStr.truthy (PyStr.strip line)).

Definition is_query (line : string) : bool :=
  negb (is_exit line) && negb (is_clear line) && negb (is_passed_over line).

(** The agent a query line goes to, and the query it carries. *)
Definition chat_agent (line : string) : string :=
  match (Agents.parse_agent_mention (PyStr.strip line)).1 with
  | Some a => if PyStr.truthy a then a else "research"
  | None => "research"
  end.

Definition chat_text (line : string) : string :=
  (Agents.parse_agent_mention (PyStr.strip line)).2.

(** What the prints of the chat's failure handler raise, if anything: the
    failure line, and with [debug] the traceback. *)
Definition handler_failure (markup_error : string -> option exn)
    (format_exc : exn -> string) (debug : bool) (e : exn) : option exn :=
  match markup_error (Agents.failure_banner e) with
  | Some refusal => Some refusal
  | None =>
      if debug then markup_error (Agents.traceback_banner (format_exc e)) else None
  end.

(** * Properties *)

(** ** Checks of the string model *)

Example QUESTION_PATTERN_matches :
  Regex.QUESTION_PATTERN "1. Was ist X?" = true
  /\ Regex.QUESTION_PATTERN "12.  @arch Wie?" = true
  /\ Regex.QUESTION_PATTERN "3. Punkt" = true.
Proof. repeat split; reflexivity. Qed.

Example QUESTION_PATTERN_rejects :
  Regex.QUESTION_PATTERN "1.Was?" = false
  /\ Regex.QUESTION_PATTERN "a1. Was?" = false
  /\ Regex.QUESTION_PATTERN "1. " = false
  /\ Regex.QUESTION_PATTERN "### Was?" = false
  /\ Regex.QUESTION_PATTERN "" = false.
Proof. repeat split; reflexivity. Qed.

Example lower_ex : PyStr.lower "Rate_LIMIT 429" = "rate_limit 429".
Proof. reflexivity. Qed.

Example strip_ex : PyStr.strip "  1. a b  " = "1. a b".
Proof. reflexivity. Qed.

Example split_ex :
  PyStr.split_lines ("a" +:+ PyStr.nl +:+ PyStr.nl +:+ "b" +:+ PyStr.nl) = ["a"; ""; "b"; ""].
Proof. reflexivity. Qed.

Example join_ex : PyStr.join PyStr.nl ["a"; ""; "b"] = "a" +:+ PyStr.nl +:+ PyStr.nl +:+ "b".
Proof. reflexivity. Qed.

Example str_of_int_ex : PyStr.str_of_int 3 = "3" /\ PyStr.str_of_int 0 = "0" /\ PyStr.str_of_int (-12) = "-12".
Proof. repeat split; reflexivity. Qed.

(** ** Strings *)

Section StringFacts.

Lemma append_cons x (a b : string) : String x a +:+ b = String x (a +:+ b).
Proof. reflexivity. Qed.

Lemma length_append (a b : string) :
  String.length (a +:+ b) = (String.length a + String.length b)%nat.
Proof.
  induction a as [|c a IH]; [done|]. rewrite append_cons. simpl. by rewrite IH.
Qed.

Lemma append_assoc (a b c : string) : (a +:+ b) +:+ c = a +:+ b +:+ c.
Proof. induction a as [|x a IH]; [done|]. by rewrite !append_cons, IH. Qed.

Lemma prefix_append_l (n a b : string) :
  String.prefix n a = true -> String.prefix n (a +:+ b) = true.
Proof.
  revert a. induction n as [|x n IH]; intros a H; [by destruct (a +:+ b)|].
  destruct a as [|y a]; [done|]. rewrite append_cons. simpl in *.
  destruct (ascii_dec x y); [by apply IH | done].
Qed.

Lemma prefix_refl (n : string) : String.prefix n n = true.
Proof. induction n as [|x n IH]; [done|]. simpl. by destruct (ascii_dec x x). Qed.

Lemma contains_cons n x r :
  PyStr.contains n (String x r) = String.prefix n (String x r) || PyStr.contains n r.
Proof. reflexivity. Qed.

Lemma contains_refl (n : string) : PyStr.contains n n = true.
Proof.
  pose proof (prefix_refl n) as H. destruct n; [done|].
  by rewrite contains_cons, H.
Qed.

(** [n in a] gives [n in a + b] *)
Lemma contains_append_l (n a b : string) :
  PyStr.contains n a = true -> PyStr.contains n (a +:+ b) = true.
Proof.
  induction a as [|x a IH]; intros H.
  - destruct n; [by destruct b | done].
  - rewrite append_cons, contains_cons. rewrite contains_cons in H.
    apply orb_true_iff in H as [H|H].
    + apply (prefix_append_l _ _ b) in H. rewrite append_cons in H.
      by rewrite H.
    + rewrite (IH H). apply orb_true_r.
Qed.

(** [n in b] gives [n in a + b] *)
Lemma contains_append_r (n a b : string) :
  PyStr.contains n b = true -> PyStr.contains n (a +:+ b) = true.
Proof.
  intros H. induction a as [|x a IH]; [done|].
  rewrite append_cons, contains_cons, IH. apply orb_true_r.
Qed.

Lemma prefix_split (b s : string) :
  String.prefix b s = true -> exists post, s = b +:+ post.
Proof.
  revert s. induction b as [|y b IH]; intros s H; [by exists s|].
  destruct s as [|z s]; [done|]. simpl in H.
  destruct (ascii_dec y z) as [->|]; [|done].
  destruct (IH s H) as [post ->]. by exists post.
Qed.

(** a substring of a substring *)
Lemma contains_trans (a b c : string) :
  PyStr.contains a b = true -> PyStr.contains b c = true ->
  PyStr.contains a c = true.
Proof.
  intros Hab. induction c as [|x c IH]; intros Hbc.
  - destruct b; [exact Hab | done].
  - rewrite contains_cons in Hbc. apply orb_true_iff in Hbc as [Hbc|Hbc].
    + destruct (prefix_split _ _ Hbc) as [post ->]. by apply contains_append_l.
    + rewrite contains_cons, (IH Hbc). apply orb_true_r.
Qed.

End StringFacts.

(** ** The monad *)

Section MonadFacts.

Context {W : Type}.

Lemma bind_Ok {A B} (m : M W A) (f : A -> M W B) w a w1 t1 :
  m w = (Ok a, w1, t1) ->
  bind m f w = (let '(r, w2, t2) := f a w1 in (r, w2, t1 ++ t2)).
Proof. unfold bind. intros ->. reflexivity. Qed.

Lemma bind_Raise {A B} (m : M W A) (f : A -> M W B) w e w1 t1 :
  m w = (Raise e, w1, t1) -> bind m f w = (Raise e, w1, t1).
Proof. unfold bind. intros ->. reflexivity. Qed.

Lemma try_Ok {A} (m : M W A) h w a w1 t1 :
  m w = (Ok a, w1, t1) -> try_except m h w = (Ok a, w1, t1).
Proof. unfold try_except. intros ->. reflexivity. Qed.

Lemma try_Raise {A} (m : M W A) h w e w1 t1 :
  m w = (Raise e, w1, t1) ->
  try_except m h w = (let '(r, w2, t2) := h e w1 in (r, w2, t1 ++ t2)).
Proof. unfold try_except. intros ->. reflexivity. Qed.

(** A request to an external collaborator, announced by an event. *)
Lemma announced_call {A} ev (f : W -> result A * W) w r w1 :
  f w = (r, w1) -> (emit ev ;;; call f) w = (r, w1, [ev]).
Proof.
  intros H. unfold bind, emit, call. rewrite H. destruct r; reflexivity.
Qed.

Lemma emit_then {A} ev (m : M W A) w :
  (emit ev ;;; m) w = (let '(r, w2, t2) := m w in (r, w2, ev :: t2)).
Proof. unfold bind, emit. by destruct (m w) as [[r w2] t2]. Qed.

End MonadFacts.

(** ** Retry policy *)

Section RetryFacts.

Context {W : Type}.
Implicit Types (self : @AgentRunner W) (w : W).

Lemma retry_step_ok self messages max_retries attempt later wait_time w a w1 :
  invoke (llm_with_tools self) messages w = (Ok a, w1) ->
  retry_loop self messages max_retries (attempt :: later) wait_time w
  = (Ok a, w1, [EvRequest messages]).
Proof.
  intros H. simpl. erewrite try_Ok; [reflexivity|].
  by apply announced_call.
Qed.

Lemma retry_step_fatal self messages max_retries attempt later wait_time w e w1 :
  invoke (llm_with_tools self) messages w = (Raise e, w1) ->
  is_rate_limit (str_exn e) = false ->
  retry_loop self messages max_retries (attempt :: later) wait_time w
  = (Raise e, w1, [EvRequest messages]).
Proof.
  intros H Hc. simpl. erewrite try_Raise; [|by apply announced_call].
  rewrite Hc. reflexivity.
Qed.

Lemma retry_step_exhausted self messages max_retries attempt later wait_time w e w1 :
  invoke (llm_with_tools self) messages w = (Raise e, w1) ->
  is_rate_limit (str_exn e) = true ->
  max_retries <= attempt ->
  retry_loop self messages max_retries (attempt :: later) wait_time w
  = (Raise (retries_exhausted max_retries (str_exn e)), w1, [EvRequest messages]).
Proof.
  intros H Hc Ha. simpl. erewrite try_Raise; [|by apply announced_call].
  rewrite Hc. destruct (Z.ltb_spec attempt max_retries); [lia|]. reflexivity.
Qed.

Lemma retry_step_again self messages max_retries attempt later wait_time w e w1 :
  invoke (llm_with_tools self) messages w = (Raise e, w1) ->
  is_rate_limit (str_exn e) = true ->
  attempt < max_retries ->
  retry_loop self messages max_retries (attempt :: later) wait_time w
  = (let '(r, w2, t) :=
       retry_loop self messages max_retries later (Z.min (wait_time * 2) 300) w1 in
     (r, w2, EvRequest messages :: EvSleep wait_time :: t)).
Proof.
  intros H Hc Ha. simpl. erewrite try_Raise; [|by apply announced_call].
  rewrite Hc. destruct (Z.ltb_spec attempt max_retries); [|lia].
  unfold bind at 1. unfold emit at 1.
  destruct (retry_loop _ _ _ _ _ _) as [[r w2] t]. reflexivity.
Qed.

(** [_invoke_with_retry] is the loop at attempt 0 with the initial wait. *)
Lemma invoke_with_retry_is_loop self messages max_retries :
  _invoke_with_retry self messages max_retries
  = retry_loop self messages max_retries (seqZ 0 (max_retries + 1 - 0))
      INITIAL_WAIT_SECONDS.
Proof. unfold _invoke_with_retry, range. by rewrite Z.sub_0_r. Qed.

(** Whatever the provider does, the sleeps of the loop follow the backoff
    schedule from the current wait on. *)
Lemma retry_loop_backoff self messages max_retries attempts :
  forall wait_time w,
    backoff_from wait_time
      (sleeps (retry_loop self messages max_retries attempts wait_time w).2).
Proof.
  induction attempts as [|attempt later IH]; intros wait_time w; [exact I|].
  destruct (invoke (llm_with_tools self) messages w) as [[a|e] w1] eqn:Hi.
  - erewrite retry_step_ok by eauto. exact I.
  - destruct (is_rate_limit (str_exn e)) eqn:Hc.
    + destruct (Z.ltb_spec attempt max_retries).
      * erewrite retry_step_again by eauto.
        specialize (IH (Z.min (wait_time * 2) 300) w1).
        destruct (retry_loop _ _ _ later _ _) as [[r w2] t].
        simpl in *. split; [reflexivity | exact IH].
      * erewrite retry_step_exhausted by eauto. exact I.
    + erewrite retry_step_fatal by eauto. exact I.
Qed.

End RetryFacts.

Section RetryPolicy.

Context {W : Type}.
Implicit Types (self : @AgentRunner W) (w : W).

(** C2: with max-retries 3, a provider that fails with a rate-limit signal
    twice and then succeeds yields its success payload after exactly the
    sleeps 60 and 120; a provider that always fails with a rate-limit
    signal is asked four times, with exactly the sleeps 60, 120 and 240 in
    between, and the call then raises the error that reports the exhausted
    retries; and for every provider and every retry cap each sleep is the
    previous one doubled, capped at 300, starting from 60. *)
Theorem retry_backoff_schedule self messages :
  (forall w e1 w1 e2 w2 payload w3,
      invoke (llm_with_tools self) messages w = (Raise e1, w1) ->
      is_rate_limit (str_exn e1) = true ->
      invoke (llm_with_tools self) messages w1 = (Raise e2, w2) ->
      is_rate_limit (str_exn e2) = true ->
      invoke (llm_with_tools self) messages w2 = (Ok payload, w3) ->
      _invoke_with_retry self messages MAX_RETRIES w
      = (Ok payload, w3,
         [EvRequest messages; EvSleep 60; EvRequest messages; EvSleep 120;
          EvRequest messages]))
  /\ ((forall w, exists e w1,
          invoke (llm_with_tools self) messages w = (Raise e, w1)
          /\ is_rate_limit (str_exn e) = true) ->
      forall w, exists e w1 t,
        _invoke_with_retry self messages MAX_RETRIES w
        = (Raise (Exception ("Rate limit: Max retries (3) " +:+ u_umlaut
                             +:+ "berschritten. " +:+ str_exn e)), w1, t)
        /\ sleeps t = [60; 120; 240]
        /\ length (requests t) = 4%nat)
  /\ (forall max_retries w,
        backoff_from 60 (sleeps (_invoke_with_retry self messages max_retries w).2)).
Proof.
  split; [|split].
  - intros w e1 w1 e2 w2 payload w3 H1 C1 H2 C2 H3.
    unfold _invoke_with_retry, MAX_RETRIES, INITIAL_WAIT_SECONDS.
    change (range (3 + 1)) with [0; 1; 2; 3].
    erewrite retry_step_again by (eauto; lia).
    erewrite retry_step_again by (eauto; lia).
    erewrite retry_step_ok by eauto. reflexivity.
  - intros Hfail w.
    destruct (Hfail w) as (e1 & w1 & H1 & C1).
    destruct (Hfail w1) as (e2 & w2 & H2 & C2).
    destruct (Hfail w2) as (e3 & w3 & H3 & C3).
    destruct (Hfail w3) as (e4 & w4 & H4 & C4).
    exists e4, w4. eexists.
    unfold _invoke_with_retry, MAX_RETRIES, INITIAL_WAIT_SECONDS.
    change (range (3 + 1)) with [0; 1; 2; 3].
    erewrite retry_step_again by (eauto; lia).
    erewrite retry_step_again by (eauto; lia).
    erewrite retry_step_again by (eauto; lia).
    erewrite retry_step_exhausted by (eauto; lia).
    split; [reflexivity|]. split; reflexivity.
  - intros max_retries w. apply retry_loop_backoff.
Qed.



End RetryPolicy.

(** ** Conversation loop *)

Section ToolDispatch.

Context {W : Type}.
Implicit Types (self : @AgentRunner W) (w : W) (tools_by_name : gmap string (@Tool W)).

Lemma tool_results_ids tools_by_name calls w ms w2 :
  tool_results tools_by_name calls w ms w2 ->
  map tool_call_id_of ms = map (fun tc => Some (tc_id tc)) calls.
Proof. induction 1; simpl; congruence. Qed.

(** The dict built from the bound tools knows exactly their names. *)
Lemma tools_by_name_None (ts : list (@Tool W)) n :
  tools_by_name_of ts !! n = None <-> n ∉ map tool_name ts.
Proof.
  unfold tools_by_name_of.
  assert (G : forall (m : gmap string Tool),
             foldl (fun m t => <[tool_name t := t]> m) m ts !! n = None
             <-> (m !! n = None /\ n ∉ map tool_name ts)).
  { induction ts as [|t ts IH]; intros m; simpl.
    - split; [intros H; split; [done | apply not_elem_of_nil] | by intros [? _]].
    - rewrite IH, not_elem_of_cons. destruct (decide (tool_name t = n)) as [->|Hne].
      + rewrite lookup_insert_eq. split; [intros [? _]; discriminate | intros [_ [? _]]; congruence].
      + rewrite lookup_insert_ne by done. intuition congruence. }
  rewrite G, lookup_empty. tauto.
Qed.

Lemma tools_by_name_Some (ts : list (@Tool W)) n t :
  tools_by_name_of ts !! n = Some t -> t ∈ ts /\ tool_name t = n.
Proof.
  unfold tools_by_name_of.
  assert (G : forall (m : gmap string Tool),
             foldl (fun m t => <[tool_name t := t]> m) m ts !! n = Some t ->
             m !! n = Some t \/ (t ∈ ts /\ tool_name t = n)).
  { induction ts as [|t' ts IH]; intros m; simpl; [by left|].
    intros H. destruct (IH _ H) as [Hm | [Hin Hn]].
    - destruct (decide (tool_name t' = n)) as [Heq|Hne].
      + subst n. rewrite lookup_insert_eq in Hm. inversion Hm; subst.
        right. split; [apply list_elem_of_here | done].
      + rewrite lookup_insert_ne in Hm by done. by left.
    - right. split; [by apply list_elem_of_further | done]. }
  intros H. destruct (G _ H) as [Hm|]; [|done].
  by rewrite lookup_empty in Hm.
Qed.

(** One invocation never raises. *)
Lemma tool_result_text_total tools_by_name tc w :
  exists text w1 t,
    tool_result_text tools_by_name tc w = (Ok text, w1, t)
    /\ requests t = [] /\ sleeps t = []
    /\ forall later ms w2,
         tool_results tools_by_name later w1 ms w2 ->
         tool_results tools_by_name (tc :: later) w
           (ToolMessage text (tc_id tc) :: ms) w2.
Proof.
  unfold tool_result_text.
  destruct (tools_by_name !! tc_name tc) as [t|] eqn:Hl.
  - destruct (tool_invoke t (tc_args tc) w) as [[out|e] w1] eqn:Hi.
    + erewrite try_Ok by (by apply announced_call).
      do 3 eexists. repeat split; try reflexivity.
      intros. eapply results_output; eauto.
    + erewrite try_Raise by (by apply announced_call).
      do 3 eexists. repeat split; try reflexivity.
      intros. eapply results_error; eauto.
  - do 3 eexists. repeat split; try reflexivity.
    intros. eapply results_unknown; eauto.
Qed.

Lemma requests_app t1 t2 : requests (t1 ++ t2) = requests t1 ++ requests t2.
Proof. unfold requests. apply omap_app. Qed.

Lemma sleeps_app t1 t2 : sleeps (t1 ++ t2) = sleeps t1 ++ sleeps t2.
Proof. unfold sleeps. apply omap_app. Qed.

Lemma dispatch_tool_calls_total tools_by_name calls :
  forall messages w,
  exists results w1 t,
    dispatch_tool_calls tools_by_name calls messages w
    = (Ok (messages ++ results), w1, t)
    /\ tool_results tools_by_name calls w results w1
    /\ requests t = [] /\ sleeps t = [].
Proof.
  induction calls as [|tc later IH]; intros messages w; simpl.
  - exists [], w, []. rewrite app_nil_r. repeat split. constructor.
  - destruct (tool_result_text_total tools_by_name tc w)
      as (text & w1 & t1 & Hrun & Hr1 & Hs1 & Hspec).
    destruct (IH (messages ++ [ToolMessage text (tc_id tc)]) w1)
      as (results & w2 & t2 & Hrest & Hres & Hr2 & Hs2).
    erewrite bind_Ok by exact Hrun. rewrite Hrest.
    exists (ToolMessage text (tc_id tc) :: results), w2, (t1 ++ t2).
    rewrite <- app_assoc. simpl. repeat split.
    + by apply Hspec.
    + by rewrite requests_app, Hr1, Hr2.
    + by rewrite sleeps_app, Hs1, Hs2.
Qed.

End ToolDispatch.

Section ConversationLoop.

Context {W : Type}.
Implicit Types (self : @AgentRunner W) (w : W).

Lemma assistant_messages_app h1 h2 :
  assistant_messages (h1 ++ h2) = assistant_messages h1 ++ assistant_messages h2.
Proof. unfold assistant_messages. apply omap_app. Qed.

Lemma tool_results_no_assistant (tools_by_name : gmap string (@Tool W)) calls w ms w2 :
  tool_results tools_by_name calls w ms w2 ->
  assistant_messages ms = [] /\ length ms = length calls.
Proof. induction 1; simpl; intuition congruence. Qed.

Lemma invoke_with_retry_first_try self messages max_retries w a w1 :
  0 <= max_retries ->
  invoke (llm_with_tools self) messages w = (Ok a, w1) ->
  _invoke_with_retry self messages max_retries w = (Ok a, w1, [EvRequest messages]).
Proof.
  intros Hm Hi. unfold _invoke_with_retry, range.
  rewrite seqZ_cons by lia. by apply retry_step_ok.
Qed.

Lemma agent_loop_dispatch self tools_by_name i later messages prev w
      response w1 t1 messages2 w2 t2 :
  _invoke_with_retry self messages MAX_RETRIES w = (Ok response, w1, t1) ->
  tool_calls response <> [] ->
  dispatch_tool_calls tools_by_name (tool_calls response)
    (messages ++ [AssistantMessage response]) w1 = (Ok messages2, w2, t2) ->
  agent_loop self tools_by_name (i :: later) messages prev w
  = (let '(r, w3, t3) :=
       agent_loop self tools_by_name later messages2 (Some response) w2 in
     (r, w3, t1 ++ t2 ++ t3)).
Proof.
  intros Hr Hc Hd. simpl. erewrite bind_Ok by exact Hr.
  destruct (tool_calls response) as [|c cs] eqn:Hcalls; [done|].
  erewrite bind_Ok by exact Hd.
  destruct (agent_loop _ _ later _ _ _) as [[r w3] t3].
  by rewrite app_assoc.
Qed.

Lemma agent_loop_answer self tools_by_name i later messages prev w response w1 t1 :
  _invoke_with_retry self messages MAX_RETRIES w = (Ok response, w1, t1) ->
  tool_calls response = [] ->
  agent_loop self tools_by_name (i :: later) messages prev w
  = (Ok (content response, messages ++ [AssistantMessage response]), w1, t1).
Proof.
  intros Hr Hc. simpl. erewrite bind_Ok by exact Hr. rewrite Hc.
  unfold ret. by rewrite app_nil_r.
Qed.

Lemma run_of_history self query w r w1 t :
  run_history self query w = (r, w1, t) ->
  run self query w
  = (match r with Ok p => Ok (fst p) | Raise e => Raise e end, w1, t).
Proof.
  intros H. unfold run, bind. rewrite H. destruct r; [|done].
  unfold ret. by rewrite app_nil_r.
Qed.

(** C5: in an iteration whose assistant message carries tool invocations,
    the loop appends exactly one tool_result per invocation, in invocation
    order and with the invocation's id; its text is the capability's output
    when the name is bound and the invocation succeeds, the captured error
    text when the invocation fails, and the unknown-tool message when the
    name is not in the bound set; and the loop goes on to its next
    iteration with that history, so dispatch never raises out of it. *)
Theorem tool_dispatch_results self i later messages prev w response w1 t1 :
  _invoke_with_retry self messages MAX_RETRIES w = (Ok response, w1, t1) ->
  tool_calls response <> [] ->
  let tools_by_name := tools_by_name_of (tools self) in
  exists results w2 t2,
    dispatch_tool_calls tools_by_name (tool_calls response)
      (messages ++ [AssistantMessage response]) w1
    = (Ok ((messages ++ [AssistantMessage response]) ++ results), w2, t2)
    /\ tool_results tools_by_name (tool_calls response) w1 results w2
    /\ length results = length (tool_calls response)
    /\ map tool_call_id_of results = map (fun tc => Some (tc_id tc)) (tool_calls response)
    /\ (forall n, tools_by_name !! n = None <-> n ∉ map tool_name (tools self))
    /\ agent_loop self tools_by_name (i :: later) messages prev w
       = (let '(r, w3, t3) :=
            agent_loop self tools_by_name later
              ((messages ++ [AssistantMessage response]) ++ results) (Some response) w2 in
          (r, w3, t1 ++ t2 ++ t3)).
Proof.
  intros Hr Hc tools_by_name.
  destruct (dispatch_tool_calls_total tools_by_name (tool_calls response)
              (messages ++ [AssistantMessage response]) w1)
    as (results & w2 & t2 & Hd & Hspec & _ & _).
  exists results, w2, t2. split; [exact Hd|]. split; [exact Hspec|].
  split; [by apply tool_results_no_assistant in Hspec as [_ ?]|].
  split; [by eapply tool_results_ids|].
  split; [intros n; apply tools_by_name_None|].
  by eapply agent_loop_dispatch.
Qed.

Lemma tool_results_functional (tools_by_name : gmap string (@Tool W)) calls w ms1 w1 :
  tool_results tools_by_name calls w ms1 w1 ->
  forall ms2 w2, tool_results tools_by_name calls w ms2 w2 -> ms1 = ms2 /\ w1 = w2.
Proof.
  induction 1 as [w|tc later t w out w1 ms w2 Hl Hi _ IH
                  |tc later t w e w1 ms w2 Hl Hi _ IH
                  |tc later w ms w2 Hl _ IH];
    intros ms2 w2' H2; inversion H2; subst; try done; try congruence.
  all: repeat match goal with
         | H1 : ?a = Some ?x, H2 : ?a = Some ?y |- _ =>
             assert (y = x) by congruence; subst y; clear H2
         | H1 : ?a = (?r1, ?s1), H2 : ?a = (?r2, ?s2) |- _ =>
             assert (r2 = r1 /\ s2 = s1) as [? ?] by (split; congruence); clear H2
         end.
  all: repeat match goal with
         | H : Ok _ = Ok _ |- _ => injection H as H
         | H : Raise _ = Raise _ |- _ => injection H as H
         end; subst.
  all: match goal with
       | H : tool_results _ _ _ _ _ |- _ => by destruct (IH _ _ H) as [-> ->]
       end.
Qed.

(** The loop computes what [succeeding_run] describes: one request and one
    assistant message per reply, no sleep, and no more replies than
    iterations; replies that all carry invocations use every iteration. *)
Lemma agent_loop_succeeding self tools_by_name iterations messages w replies history w3 :
  succeeding_run self tools_by_name iterations messages w replies history w3 ->
  forall prev,
    (iterations <> [] \/ prev <> None) ->
    last (assistant_messages messages) = prev ->
    exists t r,
      agent_loop self tools_by_name iterations messages prev w
      = (Ok (content r, history), w3, t)
      /\ last (assistant_messages history) = Some r
      /\ assistant_messages history = assistant_messages messages ++ replies
      /\ length (requests t) = length replies
      /\ sleeps t = []
      /\ (length replies <= length iterations)%nat
      /\ (Forall (fun m => tool_calls m <> []) replies ->
          length replies = length iterations).
Proof.
  induction 1 as [messages w
                 |i later messages w reply w1 Hi Hc
                 |i later messages w reply w1 results w2 replies history w3 Hi Hc Hres _ IH];
    intros prev Hne Hlast.
  - destruct prev as [r|]; [|by destruct Hne].
    exists [], r. rewrite app_nil_r. by repeat split.
  - pose proof (invoke_with_retry_first_try self messages MAX_RETRIES w reply w1
                  ltac:(done) Hi) as Hr.
    erewrite agent_loop_answer by eauto.
    exists [EvRequest messages], reply.
    rewrite assistant_messages_app.
    change (assistant_messages [AssistantMessage reply]) with [reply].
    rewrite last_snoc. repeat split; try done; simpl; try lia.
    intros Hall. inversion Hall; subst. by rewrite Hc in *.
  - pose proof (invoke_with_retry_first_try self messages MAX_RETRIES w reply w1
                  ltac:(done) Hi) as Hr.
    destruct (dispatch_tool_calls_total tools_by_name (tool_calls reply)
                (messages ++ [AssistantMessage reply]) w1)
      as (results' & w2' & t2 & Hd & Hspec & Hr2 & Hs2).
    destruct (tool_results_functional _ _ _ _ _ Hspec _ _ Hres) as [-> ->].
    erewrite agent_loop_dispatch; [| exact Hr | exact Hc | exact Hd].
    rewrite <- app_assoc in *. simpl in *.
    apply tool_results_no_assistant in Hspec as [Hno _].
    destruct (IH (Some reply)) as (t3 & r & Hrun & Hl & Ha & Hn & Hs & Hle & Hall).
    { by right. }
    { change (messages ++ AssistantMessage reply :: results)
        with (messages ++ [AssistantMessage reply] ++ results).
      rewrite !assistant_messages_app, Hno, app_nil_r. simpl. apply last_snoc. }
    rewrite Hrun. exists ([EvRequest messages] ++ t2 ++ t3), r.
    change (messages ++ AssistantMessage reply :: results)
      with (messages ++ [AssistantMessage reply] ++ results) in Ha.
    rewrite !assistant_messages_app, Hno, app_nil_r in Ha.
    change (assistant_messages [AssistantMessage reply]) with [reply] in Ha.
    rewrite !requests_app, !sleeps_app, Hr2, Hs2, Hs. simpl.
    repeat split; try done; try lia.
    + by rewrite Ha, <- app_assoc.
    + intros Hf. inversion Hf; subst. f_equal. by apply Hall.
Qed.

(** A provider that answers every call gives rise to such a run. *)
Lemma succeeding_run_exists self tools_by_name iterations :
  (forall messages w, exists reply w1,
      invoke (llm_with_tools self) messages w = (Ok reply, w1)) ->
  forall messages w,
  exists replies history w3,
    succeeding_run self tools_by_name iterations messages w replies history w3.
Proof.
  intros Hp. induction iterations as [|i later IH]; intros messages w.
  - exists [], messages, w. constructor.
  - destruct (Hp messages w) as (reply & w1 & Hi).
    destruct (tool_calls reply) as [|c cs] eqn:Hc.
    + exists [reply], (messages ++ [AssistantMessage reply]), w1. by constructor.
    + destruct (dispatch_tool_calls_total tools_by_name (tool_calls reply)
                  (messages ++ [AssistantMessage reply]) w1)
        as (results & w2 & t2 & _ & Hspec & _).
      destruct (IH (messages ++ AssistantMessage reply :: results) w2)
        as (replies & history & w3 & Hrun).
      exists (reply :: replies), history, w3.
      eapply run_tools; eauto. by rewrite Hc.
Qed.

(** C3: in a run in which every provider call succeeds, the loop returns
    after at most 10 iterations and does not raise: the history it leaves
    holds the provider's replies as its assistant messages, one request was
    sent per reply and no sleep made, and the answer is the content of the
    last reply. If every reply carries tool invocations, there are exactly
    10 of them, and the answer is the content of the tenth, whose
    invocations were still dispatched. *)
Theorem loop_ceiling self query w replies history w1 :
  succeeding_run self (tools_by_name_of (tools self)) (range 10)
    [SystemMessage (system_prompt (config self)); HumanMessage query] w
    replies history w1 ->
  exists t r,
    run_history self query w = (Ok (content r, history), w1, t)
    /\ run self query w = (Ok (content r), w1, t)
    /\ assistant_messages history = replies
    /\ last replies = Some r
    /\ length (requests t) = length replies
    /\ sleeps t = []
    /\ (length replies <= 10)%nat
    /\ (Forall (fun m => tool_calls m <> []) replies ->
        length replies = 10%nat /\ tool_calls r <> []).
Proof.
  intros Hrun.
  destruct (agent_loop_succeeding _ _ _ _ _ _ _ _ Hrun None)
    as (t & r & Hloop & Hl & Ha & Hn & Hs & Hle & Hall).
  { by left. }
  { reflexivity. }
  simpl in Ha. rewrite Ha in Hl.
  change (length (range 10)) with 10%nat in *.
  assert (Hh : run_history self query w
               = (Ok (content r, history), w1, EvRun (agent_name self) query :: t)).
  { unfold run_history. unfold bind at 1. unfold emit at 1. by rewrite Hloop. }
  exists (EvRun (agent_name self) query :: t), r.
  split; [exact Hh|].
  split; [by rewrite (run_of_history _ _ _ _ _ _ Hh)|].
  repeat split; try done.
  - by apply Hall.
  - apply last_Some in Hl as [front Hl]. rewrite Hl in H.
    apply Forall_app in H as [_ H]. by inversion H.
Qed.

Lemma tool_events_app t1 t2 : tool_events (t1 ++ t2) = tool_events t1 ++ tool_events t2.
Proof. unfold tool_events. apply omap_app. Qed.

(** The retry policy invokes no capability. *)
Lemma retry_loop_no_tool_events self messages max_retries attempts :
  forall wait_time w,
    tool_events (retry_loop self messages max_retries attempts wait_time w).2 = [].
Proof.
  induction attempts as [|attempt later IH]; intros wait_time w; [done|].
  destruct (invoke (llm_with_tools self) messages w) as [[a|e] w1] eqn:Hi.
  - by erewrite retry_step_ok by eauto.
  - destruct (is_rate_limit (str_exn e)) eqn:Hc.
    + destruct (Z.ltb_spec attempt max_retries).
      * erewrite retry_step_again by eauto.
        specialize (IH (Z.min (wait_time * 2) 300) w1).
        by destruct (retry_loop _ _ _ later _ _) as [[r w2] t].
      * by erewrite retry_step_exhausted by eauto.
    + by erewrite retry_step_fatal by eauto.
Qed.

(** With nothing bound, dispatch answers every invocation without invoking
    anything. *)
Lemma dispatch_unbound_no_tool_events calls :
  forall messages w,
    tool_events (dispatch_tool_calls (∅ : gmap string (@Tool W)) calls messages w).2 = [].
Proof.
  induction calls as [|tc later IH]; intros messages w; [done|].
  simpl. unfold tool_result_text. rewrite lookup_empty.
  unfold bind at 1. unfold ret at 1.
  specialize (IH (messages ++ [ToolMessage ("Unknown tool: " +:+ tc_name tc) (tc_id tc)]) w).
  by destruct (dispatch_tool_calls _ later _ _) as [[r w2] t].
Qed.

Lemma agent_loop_unbound_no_tool_events self iterations :
  forall messages prev w,
    tool_events (agent_loop self ∅ iterations messages prev w).2 = [].
Proof.
  induction iterations as [|i later IH]; intros messages prev w.
  - simpl. by destruct prev.
  - simpl. unfold bind at 1. unfold _invoke_with_retry.
    pose proof (retry_loop_no_tool_events self messages MAX_RETRIES
                  (range (MAX_RETRIES + 1)) INITIAL_WAIT_SECONDS w) as Hr.
    destruct (retry_loop _ _ _ _ _ _) as [[[response|e] w1] t1]; [|exact Hr].
    simpl in Hr. destruct (tool_calls response) as [|c cs].
    + simpl. by rewrite tool_events_app, Hr.
    + unfold bind.
      pose proof (dispatch_unbound_no_tool_events (c :: cs)
                    (messages ++ [AssistantMessage response]) w1) as Hd.
      destruct (dispatch_tool_calls _ (c :: cs) _ _) as [[[messages2|e] w2] t2].
      * specialize (IH messages2 (Some response) w2).
        destruct (agent_loop _ _ later _ _ _) as [[r w3] t3].
        simpl in *. by rewrite !tool_events_app, Hr, Hd, IH.
      * simpl in *. by rewrite tool_events_app, Hr, Hd.
Qed.

(** One retried call sends the same request each time, at least once and at
    most once per attempt, and a reply it returns is a reply of the
    provider. *)
Lemma retry_loop_requests self messages max_retries attempts :
  forall wait_time w,
    let outcome := retry_loop self messages max_retries attempts wait_time w in
    (exists n, (n <= length attempts)%nat /\ (attempts <> [] -> (1 <= n)%nat)
               /\ requests outcome.2 = replicate n messages)
    /\ (forall reply, outcome.1.1 = Ok reply ->
          exists w0, invoke (llm_with_tools self) messages w0 = (Ok reply, outcome.1.2)).
Proof.
  induction attempts as [|attempt later IH]; intros wait_time w; cbv zeta.
  - split; [by exists 0%nat | by intros reply].
  - destruct (invoke (llm_with_tools self) messages w) as [[a|e] w1] eqn:Hi.
    + erewrite retry_step_ok by eauto. simpl. split.
      * exists 1%nat. repeat split; lia.
      * intros reply [= <-]. by exists w.
    + destruct (is_rate_limit (str_exn e)) eqn:Hc.
      * destruct (Z.ltb_spec attempt max_retries).
        -- erewrite retry_step_again by eauto.
           destruct (IH (Z.min (wait_time * 2) 300) w1) as [(n & Hn & _ & Hreq) Hreply].
           destruct (retry_loop _ _ _ later _ _) as [[r w2] t]. simpl in *. split.
           ++ exists (S n). rewrite Hreq. repeat split; lia.
           ++ exact Hreply.
        -- erewrite retry_step_exhausted by eauto. simpl. split.
           ++ exists 1%nat. repeat split; lia.
           ++ by intros reply.
      * erewrite retry_step_fatal by eauto. simpl. split.
        -- exists 1%nat. repeat split; lia.
        -- by intros reply.
Qed.

(** C8, as the code has it: an agent with no bound tools never invokes a
    capability, and it talks to the plain model, to which nothing is bound.
    As such a model replies without tool invocations, the loop makes one
    iteration: every provider request carries the two opening messages
    (one request, or up to four when the Retry Policy repeats it), a run
    that returns has appended the one reply and returns its content, and
    when the model answers the first request this is the only one. *)
Theorem no_tools_one_iteration self query w :
  tools self = [] ->
  let seed := [SystemMessage (system_prompt (config self)); HumanMessage query] in
  let '(outcome, w1, t) := run_history self query w in
  tool_events t = []
  /\ run self query w
     = (match outcome with Ok p => Ok p.1 | Raise e => Raise e end, w1, t)
  /\ ((forall messages w0 reply w2,
          invoke (plain (llm self)) messages w0 = (Ok reply, w2) -> tool_calls reply = []) ->
      (exists n, (1 <= n <= 4)%nat /\ requests t = replicate n seed)
      /\ (forall answer history,
            outcome = Ok (answer, history) ->
            exists reply w0,
              invoke (plain (llm self)) seed w0 = (Ok reply, w1)
              /\ history = seed ++ [AssistantMessage reply]
              /\ answer = content reply)
      /\ (forall reply w2,
            invoke (plain (llm self)) seed w = (Ok reply, w2) ->
            outcome = Ok (content reply, seed ++ [AssistantMessage reply])
            /\ w1 = w2
            /\ t = [EvRun (agent_name self) query; EvRequest seed])).
Proof.
  intros Hno seed.
  assert (Hw : llm_with_tools self = plain (llm self)).
  { unfold llm_with_tools. by rewrite Hno. }
  destruct (run_history self query w) as [[outcome w1] t] eqn:Hrun.
  split; [|split].
  - unfold run_history in Hrun. rewrite Hno in Hrun.
    unfold bind at 1 in Hrun. unfold emit at 1 in Hrun.
    pose proof (agent_loop_unbound_no_tool_events self (range 10) seed None w) as Hl.
    change (tools_by_name_of []) with (∅ : gmap string (@Tool W)) in Hrun.
    fold seed in Hrun.
    destruct (agent_loop _ _ _ _ _ _) as [[r' w'] t'].
    inversion Hrun; subst. exact Hl.
  - by rewrite (run_of_history _ _ _ _ _ _ Hrun).
  - intros Hplain.
    unfold run_history in Hrun. fold seed in Hrun.
    unfold bind at 1 in Hrun. unfold emit at 1 in Hrun.
    change (range 10) with [0; 1; 2; 3; 4; 5; 6; 7; 8; 9] in Hrun.
    cbn [agent_loop] in Hrun. unfold bind at 1 in Hrun.
    pose proof (retry_loop_requests self seed MAX_RETRIES (range (MAX_RETRIES + 1))
                  INITIAL_WAIT_SECONDS w) as Hretry.
    change (retry_loop self seed MAX_RETRIES (range (MAX_RETRIES + 1))
              INITIAL_WAIT_SECONDS w)
      with (_invoke_with_retry self seed MAX_RETRIES w) in Hretry.
    change (length (range (MAX_RETRIES + 1))) with 4%nat in Hretry.
    cbv zeta in Hretry. destruct Hretry as [(n & Hn & Hpos & Hreq) Hreply].
    specialize (Hpos ltac:(done)).
    destruct (_invoke_with_retry self seed MAX_RETRIES w) as [[[reply|e] w2] t1] eqn:Hretry;
      cbn [fst snd] in *.
    + destruct (Hreply reply eq_refl) as (w0 & Hi). rewrite Hw in Hi.
      rewrite (Hplain _ _ _ _ Hi) in Hrun. unfold ret in Hrun.
      injection Hrun as <- <- <-. rewrite app_nil_r.
      change (requests (EvRun (agent_name self) query :: t1)) with (requests t1).
      split; [exists n; split; [lia | done]|]. split.
      * intros answer history [= <- <-]. by exists reply, w0.
      * intros reply' w2' Hi'. rewrite <- Hw in Hi'.
        rewrite (invoke_with_retry_first_try _ _ MAX_RETRIES _ _ _ ltac:(done) Hi') in Hretry.
        by injection Hretry as <- <- <-.
    + injection Hrun as <- <- <-.
      change (requests (EvRun (agent_name self) query :: t1)) with (requests t1).
      split; [exists n; split; [lia | done]|]. split; [done|].
      intros reply' w2' Hi'. rewrite <- Hw in Hi'.
      rewrite (invoke_with_retry_first_try _ _ MAX_RETRIES _ _ _ ltac:(done) Hi') in Hretry.
      discriminate.
Qed.

End ConversationLoop.

(** ** Delegation supervisor *)

Section Delegation.

Context {W : Type}.
Implicit Types (self : @Orchestrator W) (w : W).


Lemma delegate_all_app self pre :
  forall post messages w messages1 w1 t1,
    delegate_all self pre messages w = (Ok messages1, w1, t1) ->
    delegate_all self (pre ++ post) messages w
    = (let '(r, w2, t2) := delegate_all self post messages1 w1 in (r, w2, t1 ++ t2)).
Proof.
  induction pre as [|tc pre IH]; intros post messages w messages1 w1 t1 H.
  - simpl in H. inversion H; subst. simpl.
    by destruct (delegate_all self post messages1 w1) as [[r w2] t2].
  - simpl in *. unfold bind in *.
    destruct (delegate_one self tc messages w) as [[[m|e] w0] t0]; [|discriminate].
    destruct (delegate_all self pre m w0) as [[r' w'] t'] eqn:Hpre.
    inversion H; subst. rewrite (IH post _ _ _ _ _ Hpre).
    destruct (delegate_all self post messages1 w1) as [[r w2] t2].
    by rewrite app_assoc.
Qed.

(** C1, as the code has it: the supervisor has no handler around a
    delegate's run. When the Conversation Loop of a registered delegate
    raises, the failure leaves the delegate invocation as it is, no
    tool_result is appended for it, and the same failure ends the
    supervisor's loop. *)
Theorem delegate_failure_propagates self i later messages prev w
        response w1 pre tool_call post messages1 w2 t1 runner e w3 t2 :
  invoke (supervisor_with_tools self) messages w = (Ok response, w1) ->
  tool_calls response = pre ++ tool_call :: post ->
  delegate_all self pre (messages ++ [AssistantMessage response]) w1
  = (Ok messages1, w2, t1) ->
  agent_runners self !! get_or_empty (tc_args tool_call) "agent_name" = Some runner ->
  run runner (get_or_empty (tc_args tool_call) "task") w2 = (Raise e, w3, t2) ->
  delegate_one self tool_call messages1 w2 = (Raise e, w3, t2)
  /\ supervisor_loop self (i :: later) messages prev w
     = (Raise e, w3, EvRequest messages :: t1 ++ t2).
Proof.
  intros Hi Hcalls Hpre Hreg Hrun.
  assert (Hd : delegate_one self tool_call messages1 w2 = (Raise e, w3, t2)).
  { unfold delegate_one. rewrite Hreg. by erewrite bind_Raise by exact Hrun. }
  split; [exact Hd|].
  simpl. erewrite bind_Ok by (by apply announced_call).
  rewrite Hcalls. destruct (pre ++ tool_call :: post) as [|c cs] eqn:Hc.
  { by destruct pre. }
  rewrite <- Hc. erewrite bind_Raise; [reflexivity|].
  rewrite (delegate_all_app _ _ _ _ _ _ _ _ Hpre). simpl.
  by erewrite bind_Raise by exact Hd.
Qed.

End Delegation.

(** ** Sequential Q&A pipeline *)

Section PromptFacts.

Lemma join_contains (sep p : string) (parts : list string) :
  p ∈ parts -> PyStr.contains p (PyStr.join sep parts) = true.
Proof.
  induction parts as [|x parts IH]; intros Hin; [by apply elem_of_nil in Hin|].
  apply elem_of_cons in Hin as [->|Hin].
  - destruct parts as [|y parts]; simpl; [apply contains_refl|].
    apply contains_append_l, contains_refl.
  - specialize (IH Hin). destruct parts as [|y parts]; [by apply elem_of_nil in Hin|].
    change (PyStr.join sep (x :: y :: parts))
      with (x +:+ sep +:+ PyStr.join sep (y :: parts)).
    by apply contains_append_r, contains_append_r.
Qed.

Lemma format_previous_answers_truthy (answers : list Answer) :
  answers <> [] -> PyStr.truthy (format_previous_answers answers) = true.
Proof.
  destruct answers as [|a answers]; [done|]. intros _.
  unfold format_previous_answers.
  destruct (map _ (a :: answers)) as [|b bs]; reflexivity.
Qed.

Lemma format_previous_answers_block (answers : list Answer) a :
  a ∈ answers -> PyStr.contains (context_block a) (format_previous_answers answers) = true.
Proof.
  intros Hin. destruct answers as [|b answers]; [by apply elem_of_nil in Hin|].
  unfold format_previous_answers. apply join_contains.
  apply elem_of_cons. right.
  change (context_block a ∈ map context_block (b :: answers)).
  apply list_elem_of_fmap. by exists a.
Qed.

Lemma context_block_text a : PyStr.contains (answer_text a) (context_block a) = true.
Proof.
  unfold context_block.
  apply contains_append_r, contains_append_r, contains_append_r,
    contains_append_l, contains_refl.
Qed.

(** What the prompt of a question holds once answers exist. *)
Lemma full_query_contents context (answers : list Answer) q :
  answers <> [] ->
  let prompt := full_query context answers q in
  PyStr.contains context prompt = true
  /\ PyStr.contains (text q) prompt = true
  /\ forall a, a ∈ answers ->
       PyStr.contains (context_block a) prompt = true
       /\ PyStr.contains (answer_text a) prompt = true.
Proof.
  intros Hne prompt. subst prompt. unfold full_query.
  rewrite (format_previous_answers_truthy _ Hne).
  split; [|split].
  - apply contains_append_r, contains_append_r, contains_append_l, contains_refl.
  - do 10 apply contains_append_r. apply contains_append_l, contains_refl.
  - intros a Hin.
    assert (Hb : PyStr.contains (context_block a)
                   ("Kontext:" +:+ PyStr.nl +:+ context +:+ PyStr.nl +:+ PyStr.nl
                    +:+ format_previous_answers answers +:+ PyStr.nl +:+ PyStr.nl
                    +:+ "Aktuelle Frage:" +:+ PyStr.nl +:+ text q +:+ PyStr.nl +:+ PyStr.nl
                    +:+ "Bitte beantworte die Frage basierend auf dem Kontext und den bisherigen Antworten.")
                 = true).
    { do 5 apply contains_append_r. apply contains_append_l.
      by apply format_previous_answers_block. }
    split; [exact Hb|].
    eapply contains_trans; [apply context_block_text | exact Hb].
Qed.

End PromptFacts.

Section PipelineFacts.

Context {W : Type}.
Context (markup_error : string -> option exn).
Context (write_text : string -> string -> W -> result unit).
Context (new_runner : string -> option Z -> bool -> W -> result (@AgentRunner W) * W).
Context (context : string) (verbose debug : bool) (project_id : option Z).
Context (output_path original_content : option string).

Abbreviation question_step :=
  (process_question markup_error write_text new_runner context verbose debug project_id
     output_path original_content).
Abbreviation question_loop questions :=
  (process_loop markup_error write_text new_runner context questions verbose debug project_id
     output_path original_content).

Ltac search :=
  cbv zeta;
  lazymatch goal with
  | |- _ \/ _ => first [left; search | right; search]
  | |- _ /\ _ => split; search
  | |- exists _, _ => eexists; search
  | |- _ => solve [done | eassumption | intros; simplify_eq/=; done | intros; simplify_eq/=; eassumption]
  end.

Ltac finish_step H :=
  destruct output_path as [path|]; [destruct original_content as [[|c s]|]|];
  cbn in H |- *;
  try (match type of H with
       | context [write_text ?p ?d ?w] =>
           let Hw := fresh "Hw" in destruct (write_text p d w) as [[]|ew] eqn:Hw
       end; cbn in H);
  try (match type of H with
       | context [markup_error (preview_banner ?x)] =>
           let Hp := fresh "Hp" in
           destruct (markup_error (preview_banner x)) as [ep|] eqn:Hp
       end; cbn in H);
  injection H as <- <- <-; rewrite ?app_nil_r; search.

Lemma process_question_cases answers q w :
  let run := run_single_agent new_runner (agent q) (full_query context answers q)
               project_id debug w in
  let step := question_step answers q w in
  (verbose = true
   /\ exists e,
        (markup_error (question_banner q) = Some e
         \/ (markup_error (question_banner q) = None
             /\ markup_error (agent_banner q) = Some e))
        /\ step = (Raise e, w, []))
  \/ ((verbose = true ->
       markup_error (question_banner q) = None /\ markup_error (agent_banner q) = None)
      /\ ((exists e e',
             run.1.1 = Raise e /\ markup_error (error_banner q e) = Some e'
             /\ step = (Raise e', run.1.2, run.2))
          \/ exists response,
               (run.1.1 = Ok response
                \/ exists e, run.1.1 = Raise e /\ markup_error (error_banner q e) = None
                             /\ response = placeholder e)
               /\ let answers' := answers ++ [answer_of q response] in
                  let target := write_target output_path original_content in
                  let t := run.2 ++ write_events target answers' in
                  (exists e,
                      (exists path original,
                          target = Some (path, original)
                          /\ write_text path (write_answers_to_markdown original answers')
                               run.1.2 = Raise e)
                      /\ step = (Raise e, run.1.2, t))
                  \/ ((forall path original,
                          target = Some (path, original) ->
                          write_text path (write_answers_to_markdown original answers')
                            run.1.2 = Ok tt)
                      /\ ((verbose = true
                           /\ exists e, markup_error (preview_banner response) = Some e
                                        /\ step = (Raise e, run.1.2, t))
                          \/ ((verbose = true ->
                               markup_error (preview_banner response) = None)
                              /\ step = (Ok answers', run.1.2, t)))))).
Proof.
  intros run step. subst step run.
  destruct (question_step answers q w) as [[r w'] t] eqn:Hstep.
  cbv beta iota zeta delta
    [process_question bind try_except console_print write_file emit call ret raise]
    in Hstep.
  unfold write_target, write_events, answer_of, placeholder.
  destruct verbose.
  - destruct (markup_error (question_banner q)) as [e1|] eqn:Hb1.
    { left. split; [done|]. exists e1. split; [by left | done]. }
    destruct (markup_error (agent_banner q)) as [e2|] eqn:Hb2.
    { left. split; [done|]. exists e2. split; [by right | done]. }
    right. split; [done|]. cbn in Hstep.
    destruct (run_single_agent _ _ _ _ _ _) as [[[answer|e] w1] t1] eqn:Hrun; cbn in Hstep |- *.
    + right. exists answer. split; [by left|]. cbv zeta. finish_step Hstep.
    + destruct (markup_error (error_banner q e)) as [e'|] eqn:Hh; cbn in Hstep.
      * left. exists e, e'. injection Hstep as <- <- <-. by rewrite app_nil_r.
      * right. eexists. split; [right; by exists e|]. cbv zeta.
        rewrite app_nil_r in Hstep. finish_step Hstep.
  - right. split; [done|]. cbn in Hstep.
    destruct (run_single_agent _ _ _ _ _ _) as [[[answer|e] w1] t1] eqn:Hrun; cbn in Hstep |- *.
    + right. exists answer. split; [by left|]. cbv zeta. finish_step Hstep.
    + destruct (markup_error (error_banner q e)) as [e'|] eqn:Hh; cbn in Hstep.
      * left. exists e, e'. injection Hstep as <- <- <-. by rewrite app_nil_r.
      * right. eexists. split; [right; by exists e|]. cbv zeta.
        rewrite app_nil_r in Hstep. finish_step Hstep.
Qed.

(** What a step that returns has done. *)
Lemma process_question_answer answers q w made w1 t :
  question_step answers q w = (Ok made, w1, t) ->
  let run := run_single_agent new_runner (agent q) (full_query context answers q)
               project_id debug w in
  exists response,
    recorded run.1.1 response
    /\ made = answers ++ [answer_of q response]
    /\ w1 = run.1.2
    /\ t = run.2 ++ write_events (write_target output_path original_content) made.
Proof.
  intros Hstep run.
  destruct (process_question_cases answers q w)
    as [(_ & e & _ & H)
       |(_ & [(e & e' & _ & _ & H)
             |(response & Hrec & [(e & _ & H)|(_ & [(_ & e & _ & H)|(_ & H)])])])];
    cbv zeta in *; rewrite Hstep in H; try discriminate.
  injection H as -> -> ->. exists response. repeat split.
  fold run in Hrec. destruct Hrec as [->|(e & -> & _ & ->)]; done.
Qed.

(** The loop is sequential: the later questions are processed from the
    answers and the state the earlier ones leave. *)
Lemma process_loop_app pre post :
  forall answers w,
    question_loop (pre ++ post) answers w
    = match question_loop pre answers w with
      | (Ok made, w1, t1) =>
          let '(r, w2, t2) := question_loop post made w1 in (r, w2, t1 ++ t2)
      | (Raise e, w1, t1) => (Raise e, w1, t1)
      end.
Proof.
  induction pre as [|q pre IH]; intros answers w; simpl.
  - unfold ret. by destruct (question_loop post answers w) as [[r w2] t2].
  - unfold bind. destruct (question_step answers q w) as [[[made|e] w1] t1]; [|done].
    rewrite IH. destruct (question_loop pre made w1) as [[[made'|e] w2] t2]; [|done].
    destruct (question_loop post made' w2) as [[r w3] t3]. by rewrite app_assoc.
Qed.

(** The answers of a loop that returns: those it started with, and one per
    question, in order. *)
Lemma process_loop_answers questions :
  forall answers w all w1 t,
    question_loop questions answers w = (Ok all, w1, t) ->
    exists new, all = answers ++ new /\ Forall2 answers_question new questions.
Proof.
  induction questions as [|q later IH]; intros answers w all w1 t Hloop; simpl in Hloop.
  - injection Hloop as <- <- <-. exists []. by rewrite app_nil_r.
  - unfold bind in Hloop.
    destruct (question_step answers q w) as [[[made|e] w2] t2] eqn:Hstep; [|done].
    destruct (process_question_answer _ _ _ _ _ _ Hstep) as (response & _ & -> & _).
    destruct (question_loop later _ w2) as [[r w3] t3] eqn:Hlater.
    injection Hloop as -> <- <-.
    destruct (IH _ _ _ _ _ Hlater) as (new & -> & Hnew).
    exists (answer_of q response :: new). rewrite <- app_assoc. split; [done|].
    by constructor.
Qed.

(** When the console renders what it is given and the writes succeed, no
    failure of an agent leaves the loop: there is one answer per question,
    in order. *)
Lemma process_loop_isolated questions :
  (forall text, markup_error text = None) ->
  (forall path text w, write_text path text w = Ok tt) ->
  forall answers w,
  exists new w1 t,
    question_loop questions answers w = (Ok (answers ++ new), w1, t)
    /\ Forall2 answers_question new questions.
Proof.
  intros Hconsole Hdisk.
  induction questions as [|q later IH]; intros answers w; simpl.
  - exists [], w, []. by rewrite app_nil_r.
  - unfold bind.
    destruct (process_question_cases answers q w)
      as [(_ & e & [H|[_ H]] & _)
         |(_ & [(e & e' & _ & H & _)
               |(response & _ & [(e & (path & original & _ & H) & _)
                                |(_ & [(_ & e & H & _)|(_ & H)])])])];
      cbv zeta in *; rewrite ?Hconsole, ?Hdisk in H; try discriminate.
    rewrite H.
    destruct (IH (answers ++ [answer_of q response]) (run_single_agent new_runner (agent q)
                (full_query context answers q) project_id debug w).1.2)
      as (new & w1 & t & -> & Hnew).
    exists (answer_of q response :: new), w1. eexists.
    rewrite <- app_assoc. split; [done|]. by constructor.
Qed.

End PipelineFacts.

Section Pipeline_properties.

Context {W : Type}.
Context (markup_error : string -> option exn).
Context (write_text : string -> string -> W -> result unit).
Context (new_runner : string -> option Z -> bool -> W -> result (@AgentRunner W) * W).

(** What the prompt of a question holds. *)
Lemma full_query_holds context (answers : list Answer) q :
  let prompt := full_query context answers q in
  PyStr.contains context prompt = true
  /\ PyStr.contains (text q) prompt = true
  /\ forall a, a ∈ answers ->
       PyStr.contains (context_block a) prompt = true
       /\ PyStr.contains (answer_text a) prompt = true.
Proof.
  destruct answers as [|a0 answers]; [|by apply full_query_contents].
  cbv zeta. unfold full_query.
  change (PyStr.truthy (format_previous_answers [])) with false. cbv iota.
  split; [|split].
  - apply contains_append_r, contains_append_r, contains_append_l, contains_refl.
  - do 7 apply contains_append_r. apply contains_append_l, contains_refl.
  - intros a Hin. by apply elem_of_nil in Hin.
Qed.

(** C9: the prompt of a question is built from the fixed context, the
    answers to the questions before it and its own text, and it is what the
    agent's Conversation Loop receives. After the questions [pre] have been
    answered with [answers], the next question [q] is run with the prompt
    [full_query context answers q]: the events of the whole pipeline are
    those of [pre], then those of this run from the state [pre] left (which
    open with the entry into the agent's loop with that prompt), and the
    answer recorded for [q] is what this run returns, or the placeholder
    for its failure. The prompt contains the context, the text of [q] and,
    for every previous answer, its labeled block and hence its literal
    text. *)
Theorem prompt_carries_previous_answers context verbose debug project_id output_path
    original_content pre q post w answers w1 t1 :
  process_questions markup_error write_text new_runner context pre verbose debug project_id
    output_path original_content w = (Ok answers, w1, t1) ->
  (verbose = true ->
   markup_error (question_banner q) = None /\ markup_error (agent_banner q) = None) ->
  let prompt := full_query context answers q in
  let run := run_single_agent new_runner (agent q) prompt project_id debug w1 in
  let all := process_questions markup_error write_text new_runner context (pre ++ q :: post)
               verbose debug project_id output_path original_content w in
  Forall2 answers_question answers pre
  /\ PyStr.contains context prompt = true
  /\ PyStr.contains (text q) prompt = true
  /\ (forall a, a ∈ answers ->
        PyStr.contains (context_block a) prompt = true
        /\ PyStr.contains (answer_text a) prompt = true)
  /\ (exists t3, all.2 = t1 ++ run.2 ++ t3)
  /\ (forall runner wr,
        new_runner (agent q) project_id debug w1 = (Ok runner, wr) ->
        exists t2, run.2 = EvRun (agent_name runner) prompt :: t2)
  /\ (forall result,
        all.1.1 = Ok result ->
        exists response,
          recorded run.1.1 response
          /\ result !! length pre = Some (answer_of q response)).
Proof.
  intros Hpre Hbanners prompt run all.
  unfold process_questions in Hpre.
  destruct (process_loop_answers _ _ _ _ _ _ _ _ _ _ _ _ _ _ _ Hpre) as (new & Hnew & Hans).
  simpl in Hnew. subst new.
  assert (Hlen : length answers = length pre) by by eapply Forall2_length.
  split; [exact Hans|].
  destruct (full_query_holds context answers q) as (Hc & Hq & Hblocks).
  split; [exact Hc|]. split; [exact Hq|]. split; [exact Hblocks|].
  assert (Hrun : forall runner wr,
             new_runner (agent q) project_id debug w1 = (Ok runner, wr) ->
             exists t2, run.2 = EvRun (agent_name runner) prompt :: t2).
  { intros runner wr Hnewr. subst run. unfold run_single_agent, bind, call.
    rewrite Hnewr. unfold run, run_history, bind, emit.
    destruct (agent_loop _ _ _ _ _ _) as [[[r|e] w2] t2]; simpl; eauto. }
  subst all. unfold process_questions.
  rewrite process_loop_app, Hpre. cbn [process_loop]. unfold bind.
  destruct (process_question_cases markup_error write_text new_runner context verbose debug
              project_id output_path original_content answers q w1)
    as [(Hv & e & Hb & _)
       |(_ & [(e & e' & _ & _ & H)
             |(response & Hrec & [(e & _ & H)|(_ & [(_ & e & _ & H)|(_ & H)])])])];
    cbv zeta in *.
  { destruct (Hbanners Hv) as [H1 H2].
    destruct Hb as [Hb|[_ Hb]]; congruence. }
  all: fold prompt in H; fold run in H; rewrite H.
  all: cbn [fst snd].
  all: try (split; [first [by exists []; rewrite app_nil_r | by eexists]|];
            split; [exact Hrun | by intros result]).
  destruct (process_loop _ _ _ _ post _ _ _ _ _ _ _) as [[r w3] t3] eqn:Hpost.
  cbn [fst snd].
  split; [eexists; rewrite <- app_assoc; reflexivity|]. split; [exact Hrun|].
  intros result ->.
  destruct (process_loop_answers _ _ _ _ _ _ _ _ _ _ _ _ _ _ _ Hpost) as (new & -> & _).
  exists response. split.
  - fold prompt in Hrec. fold run in Hrec.
    destruct Hrec as [->|(e & -> & _ & ->)]; done.
  - rewrite <- app_assoc, lookup_app_r by lia.
    by rewrite Hlen, Nat.sub_diag.
Qed.

End Pipeline_properties.

(** ** Answer insertion *)

Section AnswerInsertion.

Implicit Types (lines : list string) (answers : list Answer).

(** The dict comprehension keeps, for each key, the last answer of the list
    that has it. *)
Lemma answer_map_of_lookup answers k :
  answer_map_of answers !! k = last (filter (fun a => key_of a = k) answers).
Proof.
  unfold answer_map_of.
  assert (G : forall (m : gmap string Answer),
             foldl (fun m a => <[PyStr.strip (question_line a) := a]> m) m answers !! k
             = match last (filter (fun a => key_of a = k) answers) with
               | Some a => Some a
               | None => m !! k
               end).
  { induction answers as [|a answers IH]; intros m; [done|].
    simpl. rewrite IH. rewrite filter_cons.
    destruct (decide (key_of a = k)) as [Hk|Hk]; unfold key_of in Hk.
    - destruct (filter _ answers) as [|b bs] eqn:Hf; simpl.
      + by rewrite <- Hk, lookup_insert_eq.
      + change (last (a :: b :: bs)) with (last (b :: bs)).
        by destruct (last (b :: bs)) eqn:Hl;
          [| apply last_None in Hl].
    - destruct (last (filter _ answers)); [done|].
      by rewrite lookup_insert_ne. }
  rewrite G, lookup_empty. by destruct (last _).
Qed.

Lemma skip_old_answer_stop line post :
  is_question_line line = true ->
  forall lines, skip_old_answer (lines ++ line :: post) = skip_old_answer lines ++ line :: post.
Proof.
  intros Hq lines. induction lines as [|x rest IH]; simpl.
  - rewrite Hq. by destruct (_ || _).
  - destruct (_ || _); [|done]. destruct (is_question_line x); [done | exact IH].
Qed.

Lemma skip_existing_block_stop line post :
  is_question_line line = true ->
  forall lines,
    skip_existing_block (lines ++ line :: post) = skip_existing_block lines ++ line :: post.
Proof.
  intros Hq lines.
  remember (length lines) as n eqn:Hn. revert lines Hn.
  induction n as [n IH] using lt_wf_ind. intros lines Hn.
  destruct lines as [|x rest]; simpl.
  - simp skip_existing_block. by rewrite Hq.
  - simp skip_existing_block.
    destruct (is_question_line x); [done|].
    destruct (_ || _).
    + rewrite (skip_old_answer_stop _ _ Hq).
      apply (IH (length (skip_old_answer rest))); [|done].
      pose proof (skip_old_answer_length rest). simpl in Hn. lia.
    + destruct (negb _); [|done].
      apply (IH (length rest)); [|done]. simpl in Hn. lia.
Qed.

(** The insertion loop meets every question line at its own index: what
    comes before such a line is rendered independently of it. *)
Lemma insert_answers_stop answer_map line post :
  is_question_line line = true ->
  forall lines,
    insert_answers answer_map (lines ++ line :: post)
    = insert_answers answer_map lines ++ insert_answers answer_map (line :: post).
Proof.
  intros Hq lines.
  set (tail := insert_answers answer_map (line :: post)).
  remember (length lines) as n eqn:Hn. revert lines Hn.
  induction n as [n IH] using lt_wf_ind. intros lines Hn.
  destruct lines as [|x rest]; simpl.
  - by rewrite insert_answers_equation_1.
  - simp insert_answers.
    destruct (answer_map !! PyStr.strip x) as [a|]; simpl.
    + do 4 f_equal. rewrite (skip_existing_block_stop _ _ Hq).
      apply (IH (length (skip_existing_block rest))); [|done].
      pose proof (skip_existing_block_length rest). simpl in Hn. lia.
    + f_equal. apply (IH (length rest)); [|done]. simpl in Hn. lia.
Qed.

Lemma insert_answers_at answer_map line after a :
  answer_map !! PyStr.strip line = Some a ->
  insert_answers answer_map (line :: after)
  = ["### " +:+ question_text a; ""; answer_text a; ""]
    ++ insert_answers answer_map (skip_existing_block after).
Proof. intros H. simp insert_answers. by rewrite H. Qed.

(** Dropping an answer that a later one of the same key overrides leaves
    the dict as it is. *)
Lemma answer_map_of_overridden (pre mid post : list Answer) earlier later :
  key_of earlier = key_of later ->
  answer_map_of (pre ++ earlier :: mid ++ later :: post)
  = answer_map_of (pre ++ mid ++ later :: post).
Proof.
  intros Hk. apply map_eq. intros k. rewrite !answer_map_of_lookup.
  rewrite !filter_app, !filter_cons, !filter_app, !filter_cons.
  destruct (decide (key_of earlier = k)) as [He|He]; [|done].
  rewrite decide_True by congruence.
  rewrite !last_app, !last_cons, !last_app, !last_cons.
  by destruct (last (filter _ post)).
Qed.

Lemma skip_old_answer_suffix lines : skip_old_answer lines `suffix_of` lines.
Proof.
  induction lines as [|line rest IH]; simpl; [done|].
  destruct (_ || _); [|done]. destruct (is_question_line line); [done|].
  by apply suffix_cons_r.
Qed.

Lemma skip_existing_block_suffix lines : skip_existing_block lines `suffix_of` lines.
Proof.
  funelim (skip_existing_block lines); simp skip_existing_block; [done|].
  destruct (is_question_line next_line); [done|].
  destruct (_ || _).
  - apply suffix_cons_r. etrans; [apply H | apply skip_old_answer_suffix].
  - destruct (negb _); [|done]. by apply suffix_cons_r, H0.
Qed.

(** Lines that carry no answer's key are copied, and the loop goes on
    behind them. *)
Lemma insert_answers_copied answer_map before :
  Forall (fun l => answer_map !! PyStr.strip l = None) before ->
  forall rest,
    insert_answers answer_map (before ++ rest) = before ++ insert_answers answer_map rest.
Proof.
  induction 1 as [|l before Hl _ IH]; intros rest; [done|].
  simpl. simp insert_answers. rewrite Hl. simpl. by rewrite IH.
Qed.

(** Every line of the output is a line of the document, an empty line, or
    the header or the text of an answer the dict holds. *)
Lemma insert_answers_lines answer_map lines :
  Forall (fun l => l ∈ lines \/ l = ""
                   \/ exists k a, answer_map !! k = Some a
                                  /\ (l = "### " +:+ question_text a \/ l = answer_text a))
         (insert_answers answer_map lines).
Proof.
  remember (length lines) as n eqn:Hn. revert lines Hn.
  induction n as [n IH] using lt_wf_ind. intros lines Hn.
  destruct lines as [|x rest]; simp insert_answers; [constructor|].
  assert (Hsub : forall l tail, l ∈ tail -> (length tail <= length rest)%nat ->
                                tail `suffix_of` rest -> l ∈ x :: rest).
  { intros l tail Hin _ [front ->]. apply list_elem_of_further, elem_of_app. by right. }
  destruct (answer_map !! PyStr.strip x) as [a|] eqn:Hx; simpl.
  - apply Forall_cons. split.
    { right. right. exists (PyStr.strip x), a. split; [done | by left]. }
    apply Forall_cons. split; [by right; left|].
    apply Forall_cons. split.
    { right. right. exists (PyStr.strip x), a. split; [done | by right]. }
    apply Forall_cons. split; [by right; left|].
    pose proof (skip_existing_block_length rest) as Hlen.
    pose proof (skip_existing_block_suffix rest) as Hsuf.
    eapply Forall_impl;
      [apply (IH (length (skip_existing_block rest))); [simpl in Hn; lia | done]|].
    intros l [Hin|H]; [|by right]. left. by eapply Hsub.
  - constructor; [left; apply list_elem_of_here|].
    eapply Forall_impl; [apply (IH (length rest)); [simpl in Hn; lia | done]|].
    intros l [Hin|H]; [|by right]. left. by apply list_elem_of_further.
Qed.

(** What the dict holds under a key is the last answer of the list with
    that key. *)
Lemma answer_map_of_holds answers k a :
  answer_map_of answers !! k = Some a ->
  a ∈ answers /\ key_of a = k /\ answer_map_of answers !! key_of a = Some a.
Proof.
  intros H. pose proof H as Hl. rewrite answer_map_of_lookup in Hl.
  apply last_Some in Hl as (front & Hl).
  assert (Ha : a ∈ filter (fun a => key_of a = k) answers).
  { rewrite Hl. apply elem_of_app. right. apply list_elem_of_here. }
  apply list_elem_of_filter in Ha as [Hk Ha]. by rewrite Hk.
Qed.

(** C10, as the code has it: answers are matched to lines by the stripped
    text of the line, and of two answers with the same question line only
    the later one, being the last with that line, is used. In the written
    document it stands, as header, blank line, answer text and blank line,
    at every occurrence of the line that is a numbered question line (as
    [QUESTION_PATTERN] has it), and at the first line of the document that
    carries an answer; every line of the written document is a line of the
    original, an empty line, or the header or text of an answer that is the
    last of the list for its line, which the earlier answer is not; and the
    document is the one the list without the earlier answer gives. *)
Theorem later_duplicate_wins original_content answers pre earlier mid later post :
  answers = pre ++ earlier :: mid ++ later :: post ->
  PyStr.strip (question_line earlier) = PyStr.strip (question_line later) ->
  Forall (fun a => PyStr.strip (question_line a) <> PyStr.strip (question_line later)) post ->
  let lines := PyStr.split_lines original_content in
  let answer_map := answer_map_of answers in
  let inserted := ["### " +:+ question_text later; ""; answer_text later; ""] in
  (forall before line after,
      lines = before ++ line :: after ->
      PyStr.strip line = PyStr.strip (question_line later) ->
      is_question_line line = true ->
      write_answers_to_markdown original_content answers
      = PyStr.join PyStr.nl
          (insert_answers answer_map before ++ inserted
           ++ insert_answers answer_map (skip_existing_block after)))
  /\ (forall before line after,
        lines = before ++ line :: after ->
        PyStr.strip line = PyStr.strip (question_line later) ->
        Forall (fun l => answer_map !! PyStr.strip l = None) before ->
        write_answers_to_markdown original_content answers
        = PyStr.join PyStr.nl
            (before ++ inserted ++ insert_answers answer_map (skip_existing_block after)))
  /\ (exists out,
        write_answers_to_markdown original_content answers = PyStr.join PyStr.nl out
        /\ Forall (fun l => l ∈ lines \/ l = ""
                            \/ exists a, a ∈ answers
                                         /\ answer_map !! key_of a = Some a
                                         /\ (l = "### " +:+ question_text a
                                             \/ l = answer_text a)) out)
  /\ answer_map !! key_of earlier = Some later
  /\ write_answers_to_markdown original_content answers
     = write_answers_to_markdown original_content (pre ++ mid ++ later :: post).
Proof.
  intros -> Hkey Hlast lines answer_map inserted.
  assert (Hmap : answer_map !! PyStr.strip (question_line later) = Some later).
  { subst answer_map. rewrite answer_map_of_lookup.
    rewrite filter_app, filter_cons, filter_app, filter_cons.
    rewrite (decide_True (P := key_of later = _)) by done.
    assert (Hpost : filter (fun a => key_of a = PyStr.strip (question_line later)) post = []).
    { clear -Hlast. induction Hlast as [|a post Ha _ IH]; [done|].
      rewrite filter_cons, decide_False by done. exact IH. }
    rewrite Hpost, (decide_True (P := key_of earlier = _)) by done.
    by rewrite last_app, last_cons, last_app. }
  split; [|split; [|split; [|split]]].
  - intros before line after Hsplit Hline Hql.
    unfold write_answers_to_markdown. fold lines. fold answer_map. f_equal.
    rewrite Hsplit, (insert_answers_stop _ _ _ Hql).
    f_equal. apply insert_answers_at. by rewrite Hline.
  - intros before line after Hsplit Hline Hbefore.
    unfold write_answers_to_markdown. fold lines. fold answer_map. f_equal.
    rewrite Hsplit, (insert_answers_copied _ _ Hbefore).
    f_equal. apply insert_answers_at. by rewrite Hline.
  - exists (insert_answers answer_map lines). split; [done|].
    eapply Forall_impl; [apply insert_answers_lines|].
    intros l [H|[H|(k & a & Hk & H)]]; [by left | by right; left |].
    right. right. exists a.
    by destruct (answer_map_of_holds _ _ _ Hk) as (Ha & _ & Hheld).
  - unfold key_of. by rewrite Hkey.
  - unfold write_answers_to_markdown. subst answer_map.
    by rewrite answer_map_of_overridden.
Qed.

End AnswerInsertion.

(** * The properties at the stub collaborators *)

Lemma retry_backoff_schedule_witness :
  _invoke_with_retry Stub.flaky_runner [] MAX_RETRIES 0%nat
  = (Ok (mkAIMessage "done" []), 3%nat,
     [EvRequest []; EvSleep 60; EvRequest []; EvSleep 120; EvRequest []])
  /\ (exists e w1 t,
        _invoke_with_retry Stub.throttled_runner [] MAX_RETRIES 0%nat
        = (Raise (Exception ("Rate limit: Max retries (3) " +:+ u_umlaut
                             +:+ "berschritten. " +:+ str_exn e)), w1, t)
        /\ sleeps t = [60; 120; 240]
        /\ length (requests t) = 4%nat)
  /\ backoff_from 60 (sleeps (_invoke_with_retry Stub.throttled_runner [] 7 0%nat).2).
Proof.
  split; [|split].
  - apply (proj1 (retry_backoff_schedule Stub.flaky_runner []) 0%nat
             (Exception "Error code: 429 - rate_limit_error") 1%nat
             (Exception "Error code: 429 - rate_limit_error") 2%nat
             (mkAIMessage "done" []) 3%nat); reflexivity.
  - apply (proj1 (proj2 (retry_backoff_schedule Stub.throttled_runner []))).
    intros w. exists (Exception "Error code: 429 - rate_limit_error"), (S w).
    split; reflexivity.
  - apply (proj2 (proj2 (retry_backoff_schedule Stub.throttled_runner []))).
Defined.


Lemma loop_ceiling_witness :
  exists t r,
    run_history Stub.busy_runner "q" 0%nat
    = (Ok (content r, Stub.busy_history "q"), 10%nat, t)
    /\ run Stub.busy_runner "q" 0%nat = (Ok (content r), 10%nat, t)
    /\ assistant_messages (Stub.busy_history "q") = replicate 10 Stub.working
    /\ last (replicate 10 Stub.working) = Some r
    /\ length (requests t) = length (replicate 10 Stub.working)
    /\ sleeps t = []
    /\ (length (replicate 10 Stub.working) <= 10)%nat
    /\ (Forall (fun m => tool_calls m <> []) (replicate 10 Stub.working) ->
        length (replicate 10 Stub.working) = 10%nat /\ tool_calls r <> []).
Proof.
  apply (loop_ceiling Stub.busy_runner "q" 0%nat (replicate 10 Stub.working)
           (Stub.busy_history "q") 10%nat).
  change (range 10) with [0; 1; 2; 3; 4; 5; 6; 7; 8; 9]. cbn [replicate].
  do 10 (eapply run_tools;
         [reflexivity | discriminate
         | eapply results_output;
           [reflexivity | reflexivity
           | eapply results_error;
             [reflexivity | reflexivity
             | eapply results_unknown; [reflexivity | apply results_done]]]
         |]).
  apply run_ceiling.
Defined.

Lemma tool_dispatch_results_witness :
  let response := mkAIMessage "working" Stub.three_calls in
  let tools_by_name := tools_by_name_of (tools Stub.busy_runner) in
  exists results w2 t2,
    dispatch_tool_calls tools_by_name (tool_calls response)
      ([] ++ [AssistantMessage response]) 1%nat
    = (Ok (([] ++ [AssistantMessage response]) ++ results), w2, t2)
    /\ tool_results tools_by_name (tool_calls response) 1%nat results w2
    /\ length results = length (tool_calls response)
    /\ map tool_call_id_of results = map (fun tc => Some (tc_id tc)) (tool_calls response)
    /\ (forall n, tools_by_name !! n = None <-> n ∉ map tool_name (tools Stub.busy_runner))
    /\ agent_loop Stub.busy_runner tools_by_name (0 :: []) [] None 0%nat
       = (let '(r, w3, t3) :=
            agent_loop Stub.busy_runner tools_by_name []
              (([] ++ [AssistantMessage response]) ++ results) (Some response) w2 in
          (r, w3, [EvRequest []] ++ t2 ++ t3)).
Proof.
  apply (tool_dispatch_results Stub.busy_runner 0 [] [] None 0%nat
           (mkAIMessage "working" Stub.three_calls) 1%nat [EvRequest []]);
    [reflexivity | discriminate].
Defined.

Lemma no_tools_one_iteration_witness :
  let seed := [SystemMessage "Du bist ein Projektleiter."; HumanMessage "hi"] in
  let reply := mkAIMessage "hello" [] in
  tool_events (run_history Stub.plain_runner "hi" 0%nat).2 = []
  /\ (exists n, (1 <= n <= 4)%nat
                /\ requests (run_history Stub.plain_runner "hi" 0%nat).2 = replicate n seed)
  /\ run_history Stub.plain_runner "hi" 0%nat
     = (Ok (content reply, seed ++ [AssistantMessage reply]), 1%nat,
        [EvRun "projektleiter" "hi"; EvRequest seed])
  /\ run Stub.plain_runner "hi" 0%nat
     = (Ok (content reply), 1%nat, [EvRun "projektleiter" "hi"; EvRequest seed]).
Proof.
  intros seed reply.
  pose proof (no_tools_one_iteration Stub.plain_runner "hi" 0%nat eq_refl) as H.
  cbv zeta in H.
  destruct (run_history Stub.plain_runner "hi" 0%nat) as [[outcome w1] t].
  destruct H as (Hno & Hrun & H).
  destruct H as (Hreq & _ & Hfirst).
  { intros messages w0 r w2 [= <- _]. reflexivity. }
  destruct (Hfirst reply 1%nat eq_refl) as (-> & -> & ->).
  split; [exact Hno|]. split; [exact Hreq|]. split; [reflexivity | exact Hrun].
Defined.

(** C8 as the specification states it fails: this agent has no tools, and
    its provider signals a rate limit twice before it answers; the one
    iteration of the loop sends three provider requests, not one. *)
Lemma no_tools_repeated_request :
  let seed := [SystemMessage "Du bist ein Research Agent."; HumanMessage "hi"] in
  tools Stub.flaky_runner = []
  /\ run_history Stub.flaky_runner "hi" 0%nat
     = (Ok ("done", seed ++ [AssistantMessage (mkAIMessage "done" [])]), 3%nat,
        [EvRun "research" "hi"; EvRequest seed; EvSleep 60; EvRequest seed;
         EvSleep 120; EvRequest seed])
  /\ length (requests (run_history Stub.flaky_runner "hi" 0%nat).2) = 3%nat
  /\ length (requests (run_history Stub.flaky_runner "hi" 0%nat).2) <> 1%nat.
Proof. repeat split; try reflexivity. vm_compute. discriminate. Qed.

(** The loop decides on the reply alone: were a model to send an
    invocation with nothing bound to it, the invocation would be answered
    as an unknown tool and a second iteration would follow. *)
Example unbound_invocation_dispatched :
  tools Stub.prompted_runner = []
  /\ run_history Stub.prompted_runner "hi" 0%nat
     = (Ok ("done",
            [SystemMessage "Du bist ein Projektleiter."; HumanMessage "hi";
             AssistantMessage (mkAIMessage "" [mkToolCall "translate" ∅ "call_3"]);
             ToolMessage "Unknown tool: translate" "call_3";
             AssistantMessage (mkAIMessage "done" [])]),
        2%nat,
        (run_history Stub.prompted_runner "hi" 0%nat).2)
  /\ tool_events (run_history Stub.prompted_runner "hi" 0%nat).2 = []
  /\ length (requests (run_history Stub.prompted_runner "hi" 0%nat).2) = 2%nat.
Proof. repeat split; vm_compute; reflexivity. Qed.


(** C1 as the specification states it fails: the delegate "research" is
    registered, its Conversation Loop raises, and the supervisor neither
    appends a tool_result for the invocation nor returns: its run raises the
    delegate's failure. *)
Lemma supervisor_aborts_on_delegate_failure :
  let self := Stub.supervisor "research" Stub.registry in
  let tool_call := Stub.delegate_call "research" "find it" "call_1" in
  agent_runners self !! get_or_empty (tc_args tool_call) "agent_name"
  = Some Stub.broken_runner
  /\ (run Stub.broken_runner (get_or_empty (tc_args tool_call) "task") 1%nat).1.1
     = Raise (Exception "connection refused")
  /\ (forall messages,
        ~ exists out w1 t, delegate_one self tool_call messages 1%nat = (Ok out, w1, t))
  /\ (~ exists answer w1 t, orchestrate self "query" 0%nat = (Ok answer, w1, t))
  /\ orchestrate self "query" 0%nat
     = (Raise (Exception "connection refused"), 2%nat,
        [EvRequest [SystemMessage "Du bist der Supervisor."; HumanMessage "query"];
         EvRun "research" "find it";
         EvRequest [SystemMessage "Du bist ein Research Agent."; HumanMessage "find it"]]).
Proof.
  simpl. split; [reflexivity|]. split; [reflexivity|]. split; [|split].
  - intros messages (out & w1 & t & H). vm_compute in H. discriminate.
  - intros (answer & w1 & t & H). vm_compute in H. discriminate.
  - reflexivity.
Qed.

Lemma delegate_failure_propagates_witness :
  let self := Stub.supervisor "research" Stub.registry in
  let tool_call := Stub.delegate_call "research" "find it" "call_1" in
  let messages := [SystemMessage "Du bist der Supervisor."; HumanMessage "query"] in
  let response := mkAIMessage "" [tool_call] in
  let t2 := [EvRun "research" "find it";
             EvRequest [SystemMessage "Du bist ein Research Agent."; HumanMessage "find it"]] in
  delegate_one self tool_call (messages ++ [AssistantMessage response]) 1%nat
  = (Raise (Exception "connection refused"), 2%nat, t2)
  /\ supervisor_loop self (0 :: []) messages None 0%nat
     = (Raise (Exception "connection refused"), 2%nat, EvRequest messages :: [] ++ t2).
Proof.
  apply (delegate_failure_propagates (Stub.supervisor "research" Stub.registry) 0 []
           [SystemMessage "Du bist der Supervisor."; HumanMessage "query"] None 0%nat
           (mkAIMessage "" [Stub.delegate_call "research" "find it" "call_1"]) 1%nat
           [] (Stub.delegate_call "research" "find it" "call_1") []
           _ 1%nat [] Stub.broken_runner); reflexivity.
Defined.

(** C7 at a failing input: the agent of the first of two questions fails
    with a message that holds a closing tag. The handler makes the
    placeholder, but its print of the failure is refused by the console,
    and the refusal leaves [process_questions]: no answer is returned and
    the second question is never run. On a console that renders the
    message, the same failure is isolated: two answers, the first one the
    placeholder. *)
Theorem failure_print_aborts_pipeline :
  let pipeline console :=
    process_questions console Stub.disk Stub.tagging_new_runner "Kontext"
      Stub.two_questions false false None None None 0%nat in
  let first := mkQuestion 1 "research" "A?" 0 "1. @research A?" in
  let second := mkQuestion 2 "architekt" "B?" 1 "2. @arch B?" in
  let prompt := full_query "Kontext" [] first in
  pipeline Stub.strict_console
  = (Raise (Exception "closing tag '[/INST]' at position 46 doesn't match any open tag"),
     1%nat,
     [EvRun "research" prompt;
      EvRequest [SystemMessage "Du bist ein Research Agent."; HumanMessage prompt]])
  /\ (pipeline Stub.lenient_console).1.1
     = Ok [answer_of first "Fehler bei der Verarbeitung: Invalid tag [/INST] in prompt";
           answer_of second "X"].
Proof. split; vm_compute; reflexivity. Qed.

Lemma prompt_carries_previous_answers_witness :
  let first := mkQuestion 1 "research" "A?" 0 "1. A?" in
  let second := mkQuestion 2 "research" "B?" 1 "2. B?" in
  let answer := answer_of first (full_query "C" [] first) in
  let prompt := full_query "C" [answer] second in
  let seed := [SystemMessage "Du bist ein Research Agent."] in
  PyStr.contains "C" prompt = true
  /\ PyStr.contains "B?" prompt = true
  /\ PyStr.contains (answer_text answer) prompt = true
  /\ process_questions Stub.lenient_console Stub.disk Stub.echo_new_runner "C"
       [first; second] true false None None None 0%nat
     = (Ok [answer; answer_of second prompt], 2%nat,
        [EvRun "research" (full_query "C" [] first);
         EvRequest (seed ++ [HumanMessage (full_query "C" [] first)]);
         EvRun "research" prompt;
         EvRequest (seed ++ [HumanMessage prompt])]).
Proof.
  intros first second answer prompt seed.
  destruct (prompt_carries_previous_answers Stub.lenient_console Stub.disk
              Stub.echo_new_runner "C" true false None None None
              [first] second [] 0%nat [answer] 1%nat
              [EvRun "research" (full_query "C" [] first);
               EvRequest (seed ++ [HumanMessage (full_query "C" [] first)])])
    as (_ & Hc & Hq & Hblocks & _); [reflexivity | done |].
  split; [exact Hc|]. split; [exact Hq|].
  split; [apply (Hblocks answer), list_elem_of_here|].
  vm_compute. reflexivity.
Defined.

Lemma later_duplicate_wins_witness :
  let answers := [Stub.first_answer; Stub.second_answer; Stub.third_answer] in
  let answer_map := answer_map_of answers in
  write_answers_to_markdown Stub.document answers
  = PyStr.join PyStr.nl
      (insert_answers answer_map ["Kontext"]
       ++ ["### Q?"; ""; "last"; ""]
       ++ insert_answers answer_map (skip_existing_block [""; "2. R?"; "  1. Q?"]))
  /\ write_answers_to_markdown Stub.document answers
     = PyStr.join PyStr.nl
         (insert_answers answer_map ["Kontext"; "1. Q?"; ""; "2. R?"]
          ++ ["### Q?"; ""; "last"; ""]
          ++ insert_answers answer_map (skip_existing_block []))
  /\ write_answers_to_markdown Stub.document answers
     = PyStr.join PyStr.nl
         (["Kontext"] ++ ["### Q?"; ""; "last"; ""]
          ++ insert_answers answer_map (skip_existing_block [""; "2. R?"; "  1. Q?"]))
  /\ answer_map !! "1. Q?" = Some Stub.third_answer
  /\ write_answers_to_markdown Stub.document answers
     = write_answers_to_markdown Stub.document [Stub.second_answer; Stub.third_answer].
Proof.
  destruct (later_duplicate_wins Stub.document
              [Stub.first_answer; Stub.second_answer; Stub.third_answer]
              [] Stub.first_answer [Stub.second_answer] Stub.third_answer [])
    as (Hevery & Hfirst & _ & Hmap & Hsame); [reflexivity | reflexivity | constructor |].
  split; [|split; [|split; [|split; [exact Hmap | exact Hsame]]]].
  - apply (Hevery ["Kontext"] "1. Q?" [""; "2. R?"; "  1. Q?"]); reflexivity.
  - apply (Hevery ["Kontext"; "1. Q?"; ""; "2. R?"] "  1. Q?" []); reflexivity.
  - apply (Hfirst ["Kontext"] "1. Q?" [""; "2. R?"; "  1. Q?"]); [reflexivity..|].
    by repeat constructor.
Defined.

(** C10 as the specification states it fails: the line "### T" occurs
    twice in this document and is the question line of both answers; the
    later answer is inserted at the first occurrence, and the second
    occurrence, which opens an old answer block under the first, is dropped
    with it instead of being answered. *)
Lemma later_duplicate_dropped :
  PyStr.split_lines Stub.headed_document = ["### T"; "### T"]
  /\ question_line Stub.old_answer = "### T"
  /\ question_line Stub.new_answer = "### T"
  /\ write_answers_to_markdown Stub.headed_document [Stub.old_answer; Stub.new_answer]
     = PyStr.join PyStr.nl ["### T"; ""; "new"; ""].
Proof. repeat split; vm_compute; reflexivity. Qed.

(** The later answer under both occurrences, the earlier answer nowhere. *)
Example duplicate_document_output :
  write_answers_to_markdown Stub.document
    [Stub.first_answer; Stub.second_answer; Stub.third_answer]
  = PyStr.join PyStr.nl
      ["Kontext"; "### Q?"; ""; "last"; ""; "### R?"; ""; "middle"; "";
       "### Q?"; ""; "last"; ""].
Proof. vm_compute. reflexivity. Qed.

(** One result per invocation: an output, a captured error, an unknown
    name. *)
Example dispatch_three_calls :
  dispatch_tool_calls (tools_by_name_of (tools Stub.busy_runner)) Stub.three_calls [] 1%nat
  = (Ok [ToolMessage "3 hits" "call_1";
         ToolMessage "Error executing tool export: disk full" "call_2";
         ToolMessage "Unknown tool: translate" "call_3"], 1%nat,
     [EvTool "search" ∅; EvTool "export" ∅]).
Proof. vm_compute. reflexivity. Qed.

(** Ten tool-bearing replies: the tenth reply's content is the answer. *)
Example busy_run_reaches_ceiling :
  let '(r, w, t) := run Stub.busy_runner "q" 0%nat in
  r = Ok "working" /\ w = 10%nat /\ length (requests t) = 10%nat
  /\ length (tool_events t) = 20%nat /\ sleeps t = [].
Proof. vm_compute. repeat split; reflexivity. Qed.

(** * Further properties of the markdown pipeline *)



Section LinesFacts.

Lemma prefix_cons_cons a s1 b s2 :
  String.prefix (String a s1) (String b s2)
  = if ascii_dec a b then String.prefix s1 s2 else false.
Proof. reflexivity. Qed.

Lemma split_lines_nonempty s : PyStr.split_lines s <> [].
Proof.
  destruct s as [|c r]; simpl; [done|].
  destruct (Ascii.eqb c "010"); [done|]. by destruct (PyStr.split_lines r).
Qed.

Lemma join_cons2 sep p q ps :
  PyStr.join sep (p :: q :: ps) = p +:+ sep +:+ PyStr.join sep (q :: ps).
Proof. reflexivity. Qed.

(** ['\n'.join(s.split('\n')) == s] *)
Lemma join_split_lines s : PyStr.join PyStr.nl (PyStr.split_lines s) = s.
Proof.
  induction s as [|c r IH]; [done|]. simpl.
  destruct (Ascii.eqb_spec c "010") as [->|Hc].
  - pose proof (split_lines_nonempty r) as Hne.
    destruct (PyStr.split_lines r) as [|l ls]; [done|].
    rewrite join_cons2, IH. reflexivity.
  - pose proof (split_lines_nonempty r) as Hne.
    destruct (PyStr.split_lines r) as [|l ls]; [done|].
    destruct ls as [|l2 ls].
    + simpl in *. by rewrite IH.
    + rewrite join_cons2 in *. rewrite append_cons. by rewrite IH.
Qed.

(** No piece of [s.split('\n')] holds a newline. *)
Lemma split_lines_no_newline s :
  Forall (fun l => PyStr.contains PyStr.nl l = false) (PyStr.split_lines s).
Proof.
  induction s as [|c r IH]; simpl; [by repeat constructor|].
  destruct (Ascii.eqb_spec c "010") as [->|Hc].
  - constructor; [done | exact IH].
  - assert (Hone : forall l, PyStr.contains PyStr.nl l = false ->
                               PyStr.contains PyStr.nl (String c l) = false).
    { intros l Hl. rewrite contains_cons, Hl, orb_false_r.
      unfold PyStr.nl. rewrite prefix_cons_cons.
      destruct (ascii_dec "010" c) as [E|E]; [by subst c | done]. }
    destruct (PyStr.split_lines r) as [|l ls].
    + constructor; [by apply Hone | constructor].
    + inversion IH as [|? ? Hl Hls]; subst. constructor; [by apply Hone | exact Hls].
Qed.

End LinesFacts.

Section InsertionFacts.

Implicit Types (lines : list string) (answers : list Answer).

Lemma insert_answers_untouched answer_map lines :
  Forall (fun line => answer_map !! PyStr.strip line = None) lines ->
  insert_answers answer_map lines = lines.
Proof.
  induction 1 as [|line rest Hline _ IH]; [by rewrite insert_answers_equation_1|].
  simp insert_answers. rewrite Hline. simpl. by rewrite IH.
Qed.

(** X1: a document none of whose lines is the (stripped) question line of an
    answer comes back unchanged, character for character; so does every
    document when there are no answers. *)
Theorem write_answers_without_match original_content answers :
  (forall line a, line ∈ PyStr.split_lines original_content -> a ∈ answers ->
                  PyStr.strip line <> PyStr.strip (question_line a)) ->
  write_answers_to_markdown original_content answers = original_content
  /\ (forall content, write_answers_to_markdown content [] = content).
Proof.
  intros Hno.
  assert (G : forall content l,
             (forall line a, line ∈ PyStr.split_lines content -> a ∈ l ->
                             PyStr.strip line <> PyStr.strip (question_line a)) ->
             write_answers_to_markdown content l = content).
  { intros content l H. unfold write_answers_to_markdown.
    rewrite insert_answers_untouched; [apply join_split_lines|].
    apply Forall_forall. intros line Hin.
    rewrite answer_map_of_lookup.
    destruct (last _) as [a|] eqn:Hl; [|done].
    apply last_Some in Hl as [front Hl].
    assert (Ha : a ∈ filter (fun a => key_of a = PyStr.strip line) l).
    { rewrite Hl. apply elem_of_app. right. apply list_elem_of_here. }
    apply list_elem_of_filter in Ha as [Hk Ha].
    exfalso. apply (H line a Hin Ha). by rewrite <- Hk. }
  split; [by apply G|].
  intros content. apply G. intros line a _ Ha. by apply elem_of_nil in Ha.
Qed.



Lemma blank_not_question line : blank line = true -> is_question_line line = false.
Proof.
  unfold blank, is_question_line. by destruct (PyStr.truthy (PyStr.strip line)).
Qed.

Lemma skip_existing_block_blanks blanks :
  forall rest,
    Forall (fun l => blank l = true) blanks ->
    skip_existing_block (blanks ++ rest) = skip_existing_block rest.
Proof.
  induction blanks as [|l blanks IH]; intros rest H; [done|].
  inversion H as [|? ? Hl Hb]; subst. simpl.
  rewrite skip_existing_block_equation_2, (blank_not_question _ Hl).
  unfold blank in Hl.
  assert (Hs : PyStr.strip l = "").
  { destruct (PyStr.strip l); [done | discriminate]. }
  rewrite Hs. simpl. by apply IH.
Qed.





Lemma old_answer_header_not_question line :
  old_answer_header line = true -> is_question_line line = false.
Proof.
  unfold old_answer_header, is_question_line, PyStr.startswith. intros H.
  apply orb_true_iff in H as [H|H]; apply prefix_split in H as [post ->];
    apply andb_false_r.
Qed.

Lemma skip_old_answer_body body :
  forall rest,
    Forall (fun l => old_answer_line l = true) body ->
    skip_old_answer (body ++ rest) = skip_old_answer rest.
Proof.
  induction body as [|l body IH]; intros rest H; [done|].
  inversion H as [|? ? Hl Hb]; subst. simpl.
  unfold old_answer_line, blank in Hl.
  apply andb_true_iff in Hl as [Hc Hq]. rewrite Hc.
  apply negb_true_iff in Hq. rewrite Hq. by apply IH.
Qed.

(** X2: an old answer block under an answered question is replaced, not
    kept: the blank lines after the question line, the line that opens the old
    answer ("**Antwort:**..." or "###...") and its blank or indented lines
    are dropped up to the next numbered question (or the end), and the new
    header, blank line, answer text and blank line stand in their place. *)
Theorem old_answer_replaced answer_map line a blanks header body next :
  answer_map !! PyStr.strip line = Some a ->
  Forall (fun l => blank l = true) blanks ->
  old_answer_header header = true ->
  Forall (fun l => old_answer_line l = true) body ->
  (next = [] \/ exists q more, next = q :: more /\ is_question_line q = true) ->
  insert_answers answer_map (line :: blanks ++ header :: body ++ next)
  = ["### " +:+ question_text a; ""; answer_text a; ""]
    ++ insert_answers answer_map next.
Proof.
  intros Ha Hblanks Hheader Hbody Hnext.
  rewrite (insert_answers_at _ _ _ _ Ha). do 2 f_equal.
  rewrite (skip_existing_block_blanks _ _ Hblanks).
  rewrite skip_existing_block_equation_2.
  rewrite (old_answer_header_not_question _ Hheader).
  unfold old_answer_header in Hheader. rewrite Hheader.
  rewrite (skip_old_answer_body _ _ Hbody).
  destruct Hnext as [->|(q & more & -> & Hq)].
  - simpl. by rewrite skip_existing_block_equation_1.
  - assert (Hstop : skip_old_answer (q :: more) = q :: more).
    { simpl. rewrite Hq. by destruct (negb _ || _). }
    by rewrite Hstop, skip_existing_block_equation_2, Hq.
Qed.

End InsertionFacts.

(** ** Question pattern and aliases *)
Section RegexFacts.

Import RegexGroups.

Lemma append_nil_r (a : string) : a +:+ "" = a.
Proof. induction a as [|x a IH]; [done|]. by rewrite append_cons, IH. Qed.

Lemma matched_orelse {A} (a b : option A) : matched (orelse a b) = matched a || matched b.
Proof. by destruct a. Qed.

Section Agreement.

Context {R : Type}.
Variables (cls : ascii -> bool) (k : string -> string -> option R) (kb : string -> bool).
Hypothesis k_kb : forall taken r, matched (k taken r) = kb r.

Lemma many_matched s : forall taken, matched (many cls k taken s) = Regex.star cls kb s.
Proof.
  induction s as [|c r IH]; intros taken; simpl; [apply k_kb|].
  destruct (cls c); simpl; [|apply k_kb].
  specialize (IH (taken +:+ String c "")).
  destruct (many cls k (taken +:+ String c "") r); simpl in *.
  - by rewrite <- IH.
  - rewrite <- IH. apply k_kb.
Qed.

Lemma many1_matched s : matched (many1 cls k s) = Regex.plus cls kb s.
Proof.
  destruct s as [|c r]; simpl; [done|].
  destruct (cls c); [apply many_matched | done].
Qed.

End Agreement.

Lemma lit_matched {R} a (k : string -> option R) kb s :
  (forall r, matched (k r) = kb r) -> matched (lit a k s) = Regex.lit a kb s.
Proof.
  intros H. destruct s as [|c r]; simpl; [done|].
  destruct (Ascii.eqb a c); [apply H | done].
Qed.

(** The match that yields the groups exists exactly when the boolean matcher
    accepts. *)
Lemma question_pattern_matched s :
  matched (RegexGroups.QUESTION_PATTERN s) = Regex.QUESTION_PATTERN s.
Proof.
  unfold RegexGroups.QUESTION_PATTERN, Regex.QUESTION_PATTERN.
  apply many1_matched. intros g1 s1.
  apply lit_matched. intros s2.
  apply many1_matched. intros ws s3.
  unfold Regex.opt. rewrite matched_orelse. f_equal.
  - apply lit_matched. intros s4. apply many1_matched. intros g2 s5.
    apply many1_matched. intros ws2 s6. apply many1_matched. intros g3 s7.
    by destruct (Regex.eol s7).
  - apply many1_matched. intros g3 s7. by destruct (Regex.eol s7).
Qed.

(** X3: the two readings of [QUESTION_PATTERN] agree: the match that yields
    the groups exists exactly when the pattern matches as a truth value. So
    the lines the writer takes for question lines are the lines, stripped,
    for which the parser finds groups. *)
Theorem QUESTION_PATTERN_agree :
  (forall s, matched (RegexGroups.QUESTION_PATTERN s) = Regex.QUESTION_PATTERN s)
  /\ (forall line,
        is_question_line line = true
        <-> exists g1 g2 g3,
              RegexGroups.QUESTION_PATTERN (PyStr.strip line) = Some (g1, g2, g3)).
Proof.
  split; [exact question_pattern_matched|].
  intros line. unfold is_question_line.
  rewrite <- question_pattern_matched. split.
  - intros H. apply andb_true_iff in H as [_ H].
    destruct (RegexGroups.QUESTION_PATTERN (PyStr.strip line)) as [[[g1 g2] g3]|];
      [by exists g1, g2, g3 | done].
  - intros (g1 & g2 & g3 & H). rewrite H.
    destruct (PyStr.strip line); [discriminate H | done].
Qed.

Lemma many_split {R} cls (k : string -> string -> option R) s :
  forall taken x,
    many cls k taken s = Some x ->
    exists more rest,
      s = more +:+ rest /\ all_chars cls more = true
      /\ k (taken +:+ more) rest = Some x.
Proof.
  induction s as [|c r IH]; intros taken x H; simpl in H.
  - exists "", "". rewrite (append_nil_r taken). by repeat split.
  - destruct (cls c) eqn:Hc.
    + destruct (many cls k (taken +:+ String c "") r) as [y|] eqn:Hm.
      * inversion H; subst y.
        destruct (IH _ _ Hm) as (more & rest & -> & Hall & Hk).
        exists (String c more), rest. rewrite append_cons. simpl. rewrite Hc, Hall.
        rewrite append_assoc in Hk. by rewrite append_cons in Hk.
      * exists "", (String c r). rewrite (append_nil_r taken). by repeat split.
    + exists "", (String c r). rewrite (append_nil_r taken). by repeat split.
Qed.

Lemma many1_split {R} cls (k : string -> string -> option R) s x :
  many1 cls k s = Some x ->
  exists g rest,
    s = g +:+ rest /\ g <> "" /\ all_chars cls g = true /\ k g rest = Some x.
Proof.
  destruct s as [|c r]; simpl; [done|].
  destruct (cls c) eqn:Hc; [|done]. intros H.
  destruct (many_split _ _ _ _ _ H) as (more & rest & -> & Hall & Hk).
  exists (String c more), rest. rewrite append_cons. simpl. by rewrite Hc, Hall.
Qed.

Lemma lit_split {R} a (k : string -> option R) s x :
  lit a k s = Some x -> exists rest, s = String a rest /\ k rest = Some x.
Proof.
  destruct s as [|c r]; simpl; [done|].
  destruct (Ascii.eqb_spec a c) as [->|]; [|done]. intros H. by exists r.
Qed.

(** The number of a match is made of digits, and a mention is not empty. *)
Lemma question_pattern_number_mention s g1 g2 g3 :
  RegexGroups.QUESTION_PATTERN s = Some (g1, g2, g3) ->
  all_chars PyStr.isdecimal g1 = true /\ (forall m, g2 = Some m -> m <> "").
Proof.
  unfold RegexGroups.QUESTION_PATTERN. intros H.
  apply many1_split in H as (d & s1 & -> & _ & Hdall & H).
  apply lit_split in H as (s2 & -> & H).
  apply many1_split in H as (ws & s3 & -> & _ & _ & H).
  assert (Htext : forall m r,
             many1 Regex.dot
               (fun g3' s5 => if Regex.eol s5 then Some (d, m, g3') else None) r
             = Some (g1, g2, g3) -> d = g1 /\ m = g2).
  { intros m r Hr. apply many1_split in Hr as (t & rest & -> & _ & _ & Hr).
    destruct (Regex.eol rest); [|done]. by inversion Hr. }
  unfold orelse in H.
  destruct (lit "@" _ s3) as [y|] eqn:Hgroup.
  - inversion H; subst y. clear H.
    apply lit_split in Hgroup as (s4 & -> & H).
    apply many1_split in H as (m & s5 & -> & Hm & _ & H).
    apply many1_split in H as (ws2 & s6 & -> & _ & _ & H).
    apply Htext in H as [-> <-]. split; [done|]. by intros m' [= <-].
  - apply Htext in H as [-> <-]. by split.
Qed.

(** X4: the groups of a match reassemble the line: digits, a dot, whitespace,
    the mention with its "@" and whitespace if there is one, the text, and
    nothing more on the line. The number is a non-empty run of decimal
    digits, the mention a non-empty run of word characters, the text
    non-empty. *)
Theorem QUESTION_PATTERN_groups s g1 g2 g3 :
  RegexGroups.QUESTION_PATTERN s = Some (g1, g2, g3) ->
  exists ws mention_part rest,
    s = g1 +:+ "." +:+ ws +:+ mention_part +:+ g3 +:+ rest
    /\ g1 <> "" /\ all_chars PyStr.isdecimal g1 = true
    /\ ws <> "" /\ all_chars PyStr.isspace ws = true
    /\ g3 <> "" /\ all_chars Regex.dot g3 = true
    /\ Regex.eol rest = true
    /\ match g2 with
       | None => mention_part = ""
       | Some m =>
           m <> "" /\ all_chars PyStr.isword m = true
           /\ exists ws2, ws2 <> "" /\ all_chars PyStr.isspace ws2 = true
                          /\ mention_part = "@" +:+ m +:+ ws2
       end.
Proof.
  unfold RegexGroups.QUESTION_PATTERN. intros H.
  apply many1_split in H as (d & s1 & -> & Hd & Hdall & H).
  apply lit_split in H as (s2 & -> & H).
  apply many1_split in H as (ws & s3 & -> & Hws & Hwsall & H).
  assert (Htext : forall m r,
             many1 Regex.dot
               (fun g3' s5 => if Regex.eol s5 then Some (d, m, g3') else None) r
             = Some (g1, g2, g3) ->
             exists rest, r = g3 +:+ rest /\ d = g1 /\ m = g2 /\ g3 <> ""
                          /\ all_chars Regex.dot g3 = true /\ Regex.eol rest = true).
  { intros m r Hr. apply many1_split in Hr as (t & rest & -> & Ht & Htall & Hr).
    destruct (Regex.eol rest) eqn:He; [|done]. inversion Hr; subst. by exists rest. }
  unfold orelse in H.
  destruct (lit "@" _ s3) as [y|] eqn:Hgroup.
  - inversion H; subst y. clear H.
    apply lit_split in Hgroup as (s4 & -> & H).
    apply many1_split in H as (m & s5 & -> & Hm & Hmall & H).
    apply many1_split in H as (ws2 & s6 & -> & Hws2 & Hws2all & H).
    apply Htext in H as (rest & -> & -> & <- & Hg3 & Hg3all & He).
    exists ws, ("@" +:+ m +:+ ws2), rest.
    repeat split; try done.
    + rewrite !append_assoc. reflexivity.
    + exists ws2. by repeat split.
  - apply Htext in H as (rest & -> & -> & <- & Hg3 & Hg3all & He).
    exists ws, "", rest. by repeat split.
Qed.


End RegexFacts.

Section AliasFacts.

Lemma lower_char_idem c : PyStr.lower_char (PyStr.lower_char c) = PyStr.lower_char c.
Proof. destruct c as [[] [] [] [] [] [] [] []]; reflexivity. Qed.

Lemma lower_idem s : PyStr.lower (PyStr.lower s) = PyStr.lower s.
Proof. induction s as [|c r IH]; simpl; [done|]. by rewrite lower_char_idem, IH. Qed.

Lemma lower_truthy s : PyStr.truthy (PyStr.lower s) = PyStr.truthy s.
Proof. by destruct s. Qed.



Lemma find_alias_canonical m a :
  find_alias m AGENT_ALIASES = Some a -> a ∈ canonical_agents.
Proof.
  unfold AGENT_ALIASES, canonical_agents. cbn [find_alias].
  repeat (destruct (existsb _ _); [intros [= <-]; set_solver|]). done.
Qed.

Lemma resolve_agent_alias_in mention :
  resolve_agent_alias mention ∈ canonical_agents.
Proof.
  destruct mention as [m|]; unfold resolve_agent_alias; [|set_solver].
  destruct (negb _); [set_solver|].
  destruct (find_alias _ _) eqn:Hf; [by eapply find_alias_canonical | set_solver].
Qed.

(** X5: alias resolution always yields one of the three agent names; it does
    not depend on letter case; an absent, empty or unknown mention yields
    "research"; and the three names resolve to themselves, so resolving twice
    changes nothing. *)
Theorem resolve_agent_alias_canonical mention :
  resolve_agent_alias mention ∈ canonical_agents
  /\ (forall m m', PyStr.lower m = PyStr.lower m' ->
                   resolve_agent_alias (Some m) = resolve_agent_alias (Some m'))
  /\ resolve_agent_alias None = "research"
  /\ resolve_agent_alias (Some "") = "research"
  /\ (forall m, find_alias (PyStr.lower m) AGENT_ALIASES = None ->
                resolve_agent_alias (Some m) = "research")
  /\ resolve_agent_alias (Some (resolve_agent_alias mention)) = resolve_agent_alias mention.
Proof.
  pose proof resolve_agent_alias_in as Hcan.
  split; [apply Hcan|]. split; [|split; [done|split; [done|split]]].
  - intros m m' Hl. unfold resolve_agent_alias.
    rewrite <- (lower_truthy m), <- (lower_truthy m'), Hl. reflexivity.
  - intros m Hf. unfold resolve_agent_alias. rewrite Hf. by destruct (negb _).
  - specialize (Hcan mention). unfold canonical_agents in Hcan.
    repeat (apply elem_of_cons in Hcan as [->|Hcan]; [reflexivity|]).
    by apply elem_of_nil in Hcan.
Qed.

End AliasFacts.

(** ** Parsing the questions *)

Section ParseFacts.

Implicit Types (lines : list string) (questions : list Question).

(** The loop collects what the lines yield, and moves the end of the context
    to the first question found when there is no "Fragen" section. *)
Lemma parse_loop_questions_from section lines :
  forall i questions context_end_index,
    parse_loop section i lines questions context_end_index
    = (questions ++ questions_from section i lines,
       if section then context_end_index
       else match questions, questions_from section i lines with
            | [], q :: _ => Z.to_nat (line_index q)
            | _, _ => context_end_index
            end).
Proof.
  induction lines as [|line later IH]; intros i questions cei; simpl.
  - rewrite app_nil_r. by destruct section, questions.
  - unfold question_of.
    destruct (RegexGroups.QUESTION_PATTERN (PyStr.strip line)) as [[[g1 g2] g3]|].
    + destruct (negb section && _ && _) eqn:Hskip.
      * apply IH.
      * rewrite IH, <- app_assoc. simpl. f_equal.
        destruct section; [done|]. simpl.
        destruct questions as [|q0 qs0]; simpl.
        -- by rewrite Nat2Z.id.
        -- done.
    + apply IH.
Qed.

Lemma int_of_digits_nonneg g :
  all_chars PyStr.isdecimal g = true -> 0 <= PyMore.int_of_digits g.
Proof.
  unfold PyMore.int_of_digits.
  assert (G : forall l acc,
             forallb PyStr.isdecimal l = true -> 0 <= acc ->
             0 <= fold_left (fun acc c => 10 * acc + (Z.of_nat (nat_of_ascii c) - 48)) l acc).
  { induction l as [|c l IH]; intros acc Hall Hacc; simpl; [done|].
    simpl in Hall. apply andb_true_iff in Hall as [Hc Hl].
    apply IH; [done|]. unfold PyStr.isdecimal in Hc.
    apply andb_true_iff in Hc as [H1 H2]. apply Nat.leb_le in H1. lia. }
  intros Hall. apply G; [|done].
  clear G. induction g as [|c g IH]; simpl in *; [done|].
  apply andb_true_iff in Hall as [Hc Hg]. by rewrite Hc, IH.
Qed.

Lemma question_of_Some section i line q :
  question_of section i line = Some q ->
  line_index q = Z.of_nat i /\ original_line q = line
  /\ is_question_line line = true
  /\ agent q ∈ canonical_agents /\ 0 <= number q.
Proof.
  unfold question_of.
  destruct (RegexGroups.QUESTION_PATTERN (PyStr.strip line)) as [[[g1 g2] g3]|] eqn:Hm;
    [|done].
  destruct (negb section && _ && _); [done|]. intros [= <-]. simpl.
  repeat split.
  - unfold is_question_line.
    rewrite <- question_pattern_matched, Hm. simpl.
    destruct (PyStr.strip line); [discriminate Hm | done].
  - apply resolve_agent_alias_in.
  - apply question_pattern_number_mention in Hm as [Hd _].
    by apply int_of_digits_nonneg.
Qed.

Lemma questions_from_elem section lines :
  forall i q,
    q ∈ questions_from section i lines <->
    exists k line, lines !! k = Some line /\ question_of section (i + k) line = Some q.
Proof.
  induction lines as [|line later IH]; intros i q; simpl.
  - split; [intros H; by apply elem_of_nil in H | intros (k & l & H & _); done].
  - split.
    + intros H. destruct (question_of section i line) as [q0|] eqn:Hq.
      * apply elem_of_cons in H as [->|H].
        -- exists 0%nat, line. by rewrite Nat.add_0_r.
        -- apply IH in H as (k & l & Hk & Hl). exists (S k), l.
           by rewrite Nat.add_succ_r.
      * apply IH in H as (k & l & Hk & Hl). exists (S k), l.
        by rewrite Nat.add_succ_r.
    + intros (k & l & Hk & Hl). destruct k as [|k]; simpl in Hk.
      * inversion Hk; subst l. rewrite Nat.add_0_r in Hl. rewrite Hl.
        apply list_elem_of_here.
      * rewrite Nat.add_succ_r in Hl.
        assert (Hin : q ∈ questions_from section (S i) later).
        { apply IH. by exists k, l. }
        destruct (question_of section i line); [by apply list_elem_of_further | done].
Qed.

Lemma questions_from_sorted section lines :
  forall i,
    StronglySorted Z.lt (map line_index (questions_from section i lines))
    /\ Forall (fun q => Z.of_nat i <= line_index q) (questions_from section i lines).
Proof.
  induction lines as [|line later IH]; intros i; simpl; [by split; constructor|].
  destruct (IH (S i)) as [Hs Hf].
  assert (Hf' : Forall (fun q => Z.of_nat i <= line_index q)
                  (questions_from section (S i) later)).
  { eapply Forall_impl; [exact Hf|]. intros q Hq. simpl in Hq. lia. }
  destruct (question_of section i line) as [q0|] eqn:Hq; [|by split].
  apply question_of_Some in Hq as (Hi & _). split.
  - simpl. constructor; [exact Hs|].
    apply Forall_map. eapply Forall_impl; [exact Hf|]. intros q Hq. simpl in *. lia.
  - constructor; [lia | exact Hf'].
Qed.

Lemma parse_questions content :
  (parse_markdown_questions content).2
  = let lines := PyStr.split_lines content in
    match find_section 0 lines with
    | Some h => questions_from true (S h) (drop (S h) lines)
    | None => questions_from false 0 lines
    end.
Proof.
  unfold parse_markdown_questions. simpl.
  destruct (find_section 0 (PyStr.split_lines content)) as [h|].
  - by rewrite parse_loop_questions_from.
  - rewrite parse_loop_questions_from. by rewrite drop_0.
Qed.

Lemma parsed_question_at content q :
  q ∈ (parse_markdown_questions content).2 ->
  exists j, line_index q = Z.of_nat j
            /\ PyStr.split_lines content !! j = Some (original_line q)
            /\ is_question_line (original_line q) = true
            /\ agent q ∈ canonical_agents
            /\ 0 <= number q.
Proof.
  rewrite parse_questions. cbv zeta. set (lines := PyStr.split_lines content).
  assert (G : forall section i,
             q ∈ questions_from section i (drop i lines) ->
             exists j, line_index q = Z.of_nat j
                       /\ lines !! j = Some (original_line q)
                       /\ is_question_line (original_line q) = true
                       /\ agent q ∈ canonical_agents
                       /\ 0 <= number q).
  { intros section i Hq.
    apply questions_from_elem in Hq as (k & line & Hk & Hq).
    apply question_of_Some in Hq as (Hi & Hl & Hql & Ha & Hn).
    exists (i + k)%nat. rewrite lookup_drop in Hk. subst line. by repeat split. }
  destruct (find_section 0 lines) as [h|]; [apply G|].
  intros Hq. apply (G false 0%nat). by rewrite drop_0.
Qed.

(** X6: every parsed question stands in the document: its [line_index] is
    the index of its [original_line] among the lines of the content; that
    line is a numbered question line (stripped, it matches
    [QUESTION_PATTERN]); its agent is one of the three agent names and its
    number is not negative; and the questions come in the order of their
    lines, with strictly increasing indices. *)
Theorem parsed_questions_located content :
  let lines := PyStr.split_lines content in
  let questions := (parse_markdown_questions content).2 in
  Forall (fun q =>
            exists j, line_index q = Z.of_nat j
                      /\ lines !! j = Some (original_line q)
                      /\ is_question_line (original_line q) = true
                      /\ agent q ∈ canonical_agents
                      /\ 0 <= number q) questions
  /\ StronglySorted Z.lt (map line_index questions).
Proof.
  intros lines questions. split.
  - apply Forall_forall. intros q Hq. by apply parsed_question_at.
  - subst questions. rewrite parse_questions. cbv zeta.
    destruct (find_section 0 _); apply questions_from_sorted.
Qed.

End ParseFacts.

(** ** Which lines become questions, and where the context ends *)

Section ParseRules.

Implicit Types (lines : list string) (h j : nat).

Lemma find_section_first lines :
  forall i h header,
    lines !! h = Some header ->
    RegexGroups.QUESTIONS_SECTION_PATTERN (PyStr.strip header) = true ->
    (forall k l, (k < h)%nat -> lines !! k = Some l ->
                 RegexGroups.QUESTIONS_SECTION_PATTERN (PyStr.strip l) = false) ->
    find_section i lines = Some (i + h)%nat.
Proof.
  induction lines as [|line later IH]; intros i h header Hh Hm Hbefore; [done|].
  simpl. destruct h as [|h]; simpl in Hh.
  - inversion Hh; subst line. by rewrite Hm, Nat.add_0_r.
  - rewrite (Hbefore 0%nat line); [|lia|done].
    rewrite (IH (S i) h header Hh Hm); [f_equal; lia|].
    intros k l Hk Hl. apply (Hbefore (S k) l); [lia | done].
Qed.

Lemma find_section_none lines :
  forall i,
    (forall l, l ∈ lines -> RegexGroups.QUESTIONS_SECTION_PATTERN (PyStr.strip l) = false) ->
    find_section i lines = None.
Proof.
  induction lines as [|line later IH]; intros i Hall; [done|]. simpl.
  rewrite (Hall line); [|apply list_elem_of_here].
  apply IH. intros l Hl. apply Hall. by apply list_elem_of_further.
Qed.

Lemma questions_from_at section lines start j line :
  lines !! j = Some line ->
  (exists q, q ∈ questions_from section start (drop start lines)
             /\ line_index q = Z.of_nat j)
  <-> (start <= j)%nat /\ exists q, question_of section j line = Some q.
Proof.
  intros Hj. split.
  - intros (q & Hq & Hidx). apply questions_from_elem in Hq as (k & l & Hk & Hq).
    rewrite lookup_drop in Hk.
    pose proof (question_of_Some _ _ _ _ Hq) as (Hi & _).
    assert (j = start + k)%nat as -> by lia.
    rewrite Hj in Hk. inversion Hk; subst l. split; [lia | by exists q].
  - intros (Hle & q & Hq). exists q. split.
    + apply questions_from_elem. exists (j - start)%nat, line.
      rewrite lookup_drop. replace (start + (j - start))%nat with j by lia. done.
    + by apply question_of_Some in Hq as (Hi & _).
Qed.

Lemma question_of_section j line :
  (exists q, question_of true j line = Some q) <-> is_question_line line = true.
Proof.
  split.
  - intros (q & Hq). by apply question_of_Some in Hq as (_ & _ & Hl & _).
  - unfold is_question_line, question_of. intros H.
    apply andb_true_iff in H as [_ H]. rewrite <- question_pattern_matched in H.
    destruct (RegexGroups.QUESTION_PATTERN (PyStr.strip line)) as [[[g1 g2] g3]|];
      [|done].
    simpl. eauto.
Qed.

Lemma question_of_heuristic j line g1 g2 g3 :
  RegexGroups.QUESTION_PATTERN (PyStr.strip line) = Some (g1, g2, g3) ->
  forall q,
    question_of false j line = Some q
    <-> (is_Some g2 \/ PyMore.endswith "?" (PyStr.strip g3) = true)
        /\ q = mkQuestion (PyMore.int_of_digits g1) (resolve_agent_alias g2)
                 (PyStr.strip g3) (Z.of_nat j) line.
Proof.
  intros Hm q. unfold question_of. rewrite Hm. simpl.
  assert (Hg2 : (match g2 with None => true | Some m => negb (PyStr.truthy m) end) = true
                <-> ~ is_Some g2).
  { destruct g2 as [m|].
    - apply question_pattern_number_mention in Hm as [_ Hne].
      specialize (Hne m eq_refl). destruct m; [done|]. simpl.
      split; [done|]. intros []. by eexists.
    - split; [|done]. intros _ [x Hx]. done. }
  destruct (match g2 with None => true | Some m => negb (PyStr.truthy m) end) eqn:Hno;
    destruct (PyMore.endswith "?" (PyStr.strip g3)) eqn:He; simpl.
  - split; [intros [= <-]; split; [by right | done] | by intros [_ ->]].
  - split; [done|]. intros [[Hs|Hs] _]; [|done]. by apply Hg2 in Hs.
  - split; [intros [= <-]; split; [by right | done] | by intros [_ ->]].
  - split; [intros [= <-]; split; [|done] | by intros [_ ->]].
    left. destruct g2 as [m|]; [by eexists|]. by destruct Hg2 as [_ Hg2].
Qed.

(** X7: with a "Fragen" header (the first line that, stripped, matches
    [QUESTIONS_SECTION_PATTERN], at index [h]) the context is the text of
    the lines before the header, stripped, and the questions are exactly the
    numbered lines after the header: a line has a parsed question at its
    index iff it comes after the header and matches [QUESTION_PATTERN]; no
    mention or question mark is asked for, and numbered lines before the
    header are not questions. *)
Theorem fragen_section_rule content h header :
  let lines := PyStr.split_lines content in
  lines !! h = Some header ->
  RegexGroups.QUESTIONS_SECTION_PATTERN (PyStr.strip header) = true ->
  (forall k l, (k < h)%nat -> lines !! k = Some l ->
               RegexGroups.QUESTIONS_SECTION_PATTERN (PyStr.strip l) = false) ->
  (parse_markdown_questions content).1
  = PyStr.strip (PyStr.join PyStr.nl (take h lines))
  /\ forall j line,
       lines !! j = Some line ->
       ((exists q, q ∈ (parse_markdown_questions content).2
                   /\ line_index q = Z.of_nat j)
        <-> (h < j)%nat /\ is_question_line line = true).
Proof.
  intros lines Hh Hm Hbefore.
  pose proof (find_section_first lines 0 h header Hh Hm Hbefore) as Hf.
  simpl in Hf. split.
  - unfold parse_markdown_questions. fold lines. rewrite Hf.
    by rewrite parse_loop_questions_from.
  - intros j line Hj. rewrite parse_questions. cbv zeta. fold lines. rewrite Hf.
    rewrite (questions_from_at true lines (S h) j line Hj).
    rewrite question_of_section. split; intros [? ?]; split; try done; lia.
Qed.

(** X8: without a "Fragen" header a numbered line is a question iff it has a
    mention or its text ends with a question mark; the question then carries
    the number, the resolved agent and the stripped text of the groups. A
    line that does not match the pattern is never a question. The context
    is the text before the first question, stripped, and the whole content,
    stripped, when there is no question. *)
Theorem heuristic_rule content :
  let lines := PyStr.split_lines content in
  let questions := (parse_markdown_questions content).2 in
  (forall l, l ∈ lines -> RegexGroups.QUESTIONS_SECTION_PATTERN (PyStr.strip l) = false) ->
  (forall j line g1 g2 g3,
      lines !! j = Some line ->
      RegexGroups.QUESTION_PATTERN (PyStr.strip line) = Some (g1, g2, g3) ->
      forall q,
        (q ∈ questions /\ line_index q = Z.of_nat j)
        <-> (is_Some g2 \/ PyMore.endswith "?" (PyStr.strip g3) = true)
            /\ q = mkQuestion (PyMore.int_of_digits g1) (resolve_agent_alias g2)
                     (PyStr.strip g3) (Z.of_nat j) line)
  /\ (forall j line,
        lines !! j = Some line -> is_question_line line = false ->
        forall q, q ∈ questions -> line_index q <> Z.of_nat j)
  /\ (parse_markdown_questions content).1
     = match questions with
       | [] => PyStr.strip content
       | q :: _ => PyStr.strip (PyStr.join PyStr.nl (take (Z.to_nat (line_index q)) lines))
       end.
Proof.
  intros lines questions Hnone.
  pose proof (find_section_none lines 0 Hnone) as Hf.
  assert (Hqs : questions = questions_from false 0 (drop 0 lines)).
  { subst questions. rewrite parse_questions. cbv zeta. fold lines.
    by rewrite Hf, drop_0. }
  assert (Hat : forall j line q,
             lines !! j = Some line ->
             (q ∈ questions /\ line_index q = Z.of_nat j)
             <-> question_of false j line = Some q).
  { intros j line q Hj. rewrite Hqs. split.
    - intros [Hq Hidx]. apply questions_from_elem in Hq as (k & l & Hk & Hq).
      rewrite lookup_drop in Hk. simpl in *.
      pose proof (question_of_Some _ _ _ _ Hq) as (Hi & _).
      assert (j = k) as -> by lia. rewrite Hj in Hk. by inversion Hk; subst l.
    - intros Hq. split.
      + apply questions_from_elem. exists j, line. by rewrite lookup_drop.
      + by apply question_of_Some in Hq as (Hi & _). }
  split; [|split].
  - intros j line g1 g2 g3 Hj Hm q. rewrite (Hat j line q Hj).
    by apply question_of_heuristic.
  - intros j line Hj Hno q Hq Hidx.
    assert (Hsome : question_of false j line = Some q) by by apply Hat.
    apply question_of_Some in Hsome as (_ & _ & Hl & _). congruence.
  - unfold parse_markdown_questions. fold lines. rewrite Hf.
    rewrite parse_loop_questions_from. simpl. rewrite drop_0.
    rewrite drop_0 in Hqs. rewrite Hqs.
    destruct (questions_from false 0 lines) as [|q0 more]; [|done].
    rewrite take_ge; [|done]. unfold lines. by rewrite join_split_lines.
Qed.

End ParseRules.

(** * The "Fragen" header *)

Section HeaderFacts.

Lemma star_split cls k s :
  Regex.star cls k s = true ->
  exists a b, s = a +:+ b /\ all_chars cls a = true /\ k b = true.
Proof.
  induction s as [|c r IH]; simpl.
  - intros H. by exists "", "".
  - intros H. apply orb_true_iff in H as [H|H].
    + apply andb_true_iff in H as [Hc H].
      destruct (IH H) as (a & b & -> & Ha & Hb).
      exists (String c a), b. simpl. by rewrite Hc.
    + by exists "", (String c r).
Qed.

Lemma star_intro cls k a b :
  all_chars cls a = true -> k b = true -> Regex.star cls k (a +:+ b) = true.
Proof.
  intros Ha Hb. induction a as [|c a IH].
  - destruct b as [|c b]; simpl; [done|]. rewrite Hb. apply orb_true_r.
  - simpl in Ha. apply andb_true_iff in Ha as [Hc Ha].
    rewrite append_cons. simpl. by rewrite Hc, IH.
Qed.

Lemma lit_ci_split a k s :
  RegexGroups.lit_ci a k s = true ->
  exists c r, s = String c r /\ PyStr.lower_char c = PyStr.lower_char a /\ k r = true.
Proof.
  destruct s as [|c r]; simpl; [done|]. intros H.
  apply andb_true_iff in H as [Hc Hk]. apply Ascii.eqb_eq in Hc. by exists c, r.
Qed.

Lemma lit_split_bool a k s :
  Regex.lit a k s = true -> exists r, s = String a r /\ k r = true.
Proof.
  destruct s as [|c r]; simpl; [done|]. intros H.
  apply andb_true_iff in H as [Hc Hk]. apply Ascii.eqb_eq in Hc. subst. by exists r.
Qed.

(** X24: what counts as a "Fragen" header. The pattern
    [^#{1,3}\s*Fragen\s*$] under IGNORECASE accepts exactly the texts made
    of one to three "#", any whitespace, the word "fragen" in any letter
    case, any whitespace, and then the end of the text or a line break. *)
Theorem fragen_header s :
  RegexGroups.QUESTIONS_SECTION_PATTERN s = true
  <-> exists hashes ws word ws2 rest,
        s = hashes +:+ ws +:+ word +:+ ws2 +:+ rest
        /\ hashes ∈ ["#"; "##"; "###"]
        /\ all_chars PyStr.isspace ws = true
        /\ PyStr.lower word = "fragen"
        /\ all_chars PyStr.isspace ws2 = true
        /\ Regex.eol rest = true.
Proof.
  unfold RegexGroups.QUESTIONS_SECTION_PATTERN.
  set (tail := Regex.star PyStr.isspace Regex.eol).
  set (word_then := RegexGroups.lit_ci "F" (RegexGroups.lit_ci "r" (RegexGroups.lit_ci "a"
                      (RegexGroups.lit_ci "g" (RegexGroups.lit_ci "e"
                         (RegexGroups.lit_ci "n" tail)))))).
  set (after := Regex.star PyStr.isspace word_then).
  assert (Hafter : forall x,
             after x = true
             <-> exists ws word ws2 rest,
                   x = ws +:+ word +:+ ws2 +:+ rest
                   /\ all_chars PyStr.isspace ws = true
                   /\ PyStr.lower word = "fragen"
                   /\ all_chars PyStr.isspace ws2 = true
                   /\ Regex.eol rest = true).
  { intros x. split.
    - intros H. apply star_split in H as (ws & b & -> & Hws & H).
      unfold word_then in H.
      apply lit_ci_split in H as (c1 & r1 & -> & H1 & H).
      apply lit_ci_split in H as (c2 & r2 & -> & H2 & H).
      apply lit_ci_split in H as (c3 & r3 & -> & H3 & H).
      apply lit_ci_split in H as (c4 & r4 & -> & H4 & H).
      apply lit_ci_split in H as (c5 & r5 & -> & H5 & H).
      apply lit_ci_split in H as (c6 & r6 & -> & H6 & H).
      apply star_split in H as (ws2 & rest & -> & Hws2 & Hrest).
      exists ws, (String c1 (String c2 (String c3 (String c4 (String c5 (String c6 ""))))))
             , ws2, rest.
      split; [done|]. split; [done|]. split; [|done].
      simpl. by rewrite H1, H2, H3, H4, H5, H6.
    - intros (ws & word & ws2 & rest & -> & Hws & Hword & Hws2 & Hrest).
      apply star_intro; [done|].
      destruct word as [|c1 [|c2 [|c3 [|c4 [|c5 [|c6 [|c7 more]]]]]]]; try discriminate.
      injection Hword as H1 H2 H3 H4 H5 H6.
      unfold word_then. rewrite !append_cons. simpl.
      rewrite H1, H2, H3, H4, H5, H6. simpl.
      change ("" +:+ ws2 +:+ rest) with (ws2 +:+ rest). by apply star_intro. }
  split.
  - intros H. apply lit_split_bool in H as (r1 & -> & H).
    apply orb_true_iff in H as [H|H].
    + apply lit_split_bool in H as (r2 & -> & H).
      apply orb_true_iff in H as [H|H].
      * apply lit_split_bool in H as (r3 & -> & H).
        apply Hafter in H as (ws & word & ws2 & rest & -> & ?).
        exists "###", ws, word, ws2, rest. split; [done|]. split; [|done].
        by repeat constructor.
      * apply Hafter in H as (ws & word & ws2 & rest & -> & ?).
        exists "##", ws, word, ws2, rest. split; [done|]. split; [|done].
        by repeat constructor.
    + apply Hafter in H as (ws & word & ws2 & rest & -> & ?).
      exists "#", ws, word, ws2, rest. split; [done|]. split; [|done].
      by repeat constructor.
  - intros (hashes & ws & word & ws2 & rest & -> & Hh & Hrest).
    assert (Hx : after (ws +:+ word +:+ ws2 +:+ rest) = true).
    { apply Hafter. by exists ws, word, ws2, rest. }
    repeat (apply elem_of_cons in Hh as [->|Hh]);
      [| | |by apply elem_of_nil in Hh].
    + change ("#" +:+ ws +:+ word +:+ ws2 +:+ rest)
        with (String "#" (ws +:+ word +:+ ws2 +:+ rest)).
      cbn [Regex.lit]. rewrite Ascii.eqb_refl, Hx. cbn [andb]. apply orb_true_r.
    + change ("##" +:+ ws +:+ word +:+ ws2 +:+ rest)
        with (String "#" (String "#" (ws +:+ word +:+ ws2 +:+ rest))).
      cbn [Regex.lit]. rewrite !Ascii.eqb_refl, Hx. cbn [andb].
      rewrite orb_true_r. reflexivity.
    + change ("###" +:+ ws +:+ word +:+ ws2 +:+ rest)
        with (String "#" (String "#" (String "#" (ws +:+ word +:+ ws2 +:+ rest)))).
      cbn [Regex.lit]. rewrite !Ascii.eqb_refl, Hx. reflexivity.
Qed.

End HeaderFacts.

(** ** What the computations emit *)

Section EmitFacts.

Context {W : Type}.
Variable P : event -> Prop.

Lemma emits_only_ret {A} (a : A) : emits_only (W:=W) P (ret a).
Proof. intros w. constructor. Qed.

Lemma emits_only_raise {A} e : emits_only (W:=W) (A:=A) P (raise e).
Proof. intros w. constructor. Qed.

Lemma emits_only_emit ev : P ev -> emits_only (W:=W) P (emit ev).
Proof. intros H w. simpl. by repeat constructor. Qed.

Lemma emits_only_call {A} (f : W -> result A * W) : emits_only P (call f).
Proof. intros w. unfold call. destruct (f w). constructor. Qed.

Lemma emits_only_bind {A B} (m : M W A) (f : A -> M W B) :
  emits_only P m -> (forall a, emits_only P (f a)) -> emits_only P (bind m f).
Proof.
  intros Hm Hf w. unfold bind. specialize (Hm w).
  destruct (m w) as [[[a|e] w1] t1]; simpl in *; [|done].
  specialize (Hf a w1). destruct (f a w1) as [[r w2] t2]. simpl in *.
  by apply Forall_app.
Qed.

Lemma emits_only_try {A} (m : M W A) h :
  emits_only P m -> (forall e, emits_only P (h e)) -> emits_only P (try_except m h).
Proof.
  intros Hm Hh w. unfold try_except. specialize (Hm w).
  destruct (m w) as [[[a|e] w1] t1]; simpl in *; [done|].
  specialize (Hh e w1). destruct (h e w1) as [[r w2] t2]. simpl in *.
  by apply Forall_app.
Qed.

End EmitFacts.

Section LoopEmits.

Context {W : Type}.
Variable P : event -> Prop.
Hypothesis P_loop : forall ev, loop_event ev -> P ev.

Lemma retry_loop_emits (self : @AgentRunner W) messages max_retries attempts :
  forall wait_time, emits_only P (retry_loop self messages max_retries attempts wait_time).
Proof.
  induction attempts as [|attempt later IH]; intros wait_time; simpl.
  - apply emits_only_raise.
  - apply emits_only_try.
    + apply emits_only_bind; [by apply emits_only_emit, P_loop | intros _; apply emits_only_call].
    + intros e. destruct (is_rate_limit _); [|apply emits_only_raise].
      destruct (_ <? _); [|apply emits_only_raise].
      apply emits_only_bind; [by apply emits_only_emit, P_loop | intros _; apply IH].
Qed.

Lemma dispatch_tool_calls_emits (tools_by_name : gmap string (@Tool W)) calls :
  forall messages, emits_only P (dispatch_tool_calls tools_by_name calls messages).
Proof.
  induction calls as [|tc later IH]; intros messages; simpl.
  - apply emits_only_ret.
  - apply emits_only_bind; [|intros r; apply IH].
    unfold tool_result_text. destruct (_ !! _); [|apply emits_only_ret].
    apply emits_only_try; [|intros e; apply emits_only_ret].
    apply emits_only_bind; [by apply emits_only_emit, P_loop | intros _; apply emits_only_call].
Qed.

Lemma agent_loop_emits (self : @AgentRunner W) tools_by_name iterations :
  forall messages prev, emits_only P (agent_loop self tools_by_name iterations messages prev).
Proof.
  induction iterations as [|i later IH]; intros messages prev; simpl.
  - destruct prev; [apply emits_only_ret | apply emits_only_raise].
  - apply emits_only_bind; [apply retry_loop_emits|].
    intros response. destruct (tool_calls response); [apply emits_only_ret|].
    apply emits_only_bind; [apply dispatch_tool_calls_emits | intros ms; apply IH].
Qed.

End LoopEmits.

Section RunEmits.

Context {W : Type}.

Lemma run_emits (self : @AgentRunner W) query :
  emits_only not_a_write (run self query).
Proof.
  unfold run, run_history.
  apply emits_only_bind; [|intros r; apply emits_only_ret].
  apply emits_only_bind; [by apply emits_only_emit|].
  intros _. apply agent_loop_emits. by intros [].
Qed.

Lemma run_single_agent_emits new_runner agent_name query project_id debug :
  emits_only (W:=W) not_a_write
    (run_single_agent new_runner agent_name query project_id debug).
Proof.
  unfold run_single_agent.
  apply emits_only_bind; [apply emits_only_call | intros r; apply run_emits].
Qed.

Lemma writes_app t1 t2 : writes (t1 ++ t2) = writes t1 ++ writes t2.
Proof. unfold writes. apply omap_app. Qed.

Lemma writes_none t : Forall not_a_write t -> writes t = [].
Proof.
  induction 1 as [|ev t Hev _ IH]; [done|].
  change (ev :: t) with ([ev] ++ t). rewrite writes_app, IH. by destruct ev.
Qed.

End RunEmits.

(** ** Incremental persistence *)

Section Persistence.

Context {W : Type}.
Context (markup_error : string -> option exn).
Context (write_text : string -> string -> W -> result unit).
Context (new_runner : string -> option Z -> bool -> W -> result (@AgentRunner W) * W).
Variables (context : string) (verbose debug : bool) (project_id : option Z).

Lemma other_events_app t1 t2 : other_events (t1 ++ t2) = other_events t1 ++ other_events t2.
Proof. unfold other_events. apply omap_app. Qed.

Lemma other_events_id t : Forall not_a_write t -> other_events t = t.
Proof.
  induction 1 as [|ev t Hev _ IH]; [done|].
  change (ev :: t) with ([ev] ++ t). rewrite other_events_app, IH. by destruct ev.
Qed.

Lemma console_print_emits P text : emits_only (W:=W) P (console_print markup_error text).
Proof.
  unfold console_print. destruct (markup_error text); [apply emits_only_raise | apply emits_only_ret].
Qed.

(** The writes of one step: none before the answer is made, and then the
    document with the answers so far, to the target. A step fails in the
    console or in the write only. *)
Lemma process_question_writes output_path original_content answers q w :
  let target := write_target output_path original_content in
  let '(r, w1, t) :=
    process_question markup_error write_text new_runner context verbose debug project_id
      output_path original_content answers q w in
  match r with
  | Ok made =>
      exists response,
        made = answers ++ [answer_of q response]
        /\ writes t = writes (write_events target made)
  | Raise e =>
      (console_failure markup_error e \/ write_failure write_text e)
      /\ (writes t = []
          \/ exists response,
               writes t = writes (write_events target (answers ++ [answer_of q response])))
  end.
Proof.
  intros target.
  pose proof (run_single_agent_emits new_runner (agent q) (full_query context answers q)
                project_id debug w) as He.
  apply writes_none in He.
  destruct (process_question_cases markup_error write_text new_runner context verbose debug
              project_id output_path original_content answers q w)
    as [(_ & e & Hb & H)
       |(_ & [(e & e' & _ & Hb & H)
             |(response & _ & [(e & (path & original & _ & Hb) & H)
                              |(_ & [(_ & e & Hb & H)|(_ & H)])])])];
    cbv zeta in *; rewrite H; fold target.
  - split; [left|by left]. destruct Hb as [Hb|[_ Hb]]; by eexists.
  - split; [left; by eexists | by left].
  - split; [right; by do 3 eexists|]. right. exists response.
    by rewrite writes_app, He.
  - split; [left; by eexists|]. right. exists response.
    by rewrite writes_app, He.
  - exists response. split; [done|]. by rewrite writes_app, He.
Qed.

(** Every write of the loop is the document with the answers so far, and
    the loop fails in the console or in a write only. *)
Lemma process_loop_writes path c r questions :
  forall answers w,
    let '(outcome, w1, t) :=
      process_loop markup_error write_text new_runner context questions verbose debug
        project_id (Some path) (Some (String c r)) answers w in
    exists written,
      writes t
      = map (fun k => (path, write_answers_to_markdown (String c r)
                               (answers ++ take (S k) written)))
          (seq 0 (length written))
      /\ Forall2 answers_question written (take (length written) questions)
      /\ match outcome with
         | Ok all => all = answers ++ written /\ length written = length questions
         | Raise e => console_failure markup_error e \/ write_failure write_text e
         end.
Proof.
  induction questions as [|q later IH]; intros answers w.
  - exists []. simpl. by rewrite app_nil_r.
  - cbn [process_loop]. unfold bind.
    pose proof (process_question_writes (Some path) (Some (String c r)) answers q w) as Hq.
    cbv zeta in Hq.
    destruct (process_question _ _ _ _ _ _ _ _ _ answers q w) as [[[made|e] w1] t1].
    + destruct Hq as (response & -> & Hw1).
      specialize (IH (answers ++ [answer_of q response]) w1).
      destruct (process_loop _ _ _ _ later _ _ _ _ _ _ w1) as [[outcome w2] t2].
      destruct IH as (written & Hw2 & Hans & Hout).
      exists (answer_of q response :: written). split; [|split].
      * rewrite writes_app, Hw1, Hw2. cbn [length]. rewrite <- cons_seq, <- fmap_S_seq.
        change (S <$> seq 0 (length written)) with (map S (seq 0 (length written))).
        cbn [map take]. rewrite map_map. cbn [take]. f_equal.
        apply map_ext. intros k. by rewrite <- app_assoc.
      * cbn. by constructor.
      * destruct outcome as [all|e]; [|done].
        destruct Hout as [-> Hlen]. rewrite <- app_assoc. split; [done|].
        cbn. by rewrite Hlen.
    + destruct Hq as [Hfail [Hw1|(response & Hw1)]].
      * exists []. by rewrite Hw1.
      * exists [answer_of q response]. rewrite Hw1. cbn. rewrite take_0.
        split; [done|]. split; [|done]. by repeat constructor.
Qed.

Lemma process_loop_no_target output_path original_content questions :
  output_path = None \/ original_content = None \/ original_content = Some "" ->
  forall answers,
    emits_only not_a_write
      (process_loop markup_error write_text new_runner context questions verbose debug
         project_id output_path original_content answers).
Proof.
  intros Hno. induction questions as [|q later IH]; intros answers.
  - apply emits_only_ret.
  - cbn [process_loop]. apply emits_only_bind; [|intros made; apply IH].
    unfold process_question. apply emits_only_bind.
    { destruct verbose; [|apply emits_only_ret].
      apply emits_only_bind; [apply console_print_emits|].
      intros _. apply console_print_emits. }
    intros _. apply emits_only_bind.
    { apply emits_only_try; [apply run_single_agent_emits|].
      intros e. apply emits_only_bind; [apply console_print_emits|].
      intros _. apply emits_only_ret. }
    intros response. apply emits_only_bind.
    { destruct output_path as [path|]; [|apply emits_only_ret].
      destruct original_content as [[|c r]|]; try apply emits_only_ret.
      destruct Hno as [?|[?|?]]; done. }
    intros _. apply emits_only_bind; [|intros _; apply emits_only_ret].
    destruct verbose; [apply console_print_emits | apply emits_only_ret].
Qed.

(** A step without a target does what the step with a target does, without
    the write: the same outcome, state and other events, unless the write
    fails. *)
Lemma process_question_dry path original_content answers q w :
  let real :=
    process_question markup_error write_text new_runner context verbose debug project_id
      (Some path) original_content answers q w in
  let dry :=
    process_question markup_error write_text new_runner context verbose debug project_id
      None original_content answers q w in
  match real.1.1 with
  | Ok made => dry = (Ok made, real.1.2, other_events real.2)
  | Raise e =>
      dry = (Raise e, real.1.2, other_events real.2) \/ write_failure write_text e
  end.
Proof.
  intros real dry. subst real dry.
  pose proof (run_single_agent_emits new_runner (agent q) (full_query context answers q)
                project_id debug w) as He.
  apply other_events_id in He.
  cbv beta iota zeta delta
    [process_question bind try_except console_print write_file emit call ret raise].
  destruct verbose; destruct original_content as [[|? ?]|].
  all: repeat (match goal with
               | |- context [markup_error ?x] => destruct (markup_error x) eqn:?
               | |- context [run_single_agent ?a ?b ?c ?d ?e ?f] =>
                   destruct (run_single_agent a b c d e f) as [[[?|?] ?] ?] eqn:?
               | |- context [write_text ?p ?d ?w] =>
                   destruct (write_text p d w) as [[]|?] eqn:?
               end; cbn [fst snd] in * ).
  all: cbn [fst snd].
  all: rewrite ?app_nil_r, ?other_events_app, ?He, ?app_nil_r.
  all: try done.
  all: try (by left).
  all: try (right; by do 3 eexists).
Qed.

Lemma process_loop_dry path original_content questions :
  forall answers w,
    let real :=
      process_loop markup_error write_text new_runner context questions verbose debug
        project_id (Some path) original_content answers w in
    let dry :=
      process_loop markup_error write_text new_runner context questions verbose debug
        project_id None original_content answers w in
    match real.1.1 with
    | Ok all => dry = (Ok all, real.1.2, other_events real.2)
    | Raise e =>
        dry = (Raise e, real.1.2, other_events real.2) \/ write_failure write_text e
    end.
Proof.
  induction questions as [|q later IH]; intros answers w; [done|].
  cbn [process_loop]. unfold bind.
  pose proof (process_question_dry path original_content answers q w) as Hq.
  cbv zeta in Hq.
  destruct (process_question _ _ _ _ _ _ _ (Some path) _ answers q w)
    as [[[made|e] w1] t1]; cbn [fst snd] in Hq.
  - rewrite Hq. specialize (IH made w1). cbv zeta in IH.
    destruct (process_loop _ _ _ _ later _ _ _ (Some path) _ made w1)
      as [[[all|e] w2] t2]; cbn [fst snd] in *.
    + rewrite IH. by rewrite other_events_app.
    + destruct IH as [IH|IH]; [left | by right]. rewrite IH. by rewrite other_events_app.
  - destruct Hq as [Hq|Hq]; [left | by right]. by rewrite Hq.
Qed.

(** X9: with an output path and a non-empty original, the pipeline writes
    the document after every answer it makes, always to that path: the
    [k]-th write is the original with the first [k] answers inserted, and
    the answers are those to the first questions, in order. When the
    pipeline returns, it returns these answers, one per question, and the
    last write holds them all. It raises only what the console raises on a
    text or the file system on a write; the writes made until then are as
    described. *)
Theorem incremental_writes questions path original w :
  original <> "" ->
  let '(outcome, w1, t) :=
    process_questions markup_error write_text new_runner context questions verbose debug
      project_id (Some path) (Some original) w in
  exists written,
    writes t
    = map (fun k => (path, write_answers_to_markdown original (take (S k) written)))
        (seq 0 (length written))
    /\ Forall2 answers_question written (take (length written) questions)
    /\ match outcome with
       | Ok answers =>
           answers = written
           /\ length answers = length questions
           /\ (questions <> [] ->
               last (writes t) = Some (path, write_answers_to_markdown original answers))
       | Raise e => console_failure markup_error e \/ write_failure write_text e
       end.
Proof.
  intros Hne. destruct original as [|c r]; [done|].
  unfold process_questions.
  pose proof (process_loop_writes path c r questions [] w) as Hloop.
  destruct (process_loop _ _ _ _ _ _ _ _ _ _ _ w) as [[outcome w1] t].
  destruct Hloop as (written & Hw & Hans & Hout).
  exists written. simpl in Hw. split; [exact Hw|]. split; [exact Hans|].
  destruct outcome as [answers|e]; [|exact Hout].
  destruct Hout as [-> Hlen]. simpl. split; [done|]. split; [done|].
  intros Hq. rewrite Hw.
  destruct (length written) as [|n] eqn:Hn.
  { destruct questions; [done | discriminate]. }
  rewrite seq_S, map_app. cbn [map]. rewrite last_snoc. simpl. do 3 f_equal.
  apply take_ge. lia.
Qed.

(** X10: without an output path, or without an original (none, or the
    empty text), the pipeline writes nothing, whatever the agents do. *)
Theorem no_target_no_write questions output_path original_content w :
  output_path = None \/ original_content = None \/ original_content = Some "" ->
  writes (process_questions markup_error write_text new_runner context questions verbose
            debug project_id output_path original_content w).2 = [].
Proof.
  intros Hno. apply writes_none.
  apply (process_loop_no_target output_path original_content questions Hno [] w).
Qed.

End Persistence.

(** ** Processing a file *)

Section FileFacts.

Context {W : Type}.
Context (markup_error : string -> option exn).
Context (write_text : string -> string -> W -> result unit).
Context (new_runner : string -> option Z -> bool -> W -> result (@AgentRunner W) * W).
Variables (files : gmap string string) (file_path : string) (output_path : option string).
Variables (verbose debug : bool) (project_id : option Z).

Lemma questions_from_none section lines :
  Forall (fun line => is_question_line line = false) lines ->
  forall i, questions_from section i lines = [].
Proof.
  induction 1 as [|line later Hline _ IH]; intros i; simpl; [done|].
  destruct (question_of section i line) as [q|] eqn:Hq; [|apply IH].
  apply question_of_Some in Hq as (_ & _ & Hl & _). congruence.
Qed.

Lemma process_markdown_file_questions content dry_run :
  files !! file_path = Some content ->
  (parse_markdown_questions content).2 <> [] ->
  process_markdown_file markup_error write_text new_runner files file_path output_path
    dry_run verbose debug project_id
  = (answers <- process_questions markup_error write_text new_runner
                  (parse_markdown_questions content).1
                  (parse_markdown_questions content).2 verbose debug project_id
                  (if dry_run then None else Some (target_path file_path output_path))
                  (Some content) ;
     (let result := write_answers_to_markdown content answers in
      (if dry_run then console_print markup_error result else ret tt) ;;;
      ret result)).
Proof.
  intros Hfile Hq. unfold process_markdown_file. rewrite Hfile.
  destruct (parse_markdown_questions content) as [context [|q later]]; [done|].
  reflexivity.
Qed.

Lemma process_markdown_file_no_questions content dry_run w :
  files !! file_path = Some content ->
  (parse_markdown_questions content).2 = [] ->
  process_markdown_file markup_error write_text new_runner files file_path output_path
    dry_run verbose debug project_id w = (Ok content, w, []).
Proof.
  intros Hfile Hq. unfold process_markdown_file. rewrite Hfile.
  destruct (parse_markdown_questions content) as [context questions].
  simpl in Hq. by subst questions.
Qed.

(** X11: nothing happens when there is nothing to do. A missing file raises
    "File not found: <path>"; a file without a numbered line is returned as
    it is. In both cases no agent is built, no request is sent, nothing is
    written, and the state of the collaborators is the one before. *)
Theorem nothing_to_process dry_run w :
  (files !! file_path = None ->
   process_markdown_file markup_error write_text new_runner files file_path output_path
     dry_run verbose debug project_id w
   = (Raise (Exception ("File not found: " +:+ file_path)), w, []))
  /\ (forall content,
        files !! file_path = Some content ->
        Forall (fun line => is_question_line line = false) (PyStr.split_lines content) ->
        process_markdown_file markup_error write_text new_runner files file_path
          output_path dry_run verbose debug project_id w = (Ok content, w, [])).
Proof.
  split.
  - intros Hfile. unfold process_markdown_file. by rewrite Hfile.
  - intros content Hfile Hnone.
    apply process_markdown_file_no_questions; [done|].
    rewrite parse_questions. cbv zeta.
    destruct (find_section 0 (PyStr.split_lines content)) as [h|].
    + apply questions_from_none. by apply Forall_drop.
    + by apply questions_from_none.
Qed.

(** X12: a dry run does what a real run does, without the file writes and
    with a print of the document at the end. The dry run writes nothing.
    When the real run returns a document, the dry run leaves the
    collaborators in the same state after the same events, the writes
    apart, and returns the same document, unless there were questions to
    answer and the console refuses to print the document: then the dry run
    raises that refusal. When the real run raises, the dry run raises the
    same failure at the same point, unless the failure is that of a file
    write, which the dry run does not make. *)
Theorem dry_run_same_result w :
  let real := process_markdown_file markup_error write_text new_runner files file_path
                output_path false verbose debug project_id w in
  let dry := process_markdown_file markup_error write_text new_runner files file_path
               output_path true verbose debug project_id w in
  let answered :=
    match files !! file_path with
    | Some content =>
        match (parse_markdown_questions content).2 with [] => false | _ :: _ => true end
    | None => false
    end in
  writes dry.2 = []
  /\ match real.1.1 with
     | Ok result =>
         dry = (match (if answered then markup_error result else None) with
                | Some e => Raise e
                | None => Ok result
                end, real.1.2, other_events real.2)
     | Raise e =>
         dry = (Raise e, real.1.2, other_events real.2) \/ write_failure write_text e
     end.
Proof.
  intros real dry answered. subst real dry answered.
  destruct (files !! file_path) as [content|] eqn:Hfile.
  2:{ unfold process_markdown_file. rewrite Hfile. split; [done | by left]. }
  destruct ((parse_markdown_questions content).2) as [|q0 more] eqn:Hq.
  { rewrite !(process_markdown_file_no_questions content _ w Hfile Hq). done. }
  assert (Hne : (parse_markdown_questions content).2 <> []) by by rewrite Hq.
  rewrite !(process_markdown_file_questions content _ Hfile Hne). rewrite Hq.
  set (context := (parse_markdown_questions content).1).
  set (questions := q0 :: more).
  pose proof (process_loop_dry markup_error write_text new_runner context verbose debug
                project_id (target_path file_path output_path) (Some content)
                questions [] w) as Hdry.
  pose proof (process_loop_no_target markup_error write_text new_runner context verbose
                debug project_id None (Some content) questions (or_introl eq_refl) [] w)
    as Hnone.
  apply writes_none in Hnone.
  unfold process_questions. cbv zeta in *. unfold bind, console_print, ret, raise.
  destruct (process_loop _ _ _ _ _ _ _ _ (Some _) _ _ w) as [[[answers|e] w1] t];
    cbn [fst snd] in *.
  - rewrite Hdry in *. cbn [fst snd] in Hnone.
    destruct (markup_error (write_answers_to_markdown content answers)) as [e|];
      cbn [fst snd]; rewrite !app_nil_r; done.
  - destruct Hdry as [Hdry|Hdry].
    + rewrite Hdry in *. cbn [fst snd] in *. split; [done | by left].
    + split; [|by right].
      destruct (process_loop _ _ _ _ _ _ _ _ None _ _ w) as [[[answers|e'] w1'] t'];
        cbn [fst snd] in *; [|done].
      destruct (markup_error (write_answers_to_markdown content answers)) as [e'|];
        cbn [fst snd]; by rewrite ?app_nil_r.
Qed.

(** X13: a real run on a file with questions writes to the target only (the
    output path if one is given, the input file otherwise), at most once per
    question. When it returns, it returns the document with all the answers
    inserted, one answer per question with the question's line and text,
    after exactly one write per question, and that document is what the
    last write put into the target. It raises only what the console raises
    on a text or the file system on a write. *)
Theorem real_run_persists_result content w :
  files !! file_path = Some content ->
  (parse_markdown_questions content).2 <> [] ->
  let questions := (parse_markdown_questions content).2 in
  let target := target_path file_path output_path in
  let '(outcome, w1, t) :=
    process_markdown_file markup_error write_text new_runner files file_path output_path
      false verbose debug project_id w in
  Forall (fun pw => pw.1 = target) (writes t)
  /\ (length (writes t) <= length questions)%nat
  /\ match outcome with
     | Ok result =>
         exists answers,
           result = write_answers_to_markdown content answers
           /\ map question_line answers = map original_line questions
           /\ map question_text answers = map text questions
           /\ length (writes t) = length questions
           /\ last (writes t) = Some (target, result)
     | Raise e => console_failure markup_error e \/ write_failure write_text e
     end.
Proof.
  intros Hfile Hne questions target.
  destruct content as [|c r]; [by destruct Hne|].
  rewrite (process_markdown_file_questions (String c r) _ Hfile Hne).
  set (context := (parse_markdown_questions (String c r)).1). fold questions. fold target.
  pose proof (process_loop_writes markup_error write_text new_runner context verbose debug
                project_id target c r questions [] w) as Hloop.
  unfold process_questions, bind.
  destruct (process_loop _ _ _ _ _ _ _ _ _ _ _ w) as [[outcome w1] t].
  destruct Hloop as (written & Hw & Hans & Hout). simpl in Hw.
  assert (Hlen : (length written <= length questions)%nat).
  { apply Forall2_length in Hans. rewrite Hans, length_take. lia. }
  assert (Htarget : Forall (fun pw => pw.1 = target) (writes t)).
  { rewrite Hw. apply Forall_forall. intros pw Hin.
    apply list_elem_of_fmap in Hin as (k & -> & _). done. }
  assert (Hcount : length (writes t) = length written).
  { by rewrite Hw, length_map, length_seq. }
  destruct outcome as [answers|e].
  - destruct Hout as [-> Hall]. cbn. rewrite app_nil_r.
    split; [done|]. split; [lia|].
    exists written. rewrite Hall, firstn_all in Hans.
    split; [done|]. split; [|split; [|split; [lia|]]].
    + clear -Hans. induction Hans as [|a q' ? ? (_ & Hl & _) _ IH]; [done|].
      simpl. by rewrite Hl, IH.
    + clear -Hans. induction Hans as [|a q' ? ? (_ & _ & Ht) _ IH]; [done|].
      simpl. by rewrite Ht, IH.
    + rewrite Hw. destruct (length written) as [|n] eqn:Hn.
      { symmetry in Hall. apply nil_length_inv in Hall. by destruct Hne. }
      rewrite seq_S, map_app. cbn [map]. rewrite last_snoc. simpl. do 3 f_equal.
      apply take_ge. lia.
  - split; [done|]. split; [lia | done].
Qed.

End FileFacts.

(** ** From the parsed questions to the written document *)

Section Composition.

Lemma answer_map_of_covers (answers : list Answer) line :
  line ∈ map question_line answers ->
  exists a, answer_map_of answers !! PyStr.strip line = Some a
            /\ a ∈ answers
            /\ PyStr.strip (question_line a) = PyStr.strip line.
Proof.
  intros Hin. apply list_elem_of_fmap in Hin as (a0 & -> & Ha0).
  rewrite answer_map_of_lookup.
  destruct (last (filter (fun a => key_of a = PyStr.strip (question_line a0)) answers))
    as [a|] eqn:Hlast.
  - exists a. split; [done|].
    apply last_Some in Hlast as (l' & Hl').
    assert (Ha : a ∈ filter (fun a => key_of a = PyStr.strip (question_line a0)) answers).
    { rewrite Hl'. apply elem_of_app. right. apply list_elem_of_here. }
    apply list_elem_of_filter in Ha as [Hk Ha]. done.
  - apply last_None in Hlast.
    assert (Ha : a0 ∈ filter (fun a => key_of a = PyStr.strip (question_line a0)) answers).
    { apply list_elem_of_filter. done. }
    rewrite Hlast in Ha. by apply elem_of_nil in Ha.
Qed.

(** X14: when the answers carry the lines of the parsed questions, as the
    answers of the pipeline do, every parsed question is answered in the
    written document: the lines before it are rendered on their own, its
    line is replaced by the header "### <question text>", an empty line, the
    answer text and an empty line of the answer the dict holds for this
    line, and the rendering goes on after the old answer block, if any,
    that followed the line. *)
Theorem every_question_answered content answers q :
  let lines := PyStr.split_lines content in
  let answer_map := answer_map_of answers in
  map question_line answers = map original_line (parse_markdown_questions content).2 ->
  q ∈ (parse_markdown_questions content).2 ->
  exists a j,
    line_index q = Z.of_nat j
    /\ a ∈ answers
    /\ PyStr.strip (question_line a) = PyStr.strip (original_line q)
    /\ write_answers_to_markdown content answers
       = PyStr.join PyStr.nl
           (insert_answers answer_map (take j lines)
            ++ ["### " +:+ question_text a; ""; answer_text a; ""]
            ++ insert_answers answer_map (skip_existing_block (drop (S j) lines))).
Proof.
  intros lines answer_map Hlines Hq.
  destruct (parsed_question_at content q Hq) as (j & Hj & Hat & Hql & _).
  assert (Hin : original_line q ∈ map question_line answers).
  { rewrite Hlines. apply list_elem_of_fmap. by exists q. }
  destruct (answer_map_of_covers answers _ Hin) as (a & Hmap & Ha & Hkey).
  exists a, j. split; [done|]. split; [done|]. split; [done|].
  unfold write_answers_to_markdown. fold lines. fold answer_map. f_equal.
  rewrite <- (take_drop_middle lines j (original_line q) Hat) at 1.
  rewrite (insert_answers_stop answer_map _ _ Hql). f_equal.
  by apply insert_answers_at.
Qed.

End Composition.

(** * Further properties of the conversation loop *)

Section RetryShape.

Context {W : Type}.
Implicit Types (self : @AgentRunner W) (w : W).

Lemma backoff_wait_next k : Z.min (backoff_wait k * 2) 300 = backoff_wait (S k).
Proof.
  unfold backoff_wait. rewrite Nat2Z.inj_succ, Z.pow_succ_r by lia.
  assert (0 < 2 ^ Z.of_nat k) by (apply Z.pow_pos_nonneg; lia). lia.
Qed.

Lemma backoff_from_closed waits :
  forall k, backoff_from (backoff_wait k) waits ->
            waits = map backoff_wait (seq k (length waits)).
Proof.
  induction waits as [|n later IH]; intros k H; [done|].
  destruct H as [-> H]. simpl. f_equal. apply IH. by rewrite <- backoff_wait_next.
Qed.

Lemma retry_loop_shape self messages max_retries :
  forall n attempt wait_time w,
    0 <= attempt <= max_retries ->
    n = Z.to_nat (max_retries - attempt) ->
    exists waits w0 reply,
      let outcome :=
        retry_loop self messages max_retries
          (seqZ attempt (max_retries + 1 - attempt)) wait_time w in
      outcome.2 = retry_trace messages waits
      /\ backoff_from wait_time waits
      /\ attempt + Z.of_nat (length waits) <= max_retries
      /\ invoke (llm_with_tools self) messages w0 = (reply, outcome.1.2)
      /\ retry_outcome max_retries (attempt + Z.of_nat (length waits)) reply outcome.1.1.
Proof.
  induction n as [|n IH]; intros attempt wait_time w Ha Hn.
  all: rewrite seqZ_cons by lia.
  all: destruct (invoke (llm_with_tools self) messages w) as [[a|e] w1] eqn:Hi.
  all: try (exists [], w, (Ok a); erewrite retry_step_ok by eauto; simpl;
            repeat split; try done; lia).
  all: destruct (is_rate_limit (str_exn e)) eqn:Hc.
  all: try (exists [], w, (Raise e); erewrite retry_step_fatal by eauto; simpl;
            rewrite Hc; repeat split; try done; lia).
  - exists [], w, (Raise e). erewrite retry_step_exhausted by (eauto; lia). simpl.
    rewrite Hc. repeat split; try done; lia.
  - destruct (IH (Z.succ attempt) (Z.min (wait_time * 2) 300) w1)
      as (waits & w0 & reply & Ht & Hb & Hlen & Hinv & Hout); [lia | lia |].
    exists (wait_time :: waits), w0, reply.
    erewrite retry_step_again by (eauto; lia).
    replace (Z.pred (max_retries + 1 - attempt))
      with (max_retries + 1 - Z.succ attempt) by lia.
    cbv zeta in Ht, Hinv, Hout.
    destruct (retry_loop _ _ _ _ _ _) as [[r w2] t]. simpl in *.
    rewrite Ht.
    replace (attempt + Z.of_nat (S (length waits)))
      with (Z.succ attempt + Z.of_nat (length waits)) by lia.
    split; [done|]. split; [done|]. split; [lia|]. split; [exact Hinv|].
    exact Hout.
Qed.

(** X15: the retried provider call, whatever the provider does. With a
    retry cap of at least 0 its events are a request, then a sleep and a
    new request per retry, every request carrying the same messages; there
    are at most [max_retries] retries; the wait before retry [k + 1] is
    [min(60 * 2^k, 300)]; and the outcome is the provider's last reply: its
    response, its failure as it is when it carries no rate-limit signal, or
    the retries-exhausted error, which is raised only after [max_retries]
    retries. With a negative cap the provider is never asked and "Max
    retries exceeded" is raised. *)
Theorem retry_trace_shape self messages max_retries w :
  let outcome := _invoke_with_retry self messages max_retries w in
  (0 <= max_retries ->
   exists waits w0 reply,
     outcome.2 = retry_trace messages waits
     /\ waits = map backoff_wait (seq 0 (length waits))
     /\ Z.of_nat (length waits) <= max_retries
     /\ invoke (llm_with_tools self) messages w0 = (reply, outcome.1.2)
     /\ retry_outcome max_retries (Z.of_nat (length waits)) reply outcome.1.1)
  /\ (max_retries < 0 ->
      outcome = (Raise (Exception "Max retries exceeded"), w, [])).
Proof.
  intros outcome. subst outcome. split.
  - intros Hm. rewrite invoke_with_retry_is_loop.
    destruct (retry_loop_shape self messages max_retries
                (Z.to_nat (max_retries - 0)) 0 INITIAL_WAIT_SECONDS w)
      as (waits & w0 & reply & Ht & Hb & Hlen & Hinv & Hout); [lia | done |].
    exists waits, w0, reply. cbv zeta in *.
    repeat split; try done; try lia.
    by apply (backoff_from_closed waits 0).
  - intros Hneg. unfold _invoke_with_retry, range.
    rewrite seqZ_nil by lia. reflexivity.
Qed.

End RetryShape.

Section RunFailure.

Context {W : Type}.
Implicit Types (self : @AgentRunner W) (w : W).

Lemma last_retry_trace messages waits :
  last (retry_trace messages waits) = Some (EvRequest messages).
Proof.
  unfold retry_trace.
  assert (G : forall ev, last (ev :: flat_map (fun s => [EvSleep s; EvRequest messages]) waits)
                         = Some (match waits with [] => ev | _ => EvRequest messages end)).
  { induction waits as [|n later IH]; intros ev; [done|].
    simpl. rewrite (IH (EvRequest messages)). by destruct later. }
  rewrite G. by destruct waits.
Qed.

Lemma invoke_with_retry_failure self messages w e w1 t :
  _invoke_with_retry self messages MAX_RETRIES w = (Raise e, w1, t) ->
  exists w0 e0,
    invoke (llm_with_tools self) messages w0 = (Raise e0, w1)
    /\ e = (if is_rate_limit (str_exn e0)
            then retries_exhausted MAX_RETRIES (str_exn e0) else e0)
    /\ last t = Some (EvRequest messages).
Proof.
  intros Hrun. rewrite invoke_with_retry_is_loop in Hrun.
  destruct (retry_loop_shape self messages MAX_RETRIES
              (Z.to_nat (MAX_RETRIES - 0)) 0 INITIAL_WAIT_SECONDS w)
    as (waits & w0 & reply & Ht & _ & _ & Hinv & Hout); [done | done |].
  cbv zeta in *. rewrite Hrun in Ht, Hinv, Hout. simpl in *.
  destruct reply as [a|e0]; simpl in Hout; [done|].
  exists w0, e0. split; [done|]. split.
  - destruct (is_rate_limit (str_exn e0)); [destruct Hout as [_ Hout]|]; congruence.
  - rewrite Ht. apply last_retry_trace.
Qed.

Lemma last_app_Some {A} (l1 l2 : list A) x : last l2 = Some x -> last (l1 ++ l2) = Some x.
Proof. intros H. rewrite last_app, H. done. Qed.

Lemma agent_loop_failure self tools_by_name iterations :
  forall messages prev w e w1 t,
    (iterations <> [] \/ prev <> None) ->
    agent_loop self tools_by_name iterations messages prev w = (Raise e, w1, t) ->
    exists request w0 e0,
      invoke (llm_with_tools self) request w0 = (Raise e0, w1)
      /\ e = (if is_rate_limit (str_exn e0)
              then retries_exhausted MAX_RETRIES (str_exn e0) else e0)
      /\ last t = Some (EvRequest request).
Proof.
  induction iterations as [|i later IH]; intros messages prev w e w1 t Hne Hrun.
  - simpl in Hrun. destruct prev; [done|]. by destruct Hne.
  - simpl in Hrun.
    destruct (_invoke_with_retry self messages MAX_RETRIES w) as [[[response|e'] w2] t1]
      eqn:Hretry.
    + erewrite bind_Ok in Hrun by exact Hretry.
      destruct (tool_calls response) as [|c cs] eqn:Hcalls; [done|].
      destruct (dispatch_tool_calls_total tools_by_name (c :: cs)
                  (messages ++ [AssistantMessage response]) w2)
        as (results & w3 & t2 & Hd & _).
      erewrite bind_Ok in Hrun by exact Hd.
      destruct (agent_loop self tools_by_name later _ (Some response) w3)
        as [[r w4] t3] eqn:Hrest.
      inversion Hrun; subst r w4 t.
      assert (Hprev : later <> [] \/ Some response <> None) by by right.
      destruct (IH _ _ _ _ _ _ Hprev Hrest) as (request & w0 & e0 & Hi & He & Hl).
      exists request, w0, e0. split; [done|]. split; [done|].
      by do 2 apply last_app_Some.
    + erewrite bind_Raise in Hrun by exact Hretry.
      inversion Hrun; subst e' w2 t1.
      destruct (invoke_with_retry_failure _ _ _ _ _ _ Hretry) as (w0 & e0 & Hi & He & Hl).
      by exists messages, w0, e0.
Qed.

(** X16: a conversation loop fails only on its provider. When [run] raises,
    the last thing it did was a provider request that failed; the exception
    is that failure as it is when it carries no rate-limit signal, and the
    retries-exhausted error for it otherwise. A failing or unknown tool never
    makes the loop fail, and the loop's ceiling does not either. *)
Theorem run_fails_only_on_provider self query w e w1 t :
  run self query w = (Raise e, w1, t) ->
  exists request w0 e0,
    invoke (llm_with_tools self) request w0 = (Raise e0, w1)
    /\ e = (if is_rate_limit (str_exn e0)
            then retries_exhausted MAX_RETRIES (str_exn e0) else e0)
    /\ last t = Some (EvRequest request).
Proof.
  intros Hrun.
  destruct (run_history self query w) as [[r w2] t2] eqn:Hh.
  rewrite (run_of_history _ _ _ _ _ _ Hh) in Hrun.
  destruct r as [p|e']; [done|]. inversion Hrun; subst e' w2 t2.
  unfold run_history in Hh. rewrite emit_then in Hh.
  destruct (agent_loop _ _ _ _ _ w) as [[r w3] t3] eqn:Hloop.
  inversion Hh; subst r w3 t.
  assert (Hiter : range 10 <> [] \/ @None AIMessage <> None) by by left.
  destruct (agent_loop_failure _ _ _ _ _ _ _ _ _ Hiter Hloop)
    as (request & w0 & e0 & Hi & He & Hl).
  exists request, w0, e0. split; [done|]. split; [done|].
  change (EvRun (agent_name self) query :: t3) with ([EvRun (agent_name self) query] ++ t3).
  by apply last_app_Some.
Qed.

End RunFailure.

(** ** The histories sent to the provider *)

Section Histories.

Context {W : Type}.
Implicit Types (self : @AgentRunner W) (w : W) (seed messages : list Message).

Lemma answered_turns_app turns more :
  answered_turns turns -> answered_turns more -> answered_turns (turns ++ more).
Proof.
  induction 1 as [|response results rest Hids _ IH]; intros Hmore; [done|].
  simpl. rewrite <- app_assoc. constructor; [done | by apply IH].
Qed.

Lemma conversation_turn seed messages response results :
  conversation seed messages ->
  map tool_call_id_of results = map (fun tc => Some (tc_id tc)) (tool_calls response) ->
  conversation seed ((messages ++ [AssistantMessage response]) ++ results).
Proof.
  intros (turns & -> & Hturns) Hids.
  exists (turns ++ AssistantMessage response :: results ++ []). split.
  - by rewrite app_nil_r, <- !app_assoc.
  - apply answered_turns_app; [done|]. constructor; [done | constructor].
Qed.

Lemma requests_retry_trace messages waits :
  requests (retry_trace messages waits) = replicate (S (length waits)) messages.
Proof.
  unfold retry_trace. simpl. f_equal.
  induction waits as [|n later IH]; [done|]. simpl. by rewrite <- IH.
Qed.

Lemma invoke_with_retry_requests self messages w :
  exists n, requests (_invoke_with_retry self messages MAX_RETRIES w).2 = replicate n messages.
Proof.
  rewrite invoke_with_retry_is_loop.
  destruct (retry_loop_shape self messages MAX_RETRIES
              (Z.to_nat (MAX_RETRIES - 0)) 0 INITIAL_WAIT_SECONDS w)
    as (waits & w0 & reply & Ht & _); [done | done |].
  cbv zeta in Ht. rewrite Ht. eexists. apply requests_retry_trace.
Qed.

Lemma sorted_replicate n messages :
  StronglySorted (fun a b : list Message => a `prefix_of` b) (replicate n messages).
Proof.
  induction n as [|n IH]; simpl; constructor; [done|].
  apply Forall_forall. intros ms Hin. by apply elem_of_replicate in Hin as [-> _].
Qed.

Lemma sorted_app (l1 l2 : list (list Message)) :
  StronglySorted (fun a b => a `prefix_of` b) l1 ->
  StronglySorted (fun a b => a `prefix_of` b) l2 ->
  (forall a b, a ∈ l1 -> b ∈ l2 -> a `prefix_of` b) ->
  StronglySorted (fun a b => a `prefix_of` b) (l1 ++ l2).
Proof.
  induction 1 as [|a l1 Hs IH Ha]; intros H2 Hcross; [done|].
  simpl. constructor.
  - apply IH; [done|]. intros x y Hx Hy. apply Hcross; [by apply list_elem_of_further | done].
  - apply Forall_app. split; [done|].
    apply Forall_forall. intros b Hb. apply Hcross; [apply list_elem_of_here | done].
Qed.

Lemma agent_loop_histories self tools_by_name seed iterations :
  forall messages prev w,
    conversation seed messages ->
    let outcome := agent_loop self tools_by_name iterations messages prev w in
    Forall (fun ms => conversation seed ms /\ messages `prefix_of` ms) (requests outcome.2)
    /\ StronglySorted (fun a b => a `prefix_of` b) (requests outcome.2)
    /\ (forall answer history,
          outcome.1.1 = Ok (answer, history) ->
          conversation seed history
          /\ messages `prefix_of` history
          /\ Forall (fun ms => ms `prefix_of` history) (requests outcome.2)).
Proof.
  induction iterations as [|i later IH]; intros messages prev w Hconv outcome; subst outcome.
  - simpl. destruct prev as [response|]; simpl.
    + split; [constructor|]. split; [constructor|].
      intros answer history [= <- <-]. by repeat split.
    + split; [constructor|]. split; [constructor|]. done.
  - destruct (invoke_with_retry_requests self messages w) as (n & Hreq).
    destruct (_invoke_with_retry self messages MAX_RETRIES w) as [[[response|e] w2] t1]
      eqn:Hretry; simpl in Hreq.
    2:{ simpl. erewrite bind_Raise by exact Hretry. simpl. rewrite Hreq.
        split; [|split; [apply sorted_replicate | done]].
        apply Forall_forall. intros ms Hin. by apply elem_of_replicate in Hin as [-> _]. }
    assert (Hmine : Forall (fun ms => ms = messages) (requests t1)).
    { rewrite Hreq. apply Forall_forall. intros ms Hin.
      by apply elem_of_replicate in Hin as [-> _]. }
    assert (Hsorted : StronglySorted (fun a b => a `prefix_of` b) (requests t1)).
    { rewrite Hreq. apply sorted_replicate. }
    destruct (tool_calls response) as [|c cs] eqn:Hcalls.
    + erewrite agent_loop_answer by eauto. simpl.
      assert (Hpre : messages `prefix_of` messages ++ [AssistantMessage response])
        by by apply prefix_app_r.
      split; [|split; [done|]].
      * eapply Forall_impl; [exact Hmine|]. intros ms ->. by split.
      * intros answer history [= <- <-]. split; [|split; [done|]].
        -- rewrite <- (app_nil_r (messages ++ _)).
           apply conversation_turn; [done|]. by rewrite Hcalls.
        -- eapply Forall_impl; [exact Hmine|]. by intros ms ->.
    + destruct (dispatch_tool_calls_total tools_by_name (c :: cs)
                  (messages ++ [AssistantMessage response]) w2)
        as (results & w3 & t2 & Hd & Hres & Hreq2 & _).
      rewrite <- Hcalls in Hd.
      erewrite agent_loop_dispatch by (eauto; by rewrite Hcalls).
      assert (Hconv2 : conversation seed ((messages ++ [AssistantMessage response]) ++ results)).
      { apply conversation_turn; [done|]. rewrite Hcalls. by eapply tool_results_ids. }
      assert (Hpre : messages `prefix_of` (messages ++ [AssistantMessage response]) ++ results).
      { rewrite <- app_assoc. by apply prefix_app_r. }
      specialize (IH _ (Some response) w3 Hconv2). cbv zeta in IH.
      destruct (agent_loop self tools_by_name later _ (Some response) w3) as [[r w4] t3].
      simpl in *. destruct IH as (IH1 & IH2 & IH3).
      rewrite !requests_app, Hreq2. simpl.
      split; [|split].
      * apply Forall_app. split.
        -- eapply Forall_impl; [exact Hmine|]. intros ms ->. by split.
        -- eapply Forall_impl; [exact IH1|]. intros ms [? ?]. split; [done|].
           by etrans.
      * apply sorted_app; [done | done |].
        intros a b Ha Hb.
        apply (proj1 (Forall_forall _ _) Hmine) in Ha. subst a.
        apply (proj1 (Forall_forall _ _) IH1) in Hb as [_ Hb]. by etrans.
      * intros answer history Hr. destruct (IH3 _ _ Hr) as (Hc & Hp & Hall).
        split; [done|]. split; [by etrans|].
        apply Forall_app. split; [|done].
        eapply Forall_impl; [exact Hmine|]. intros ms ->. by etrans.
Qed.

(** X17: every history a conversation loop sends to its provider is
    well-formed: it opens with the system prompt and the query, and then
    holds assistant messages, each followed by exactly one tool result per
    invocation, ids in invocation order. The history only grows: every
    request's history is a prefix of the later ones, and of the final
    history when the loop returns. *)
Theorem run_histories_well_formed self query w :
  let seed := [SystemMessage (system_prompt (config self)); HumanMessage query] in
  let outcome := run_history self query w in
  Forall (conversation seed) (requests outcome.2)
  /\ StronglySorted (fun a b => a `prefix_of` b) (requests outcome.2)
  /\ (forall answer history,
        outcome.1.1 = Ok (answer, history) ->
        conversation seed history
        /\ Forall (fun ms => ms `prefix_of` history) (requests outcome.2)).
Proof.
  intros seed outcome. subst outcome. unfold run_history. rewrite emit_then.
  assert (Hseed : conversation seed seed).
  { exists []. split; [by rewrite app_nil_r | constructor]. }
  pose proof (agent_loop_histories self (tools_by_name_of (tools self)) seed (range 10)
                seed None w Hseed) as H.
  cbv zeta in H. fold seed.
  destruct (agent_loop _ _ _ seed None w) as [[r w1] t]. simpl in *.
  destruct H as (H1 & H2 & H3).
  split; [|split; [done|]].
  - eapply Forall_impl; [exact H1|]. by intros ms [? _].
  - intros answer history Hr. destruct (H3 _ _ Hr) as (? & _ & ?). done.
Qed.

End Histories.

(** * Further properties of the delegation supervisor *)

Section SupervisorHistories.

Context {W : Type}.
Implicit Types (self : @Orchestrator W) (w : W) (messages : list Message).

Lemma run_requests_well_formed (runner : @AgentRunner W) task w :
  Forall well_formed_history (requests (run runner task w).2).
Proof.
  destruct (run_history runner task w) as [[r w1] t] eqn:Hh.
  rewrite (run_of_history _ _ _ _ _ _ Hh). simpl.
  unfold run_history in Hh. rewrite emit_then in Hh.
  set (seed := [SystemMessage (system_prompt (config runner)); HumanMessage task]) in *.
  assert (Hseed : conversation seed seed).
  { exists []. split; [by rewrite app_nil_r | constructor]. }
  pose proof (agent_loop_histories runner (tools_by_name_of (tools runner)) seed (range 10)
                seed None w Hseed) as (H & _).
  cbv zeta in H. destruct (agent_loop _ _ _ seed None w) as [[r' w'] t'].
  inversion Hh; subst r' w' t. simpl in *.
  eapply Forall_impl; [exact H|]. intros ms [Hc _]. by do 2 eexists.
Qed.

Lemma delegate_one_result self tc messages w :
  let outcome := delegate_one self tc messages w in
  Forall well_formed_history (requests outcome.2)
  /\ (forall messages1, outcome.1.1 = Ok messages1 ->
        exists text, messages1 = messages ++ [ToolMessage text (tc_id tc)]).
Proof.
  unfold delegate_one.
  destruct (agent_runners self !! get_or_empty (tc_args tc) "agent_name") as [runner|].
  - pose proof (run_requests_well_formed runner (get_or_empty (tc_args tc) "task") w) as Hr.
    unfold bind. destruct (run runner _ w) as [[[result|e] w1] t]; simpl in *.
    + rewrite app_nil_r. split; [done|]. intros messages1 [= <-]. by eexists.
    + split; [done|]. done.
  - simpl. split; [constructor|]. intros messages1 [= <-]. by eexists.
Qed.

Lemma delegate_all_result self calls :
  forall messages w,
    let outcome := delegate_all self calls messages w in
    Forall well_formed_history (requests outcome.2)
    /\ (forall messages1, outcome.1.1 = Ok messages1 ->
          exists results,
            messages1 = messages ++ results
            /\ map tool_call_id_of results = map (fun tc => Some (tc_id tc)) calls
            /\ assistant_messages results = []).
Proof.
  induction calls as [|tc later IH]; intros messages w; simpl.
  - split; [constructor|]. intros messages1 [= <-]. exists []. by rewrite app_nil_r.
  - pose proof (delegate_one_result self tc messages w) as [H1 H2]. cbv zeta in H1, H2.
    unfold bind. destruct (delegate_one self tc messages w) as [[[m|e] w1] t1]; simpl in *.
    2:{ by split. }
    destruct (H2 m eq_refl) as (text & ->).
    specialize (IH (messages ++ [ToolMessage text (tc_id tc)]) w1). cbv zeta in IH.
    destruct (delegate_all self later _ w1) as [[r w2] t2]. simpl in *.
    destruct IH as [IH1 IH2]. rewrite requests_app. split; [by apply Forall_app|].
    intros messages1 Hr. destruct (IH2 _ Hr) as (results & -> & Hids & Hno).
    exists (ToolMessage text (tc_id tc) :: results). rewrite <- app_assoc. simpl.
    split; [done|]. split; [by rewrite Hids|]. done.
Qed.

Lemma supervisor_loop_histories self prompt query iterations :
  let seed := [SystemMessage prompt; HumanMessage query] in
  forall messages prev w,
    conversation seed messages ->
    prev = last (assistant_messages messages) ->
    let outcome := supervisor_loop self iterations messages prev w in
    Forall well_formed_history (requests outcome.2)
    /\ (forall answer history,
          outcome.1.1 = Ok (answer, history) ->
          conversation seed history
          /\ (length (assistant_messages history)
              <= length (assistant_messages messages) + length iterations)%nat
          /\ exists response,
               last (assistant_messages history) = Some response
               /\ answer = content response).
Proof.
  intros seed.
  induction iterations as [|i later IH]; intros messages prev w Hconv Hprev outcome;
    subst outcome.
  - simpl. destruct prev as [response|]; simpl.
    + split; [constructor|]. intros answer history [= <- <-].
      split; [done|]. split; [lia|]. by exists response.
    + by split; [constructor|].
  - simpl.
    destruct (invoke (supervisor_with_tools self) messages w) as [[response|e] w1] eqn:Hi.
    2:{ erewrite bind_Raise by (by apply announced_call). simpl.
        split; [|done]. repeat constructor. by exists prompt, query. }
    erewrite bind_Ok by (by apply announced_call).
    assert (Hsent : well_formed_history messages) by by exists prompt, query.
    destruct (tool_calls response) as [|c cs] eqn:Hcalls.
    + simpl. split; [by repeat constructor|].
      intros answer history [= <- <-]. split; [|split].
      * rewrite <- (app_nil_r (messages ++ _)).
        apply conversation_turn; [done|]. by rewrite Hcalls.
      * rewrite assistant_messages_app, length_app. simpl. lia.
      * exists response. rewrite assistant_messages_app.
        change (assistant_messages [AssistantMessage response]) with [response].
        by rewrite last_snoc.
    + pose proof (delegate_all_result self (c :: cs)
                    (messages ++ [AssistantMessage response]) w1) as [Hd1 Hd2].
      cbv zeta in Hd1, Hd2. unfold bind.
      destruct (delegate_all self (c :: cs) _ w1) as [[[messages2|e] w2] t2]; simpl in *.
      2:{ split; [|done]. by constructor. }
      destruct (Hd2 _ eq_refl) as (results & -> & Hids & Hno).
      assert (Hconv2 : conversation seed ((messages ++ [AssistantMessage response]) ++ results)).
      { apply conversation_turn; [done|]. by rewrite Hcalls. }
      assert (Hlast : Some response
                      = last (assistant_messages
                                ((messages ++ [AssistantMessage response]) ++ results))).
      { rewrite !assistant_messages_app, Hno, app_nil_r.
        change (assistant_messages [AssistantMessage response]) with [response].
        by rewrite last_snoc. }
      specialize (IH _ (Some response) w2 Hconv2 Hlast). cbv zeta in IH.
      destruct (supervisor_loop self later _ (Some response) w2) as [[r w3] t3].
      simpl in *. destruct IH as [IH1 IH2].
      split.
      * constructor; [done|]. rewrite requests_app. by apply Forall_app.
      * intros answer history Hr. destruct (IH2 _ _ Hr) as (Hc & Hlen & Hresp).
        split; [done|]. split; [|done].
        rewrite !assistant_messages_app, Hno, app_nil_r, length_app in Hlen.
        simpl in Hlen. lia.
Qed.

(** X18: the supervisor's run. Every history that reaches a provider during
    the run, the supervisor's own or a delegate's, is well-formed: a system
    prompt, a query, and then assistant messages each followed by exactly
    one tool result per invocation, ids in order. When the run returns, its
    final history opens with the supervisor's prompt and the query and is
    well-formed, the supervisor has spoken at least once and at most 10
    times, and the answer is the content of its last message. *)
Theorem supervisor_histories_well_formed self query w :
  let seed := [SystemMessage (system_prompt (supervisor_config self)); HumanMessage query] in
  let outcome := orchestrate_history self query w in
  Forall well_formed_history (requests outcome.2)
  /\ (forall answer history,
        outcome.1.1 = Ok (answer, history) ->
        conversation seed history
        /\ (1 <= length (assistant_messages history) <= 10)%nat
        /\ exists response,
             last (assistant_messages history) = Some response
             /\ answer = content response).
Proof.
  intros seed outcome. subst outcome. unfold orchestrate_history.
  assert (Hseed : conversation seed seed).
  { exists []. split; [by rewrite app_nil_r | constructor]. }
  pose proof (supervisor_loop_histories self (system_prompt (supervisor_config self)) query
                (range 10) seed None w Hseed eq_refl) as [H1 H2].
  cbv zeta in H1, H2. split; [done|].
  intros answer history Hr. destruct (H2 _ _ Hr) as (Hc & Hlen & response & Hl & Ha).
  split; [done|]. split; [|by exists response].
  split; [|exact Hlen].
  destruct (assistant_messages history); [done | simpl; lia].
Qed.

End SupervisorHistories.

(** * Tool selection *)

Section ToolFacts.

Context {W : Type}.
Variable implementation : string -> gmap string string -> W -> result string * W.
Variable scoped : Z -> gmap string string -> W -> result string * W.

Lemma dict_get_registry name :
  dict_get (TOOL_REGISTRY implementation) name
  = if decide (name ∈ registry_names) then Some (tool implementation name) else None.
Proof.
  unfold TOOL_REGISTRY, registry_names. cbn [dict_get].
  destruct (String.eqb_spec "query_knowledge_base" name) as [<-|?];
    [rewrite decide_True; [done | by repeat constructor]|].
  destruct (String.eqb_spec "list_projects" name) as [<-|?];
    [rewrite decide_True; [done | by repeat constructor]|].
  destruct (String.eqb_spec "web_search" name) as [<-|?];
    [rewrite decide_True; [done | by repeat constructor]|].
  destruct (String.eqb_spec "get_weather" name) as [<-|?];
    [rewrite decide_True; [done | by repeat constructor]|].
  destruct (String.eqb_spec "calculate_sum" name) as [<-|?];
    [rewrite decide_True; [done | by repeat constructor]|].
  destruct (String.eqb_spec "save_markdown" name) as [<-|?];
    [rewrite decide_True; [done | by repeat constructor]|].
  rewrite decide_False; [done|]. intros Hin.
  repeat (apply elem_of_cons in Hin as [->|Hin]; [done|]). by apply elem_of_nil in Hin.
Qed.

Lemma get_tools_by_names_filter tool_names :
  get_tools_by_names implementation tool_names
  = map (tool implementation) (filter (fun n => n ∈ registry_names) tool_names).
Proof.
  induction tool_names as [|n later IH]; [done|].
  cbn [get_tools_by_names]. rewrite dict_get_registry, filter_cons.
  destruct (decide (n ∈ registry_names)); simpl; by rewrite IH.
Qed.

Lemma existsb_all config_tools :
  existsb (String.eqb "all") config_tools = bool_decide ("all" ∈ config_tools).
Proof.
  induction config_tools as [|n later IH]; [done|]. cbn [existsb]. rewrite IH.
  destruct (String.eqb_spec "all" n) as [<-|Hne]; cbn [orb].
  - symmetry. apply bool_decide_eq_true. apply list_elem_of_here.
  - apply bool_decide_ext. rewrite elem_of_cons. by intuition.
Qed.

(** X19: which tools an agent gets. Every tool is one of the registry, named
    after its function. An agent whose configuration lists "all" gets the
    six tools of the registry in the registry's order, the supervisor too;
    otherwise the supervisor gets none, and any other agent gets the tools
    its configuration names, in that order and as often as named, the names
    the registry does not know being left out. An agent without a
    configuration raises "Unknown agent". *)
Theorem tool_selection configs agent_name :
  get_tools_for_agent implementation configs agent_name
  = match dict_get configs agent_name with
    | Some config_tools =>
        Ok (map (tool implementation)
              (if bool_decide ("all" ∈ config_tools) then registry_names
               else if bool_decide (agent_name = "supervisor") then []
               else filter (fun n => n ∈ registry_names) config_tools))
    | None =>
        Raise (Exception ("Unknown agent: " +:+ agent_name +:+ ". Available agents: "
                          +:+ PyStr.join ", " (map fst configs)))
    end.
Proof.
  unfold get_tools_for_agent, get_agent_config_tools.
  destruct (dict_get configs agent_name) as [config_tools|]; [|done].
  rewrite existsb_all. destruct (bool_decide ("all" ∈ config_tools)); [done|].
  destruct (String.eqb_spec agent_name "supervisor") as [->|Hne].
  - by rewrite bool_decide_eq_true_2.
  - rewrite bool_decide_eq_false_2 by done. by rewrite get_tools_by_names_filter.
Qed.

(** X20: the project filter. Without a project (none, or project 0) the
    agent's tools are left as they are. With a project every tool keeps its
    place, and the one named "query_knowledge_base" is replaced by the tool
    scoped to the project, whose name is "query_project_knowledge_base": no
    tool of the runner is named "query_knowledge_base" any more, so an
    invocation under that name is answered "Unknown tool:
    query_knowledge_base" without any capability being invoked. *)
Theorem project_filter configs agent_name project_id tools :
  get_tools_for_agent implementation configs agent_name = Ok tools ->
  exists filtered,
    _get_tools_with_project_filter implementation scoped configs agent_name project_id
    = Ok filtered
    /\ (project_given project_id = false -> filtered = tools)
    /\ (project_given project_id = true ->
        map tool_name filtered = map scoped_name (map tool_name tools)
        /\ (forall i t, tools !! i = Some t -> tool_name t <> "query_knowledge_base" ->
                        filtered !! i = Some t)
        /\ (forall tool_call w,
              tc_name tool_call = "query_knowledge_base" ->
              tool_result_text (tools_by_name_of filtered) tool_call w
              = (Ok "Unknown tool: query_knowledge_base", w, []))).
Proof.
  intros Htools. unfold _get_tools_with_project_filter. rewrite Htools.
  destruct (project_given project_id) eqn:Hp.
  2:{ exists tools. by repeat split. }
  eexists. split; [reflexivity|]. split; [done|]. intros _.
  set (scoped_tool := create_project_scoped_knowledge_base_tool scoped (default 0 project_id)).
  assert (Hnames : map tool_name
                     (map (fun t => if String.eqb (tool_name t) "query_knowledge_base"
                                    then scoped_tool else t) tools)
                   = map scoped_name (map tool_name tools)).
  { rewrite !map_map. apply map_ext. intros t. unfold scoped_name.
    by destruct (String.eqb (tool_name t) "query_knowledge_base"). }
  split; [exact Hnames|]. split.
  - intros i t Hi Hne. rewrite list_lookup_fmap, Hi. simpl.
    by destruct (String.eqb_spec (tool_name t) "query_knowledge_base").
  - intros tool_call w Hname. unfold tool_result_text. rewrite Hname.
    assert (Hnone : tools_by_name_of
                      (map (fun t => if String.eqb (tool_name t) "query_knowledge_base"
                                     then scoped_tool else t) tools)
                      !! "query_knowledge_base" = None).
    { apply tools_by_name_None. rewrite Hnames. intros Hin.
      apply list_elem_of_fmap in Hin as (n & Hn & _). unfold scoped_name in Hn.
      destruct (String.eqb_spec n "query_knowledge_base"); [done | congruence]. }
    by rewrite Hnone.
Qed.

End ToolFacts.

(** * The delegation tool *)

Section DelegationToolFacts.

Context {W : Type}.
Implicit Types (self : @Orchestrator W) (w : W).

(** X21: the tool [delegate_to_agent] and the supervisor's own handling of
    a delegation agree on every registered agent: the supervisor appends
    the tool result whose text is what the tool returns, "[<display
    name>]: <answer>", with the same events and the same state, and fails
    when the tool fails. For an unregistered agent neither runs anything;
    the supervisor's text is "Error: Unknown agent '<name>'", and the
    tool's is that text followed by the list of the available agents. *)
Theorem delegation_tool_agrees self keys tool_call messages w :
  let agent_name := get_or_empty (tc_args tool_call) "agent_name" in
  let task := get_or_empty (tc_args tool_call) "task" in
  (is_Some (agent_runners self !! agent_name) ->
   delegate_one self tool_call messages w
   = (text <- delegate_to_agent self keys agent_name task ;
      ret (messages ++ [ToolMessage text (tc_id tool_call)])) w)
  /\ (agent_runners self !! agent_name = None ->
      exists text,
        delegate_one self tool_call messages w
        = (Ok (messages ++ [ToolMessage text (tc_id tool_call)]), w, [])
        /\ text = "Error: Unknown agent '" +:+ agent_name +:+ "'"
        /\ delegate_to_agent self keys agent_name task w
           = (Ok (text +:+ ". Available agents: " +:+ PyStr.join ", " keys), w, [])).
Proof.
  intros agent_name task. unfold delegate_one, delegate_to_agent.
  fold agent_name. fold task. split.
  - intros [runner Hr]. rewrite Hr. unfold bind, ret.
    destruct (run runner task w) as [[[result|e] w1] t]; [|done].
    by rewrite !app_nil_r.
  - intros Hnone. rewrite Hnone. eexists. split; [reflexivity|]. split; [done|].
    unfold ret. by rewrite !append_assoc.
Qed.

End DelegationToolFacts.

(** * Mentions in a chat query *)

Section MentionFacts.

Lemma take_word_word s : all_chars PyStr.isword (Agents.take_word s) = true.
Proof.
  induction s as [|c r IH]; [done|]. simpl.
  destruct (PyStr.isword c) eqn:Hc; [|done]. simpl. by rewrite Hc.
Qed.

Lemma take_word_app m rest :
  all_chars PyStr.isword m = true -> Agents.take_word rest = "" ->
  Agents.take_word (m +:+ rest) = m.
Proof.
  intros Hm Hrest. induction m as [|c m IH]; [done|].
  simpl in Hm. apply andb_true_iff in Hm as [Hc Hm].
  rewrite append_cons. simpl. rewrite Hc. by rewrite IH.
Qed.

Lemma search_mention_Some s m :
  Agents.search_mention s = Some m ->
  m <> "" /\ all_chars PyStr.isword m = true
  /\ exists pre rest, s = pre +:+ "@" +:+ m +:+ rest /\ Agents.take_word rest = "".
Proof.
  induction s as [|c r IH]; [done|]. simpl.
  assert (Hlater : Agents.search_mention r = Some m ->
                   m <> "" /\ all_chars PyStr.isword m = true
                   /\ exists pre rest, String c r = pre +:+ "@" +:+ m +:+ rest
                                       /\ Agents.take_word rest = "").
  { intros H. destruct (IH H) as (Hne & Hw & pre & rest & -> & Hrest).
    split; [done|]. split; [done|]. by exists (String c pre), rest. }
  destruct (Ascii.eqb_spec c "@") as [->|Hc]; [|done].
  destruct (Agents.take_word r) as [|c0 m0] eqn:Hword; [done|].
  intros [= <-]. split; [done|]. split; [rewrite <- Hword; apply take_word_word|].
  exists "". clear IH Hlater. revert c0 m0 Hword.
  induction r as [|x r IH]; intros c0 m0 Hword; [done|].
  simpl in Hword. destruct (PyStr.isword x) eqn:Hx; [|done].
  injection Hword as <- Hword.
  destruct (Agents.take_word r) as [|c1 m1] eqn:Hr.
  - subst m0. exists r. split; [done|]. done.
  - destruct (IH c1 m1 eq_refl) as (rest & Hrest & Hnone).
    exists rest. split; [|done]. subst m0.
    change ("" +:+ "@" +:+ String x (String c1 m1) +:+ rest)
      with (String "@" (String x ("" +:+ String c1 m1 +:+ rest))).
    change ("" +:+ "@" +:+ String c1 m1 +:+ rest)
      with (String "@" ("" +:+ String c1 m1 +:+ rest)) in Hrest.
    by injection Hrest as ->.
Qed.

Lemma search_mention_none s :
  all_chars not_at s = true -> Agents.search_mention s = None.
Proof.
  induction s as [|c r IH]; [done|]. simpl. unfold not_at at 1.
  destruct (Ascii.eqb c "@"); [done|]. exact IH.
Qed.

Lemma aliases_agree : Agents.AGENT_ALIASES = AGENT_ALIASES.
Proof. reflexivity. Qed.

(** X22: the agent of a mention. [parse_agent_mention] names an agent only
    for the first "@" that is followed by word characters, when the word
    after it is, in any letter case, one of the aliases; the agent is then
    one of the three agent names, and it is the agent the markdown
    pipeline's [resolve_agent_alias] gives for the same mention. In every
    other case (no "@" followed by a word character, or an unknown alias)
    there is no agent and the query is returned as it is. *)
Theorem mention_agent query :
  (forall agent_name,
      (Agents.parse_agent_mention query).1 = Some agent_name ->
      exists m,
        Agents.search_mention query = Some m
        /\ find_alias (PyStr.lower m) Agents.AGENT_ALIASES = Some agent_name
        /\ agent_name ∈ canonical_agents
        /\ agent_name = resolve_agent_alias (Some m))
  /\ ((Agents.parse_agent_mention query).1 = None ->
      (Agents.parse_agent_mention query).2 = query)
  /\ (all_chars not_at query = true -> Agents.parse_agent_mention query = (None, query)).
Proof.
  unfold Agents.parse_agent_mention. split; [|split].
  - intros agent_name.
    destruct (Agents.search_mention query) as [m|] eqn:Hs; [|done].
    destruct (find_alias (PyStr.lower m) Agents.AGENT_ALIASES) as [a|] eqn:Hf; [|done].
    cbn [fst]. intros [= ->]. exists m. split; [done|]. split; [done|].
    split; [rewrite aliases_agree in Hf; by eapply find_alias_canonical|].
    apply search_mention_Some in Hs as (Hne & _).
    destruct m as [|c0 m0]; [done|]. rewrite aliases_agree in Hf.
    change (resolve_agent_alias (Some (String c0 m0)))
      with (match find_alias (PyStr.lower (String c0 m0)) AGENT_ALIASES with
            | Some a => a
            | None => "research"
            end).
    by rewrite Hf.
  - destruct (Agents.search_mention query) as [m|]; [|done].
    by destruct (find_alias (PyStr.lower m) Agents.AGENT_ALIASES).
  - intros Hno. by rewrite search_mention_none.
Qed.


Lemma eqb_lower_at c :
  Ascii.eqb (PyStr.lower_char "@") (PyStr.lower_char c) = Ascii.eqb "@" c.
Proof. destruct c as [[] [] [] [] [] [] [] []]; reflexivity. Qed.

Lemma match_ci_not_at pattern c r :
  not_at c = true -> Agents.match_ci ("@" +:+ pattern) (String c r) = None.
Proof.
  intros Hc. change ("@" +:+ pattern) with (String "@" pattern).
  cbn [Agents.match_ci]. rewrite eqb_lower_at.
  unfold not_at in Hc. rewrite Ascii.eqb_sym. by destruct (Ascii.eqb c "@").
Qed.

Lemma sub_loop_pre pattern pre s :
  all_chars not_at pre = true ->
  Agents.sub_loop ("@" +:+ pattern) 0 (pre +:+ s)
  = pre +:+ Agents.sub_loop ("@" +:+ pattern) 0 s.
Proof.
  induction pre as [|c pre IH]; intros Hpre; [done|].
  simpl in Hpre. apply andb_true_iff in Hpre as [Hc Hpre].
  change (String c pre +:+ s) with (String c (pre +:+ s)).
  change (String c pre +:+ Agents.sub_loop ("@" +:+ pattern) 0 s)
    with (String c (pre +:+ Agents.sub_loop ("@" +:+ pattern) 0 s)).
  cbn [Agents.sub_loop].
  rewrite (match_ci_not_at pattern c _ Hc). by rewrite IH.
Qed.

Lemma sub_loop_no_at pattern s :
  all_chars not_at s = true -> Agents.sub_loop ("@" +:+ pattern) 0 s = s.
Proof.
  intros Hs. rewrite <- (append_nil_r s) at 1.
  rewrite (sub_loop_pre pattern s "" Hs). by rewrite append_nil_r.
Qed.

Lemma sub_loop_skip pattern s tail :
  Agents.sub_loop pattern (String.length s) (s +:+ tail) = Agents.sub_loop pattern 0 tail.
Proof.
  induction s as [|c s IH]; [by destruct tail|]. rewrite append_cons. exact IH.
Qed.

Lemma match_ci_lower m rest : Agents.match_ci (PyStr.lower m) (m +:+ rest) = Some rest.
Proof.
  induction m as [|c m IH]; [done|]. rewrite append_cons. cbn [PyStr.lower Agents.match_ci].
  by rewrite lower_char_idem, Ascii.eqb_refl.
Qed.

Lemma lstrip_split s : exists ws, s = ws +:+ PyStr.lstrip s.
Proof.
  induction s as [|c s [ws IH]]; [by exists ""|]. simpl.
  destruct (PyStr.isspace c); [|by exists ""].
  exists (String c ws). by rewrite append_cons, <- IH.
Qed.

Lemma lstrip_no_at s : all_chars not_at s = true -> all_chars not_at (PyStr.lstrip s) = true.
Proof.
  induction s as [|c s IH]; [done|]. intros H. simpl.
  destruct (PyStr.isspace c); [|done]. simpl in H.
  apply andb_true_iff in H as [_ H]. by apply IH.
Qed.

Lemma search_mention_found pre m rest :
  all_chars not_at pre = true -> m <> "" -> all_chars PyStr.isword m = true ->
  Agents.take_word rest = "" ->
  Agents.search_mention (pre +:+ "@" +:+ m +:+ rest) = Some m.
Proof.
  intros Hpre Hne Hm Hrest. induction pre as [|c pre IH].
  - change ("" +:+ "@" +:+ m +:+ rest) with (String "@" (m +:+ rest)).
    cbn [Agents.search_mention]. rewrite Ascii.eqb_refl.
    rewrite (take_word_app m rest Hm Hrest). by destruct m.
  - simpl in Hpre. apply andb_true_iff in Hpre as [Hc Hpre].
    rewrite append_cons. cbn [Agents.search_mention].
    unfold not_at in Hc. destruct (Ascii.eqb c "@"); [done|]. by apply IH.
Qed.

(** X23: the usual query. When the query holds one "@", followed by a word
    that is an alias in any letter case, the agent of the alias is named
    and the cleaned query is the query without the mention and the
    whitespace after it, stripped. *)
Theorem mention_removed pre m rest agent_name :
  all_chars not_at pre = true ->
  m <> "" ->
  all_chars PyStr.isword m = true ->
  Agents.take_word rest = "" ->
  all_chars not_at rest = true ->
  find_alias (PyStr.lower m) Agents.AGENT_ALIASES = Some agent_name ->
  Agents.parse_agent_mention (pre +:+ "@" +:+ m +:+ rest)
  = (Some agent_name, PyStr.strip (pre +:+ PyStr.lstrip rest)).
Proof.
  intros Hpre Hne Hm Hword Hrest Halias. unfold Agents.parse_agent_mention.
  rewrite (search_mention_found pre m rest Hpre Hne Hm Hword). cbv zeta.
  rewrite Halias. do 2 f_equal. unfold Agents.sub.
  rewrite (sub_loop_pre (PyStr.lower m) pre _ Hpre). f_equal.
  change ("@" +:+ m +:+ rest) with (String "@" (m +:+ rest)).
  cbn [Agents.sub_loop].
  change ("@" +:+ PyStr.lower m) with (String "@" (PyStr.lower m)).
  cbn [Agents.match_ci]. rewrite Ascii.eqb_refl, match_ci_lower.
  destruct (lstrip_split rest) as [ws Hws].
  assert (Hskip : (String.length (String "@" (m +:+ rest))
                   - String.length (PyStr.lstrip rest) - 1)%nat
                  = String.length (m +:+ ws)).
  { rewrite Hws at 1. cbn [String.length]. rewrite !length_append. lia. }
  rewrite Hskip.
  replace (m +:+ rest) with ((m +:+ ws) +:+ PyStr.lstrip rest)
    by (by rewrite append_assoc, <- Hws).
  rewrite sub_loop_skip.
  change (String "@" (PyStr.lower m)) with ("@" +:+ PyStr.lower m).
  apply sub_loop_no_at. by apply lstrip_no_at.
Qed.

End MentionFacts.

(** * The chat loop *)

Section ChatFacts.

Context {W : Type}.
Context (markup_error : string -> option exn).
Context (format_exc : exn -> string).
Context (new_runner : string -> option Z -> bool -> W -> result (@AgentRunner W) * W).
Variables (project_id : option Z) (debug : bool).

Abbreviation chat_loop :=
  (Agents.chat_loop markup_error format_exc new_runner project_id debug).

(** The guarded turn yields the outcome of the agent's run, unless that is
    a failure whose print the console refuses. *)
Lemma chat_turn_outcome agent_name full_query w :
  try_except
    (runner <- call (new_runner agent_name project_id debug) ;
     response <- run runner full_query ;
     ret (Ok response))
    (fun e =>
       (console_print markup_error (Agents.failure_banner e) ;;;
        ((if debug
          then console_print markup_error (Agents.traceback_banner (format_exc e))
          else ret tt) ;;;
         ret (Raise e)))) w
  = (let '(outcome, w1, t) :=
       run_single_agent new_runner agent_name full_query project_id debug w in
     match outcome with
     | Ok response => (Ok (Ok response), w1, t)
     | Raise e =>
         match handler_failure markup_error format_exc debug e with
         | Some refusal => (Raise refusal, w1, t)
         | None => (Ok (Raise e), w1, t)
         end
     end).
Proof.
  unfold run_single_agent, handler_failure, try_except, bind, call, ret, console_print, raise.
  destruct (new_runner agent_name project_id debug w) as [[runner|e] w0]; cbn.
  - destruct (run runner full_query w0) as [[[response|e] w1] t]; cbn;
      [by rewrite ?app_nil_r|].
    destruct (markup_error (Agents.failure_banner e)); cbn; [by rewrite ?app_nil_r|].
    destruct debug; cbn; [|by rewrite ?app_nil_r].
    destruct (markup_error (Agents.traceback_banner (format_exc e))); cbn;
      by rewrite ?app_nil_r.
  - destruct (markup_error (Agents.failure_banner e)); cbn; [done|].
    destruct debug; cbn; [|done].
    by destruct (markup_error (Agents.traceback_banner (format_exc e))).
Qed.

Lemma chat_loop_query line later chat_history printed w :
  is_query line = true ->
  chat_loop (line :: later) chat_history printed w
  = (let '(outcome, w1, t1) :=
       run_single_agent new_runner (chat_agent line)
         (Agents.chat_query chat_history (chat_text line)) project_id debug w in
     match outcome with
     | Ok response =>
         let '(r, w2, t2) :=
           chat_loop later (chat_history ++ [(chat_text line, chat_agent line, response)])
             (printed ++ [Ok response]) w1 in
         (r, w2, t1 ++ t2)
     | Raise e =>
         match handler_failure markup_error format_exc debug e with
         | Some refusal => (Raise refusal, w1, t1)
         | None =>
             let '(r, w2, t2) := chat_loop later chat_history (printed ++ [Raise e]) w1 in
             (r, w2, t1 ++ t2)
         end
     end).
Proof.
  unfold is_query, is_exit, is_clear, is_passed_over. intros Hq.
  apply andb_true_iff in Hq as [Hq Hpass].
  apply andb_true_iff in Hq as [Hexit Hclear].
  apply negb_true_iff in Hexit, Hclear, Hpass.
  apply orb_false_iff in Hpass as [Hhelp Hblank].
  cbn [Agents.chat_loop]. cbv zeta. rewrite Hexit, Hclear, Hhelp, Hblank.
  unfold chat_agent, chat_text.
  destruct (Agents.parse_agent_mention (PyStr.strip line)) as [mentioned cleaned_query].
  cbn [fst snd].
  set (agent_name := match mentioned with
                     | Some a => if PyStr.truthy a then a else "research"
                     | None => "research"
                     end).
  unfold bind at 1. rewrite chat_turn_outcome.
  destruct (run_single_agent new_runner agent_name _ project_id debug w)
    as [[[response|e] w1] t1]; [reflexivity|].
  by destruct (handler_failure markup_error format_exc debug e).
Qed.

Lemma chat_loop_emits inputs :
  forall chat_history printed,
    emits_only not_a_write (chat_loop inputs chat_history printed).
Proof.
  induction inputs as [|line later IH]; intros chat_history printed.
  - apply emits_only_ret.
  - cbn [Agents.chat_loop]. cbv zeta.
    destruct (String.eqb _ "exit"); [apply emits_only_ret|].
    destruct (String.eqb _ "clear"); [apply IH|].
    destruct (String.eqb _ "help"); [apply IH|].
    destruct (negb (PyStr.truthy (PyStr.strip line))); [apply IH|].
    destruct (Agents.parse_agent_mention (PyStr.strip line)) as [mentioned cleaned_query].
    apply emits_only_bind.
    + apply emits_only_try.
      * apply emits_only_bind; [apply emits_only_call|]. intros runner.
        apply emits_only_bind; [apply run_emits | intros r; apply emits_only_ret].
      * intros e. apply emits_only_bind; [apply console_print_emits|]. intros _.
        apply emits_only_bind; [|intros _; apply emits_only_ret].
        destruct debug; [apply console_print_emits | apply emits_only_ret].
    + intros [response|e]; apply IH.
Qed.

Lemma handler_failure_console e refusal :
  handler_failure markup_error format_exc debug e = Some refusal ->
  console_failure markup_error refusal.
Proof.
  unfold handler_failure.
  destruct (markup_error (Agents.failure_banner e)) as [e1|] eqn:H1.
  - intros [= <-]. by eexists.
  - destruct debug; [|done]. intros H2. by eexists.
Qed.

(** The loop returns with at most one reply per line, or raises a refusal
    of the console. *)
Lemma chat_loop_outcome inputs :
  forall chat_history printed w,
    match (chat_loop inputs chat_history printed w).1.1 with
    | Ok (history, all) =>
        exists replies,
          all = printed ++ replies
          /\ (length replies <= length inputs)%nat
          /\ (length history <= length chat_history + length replies)%nat
    | Raise e => console_failure markup_error e
    end.
Proof.
  induction inputs as [|line later IH]; intros chat_history printed w.
  - exists []. rewrite app_nil_r. simpl. split; [done|]. lia.
  - destruct (is_query line) eqn:Hq.
    + rewrite (chat_loop_query _ _ _ _ _ Hq).
      destruct (run_single_agent new_runner _ _ project_id debug w)
        as [[[response|e] w1] t1].
      * specialize (IH (chat_history ++ [(chat_text line, chat_agent line, response)])
                      (printed ++ [Ok response]) w1).
        destruct (chat_loop later _ _ w1) as [[[[history all]|e] w2] t2]; cbn in *; [|done].
        destruct IH as (replies & -> & Hlen & Hh).
        exists (Ok response :: replies). rewrite <- app_assoc. split; [done|].
        rewrite length_app in Hh. simpl in *. lia.
      * destruct (handler_failure markup_error format_exc debug e) as [refusal|] eqn:Hh.
        { cbn. by eapply handler_failure_console. }
        specialize (IH chat_history (printed ++ [Raise e]) w1).
        destruct (chat_loop later _ _ w1) as [[[[history all]|e'] w2] t2]; cbn in *; [|done].
        destruct IH as (replies & -> & Hlen & Hh').
        exists (Raise e :: replies). rewrite <- app_assoc. split; [done|].
        simpl. lia.
    + unfold is_query, is_exit, is_clear, is_passed_over in Hq.
      cbn [Agents.chat_loop]. cbv zeta.
      destruct (String.eqb _ "exit") eqn:Hexit.
      { exists []. rewrite app_nil_r. simpl. split; [done|]. lia. }
      destruct (String.eqb _ "clear") eqn:Hclear.
      { specialize (IH [] printed w).
        destruct (Agents.chat_loop _ _ _ _ _ later _ _ w) as [[[[history all]|e'] w2] t2];
          cbn in *; [|done].
        destruct IH as (replies & -> & Hlen & Hh').
        exists replies. split; [done|]. lia. }
      assert (Hrest : forall m : M W (list Agents.Turn * list (result string)),
                 m = chat_loop later chat_history printed ->
                 match (m w).1.1 with
                 | Ok (history, all) =>
                     exists replies,
                       all = printed ++ replies
                       /\ (length replies <= length (line :: later))%nat
                       /\ (length history <= length chat_history + length replies)%nat
                 | Raise e => console_failure markup_error e
                 end).
      { intros m ->. specialize (IH chat_history printed w).
        destruct (Agents.chat_loop _ _ _ _ _ later _ _ w) as [[[[history all]|e'] w2] t2];
          cbn in *; [|done].
        destruct IH as (replies & -> & Hlen & Hh').
        exists replies. split; [done|]. lia. }
      destruct (String.eqb _ "help") eqn:Hhelp; [by apply Hrest|].
      destruct (negb (PyStr.truthy (PyStr.strip line))) eqn:Hblank; [by apply Hrest | done].
Qed.

(** X25: the chat fails only in printing a failure. [chat_mode] writes no
    file; when it returns, there is at most one reply per line and at most
    one turn in the history per reply; and what it raises is what the
    console raised on a text. A query line is run by its agent with the
    prompt built from the history: when the agent answers, exactly the turn
    (query, agent, response) is appended and the loop goes on; when the run
    (or the construction of the agent) raises, the failure is printed,
    with the traceback under [debug]; if the console refuses one of these
    prints, the refusal leaves the chat at this line, and otherwise the
    history stays as it was and the loop goes on with the next line. *)
Theorem chat_fails_only_in_printing inputs w :
  (let '(outcome, w1, t) :=
     Agents.chat_mode markup_error format_exc new_runner project_id debug inputs w in
   writes t = []
   /\ match outcome with
      | Ok (history, replies) =>
          (length replies <= length inputs)%nat /\ (length history <= length replies)%nat
      | Raise e => console_failure markup_error e
      end)
  /\ (forall line later chat_history printed w0,
        is_query line = true ->
        chat_loop (line :: later) chat_history printed w0
        = (let '(outcome, w1, t1) :=
             run_single_agent new_runner (chat_agent line)
               (Agents.chat_query chat_history (chat_text line)) project_id debug w0 in
           match outcome with
           | Ok response =>
               let '(r, w2, t2) :=
                 chat_loop later
                   (chat_history ++ [(chat_text line, chat_agent line, response)])
                   (printed ++ [Ok response]) w1 in
               (r, w2, t1 ++ t2)
           | Raise e =>
               match handler_failure markup_error format_exc debug e with
               | Some refusal => (Raise refusal, w1, t1)
               | None =>
                   let '(r, w2, t2) :=
                     chat_loop later chat_history (printed ++ [Raise e]) w1 in
                   (r, w2, t1 ++ t2)
               end
           end)).
Proof.
  split; [|intros; by apply chat_loop_query].
  unfold Agents.chat_mode.
  pose proof (chat_loop_outcome inputs [] [] w) as Hout.
  pose proof (chat_loop_emits inputs [] [] w) as He. apply writes_none in He.
  destruct (chat_loop inputs [] [] w) as [[outcome w1] t]. cbn [fst snd] in *.
  split; [exact He|]. destruct outcome as [[history all]|e]; [|exact Hout].
  destruct Hout as (replies & -> & Hlen & Hh). simpl in *. lia.
Qed.

Lemma chat_loop_app pre :
  forall post chat_history printed w,
    existsb is_exit pre = false ->
    chat_loop (pre ++ post) chat_history printed w
    = (match chat_loop pre chat_history printed w with
       | (Ok (history, replies), w1, t1) =>
           let '(r, w2, t2) := chat_loop post history replies w1 in (r, w2, t1 ++ t2)
       | (Raise e, w1, t1) => (Raise e, w1, t1)
       end).
Proof.
  induction pre as [|line pre IH]; intros post chat_history printed w Hno.
  - simpl. by destruct (chat_loop post chat_history printed w) as [[r w2] t2].
  - simpl in Hno. apply orb_false_iff in Hno as [Hexit Hno].
    destruct (is_query line) eqn:Hq.
    + change ((line :: pre) ++ post) with (line :: pre ++ post).
      rewrite !(chat_loop_query _ _ _ _ _ Hq).
      destruct (run_single_agent new_runner _ _ project_id debug w)
        as [[[response|e] w1] t1].
      * rewrite (IH post _ _ w1 Hno).
        destruct (chat_loop pre _ _ w1) as [[[[history replies]|e] w2] t2]; [|done].
        destruct (chat_loop post history replies w2) as [[r w3] t3].
        by rewrite app_assoc.
      * destruct (handler_failure markup_error format_exc debug e); [done|].
        rewrite (IH post _ _ w1 Hno).
        destruct (chat_loop pre _ _ w1) as [[[[history replies]|e'] w2] t2]; [|done].
        destruct (chat_loop post history replies w2) as [[r w3] t3].
        by rewrite app_assoc.
    + unfold is_query in Hq. rewrite Hexit in Hq. unfold is_exit in Hexit.
      unfold is_clear, is_passed_over in Hq.
      change ((line :: pre) ++ post) with (line :: pre ++ post).
      cbn [Agents.chat_loop]. cbv zeta. rewrite Hexit.
      destruct (String.eqb _ "clear"); [by apply IH|].
      destruct (String.eqb _ "help"); [by apply IH|].
      destruct (negb (PyStr.truthy (PyStr.strip line))); [by apply IH | done].
Qed.

(** X26: "exit" ends the chat as the end of the input does. With an exit
    line (any letter case, whitespace around it ignored) after lines that
    are not exit lines, the chat returns what it returns for those lines
    alone, with their events and state: nothing typed after "exit" is
    processed. And the chat is sequential: the lines after a prefix without
    exit are processed from the history, the replies and the state the
    prefix leaves. *)
Theorem chat_exit pre line post chat_history printed w :
  existsb is_exit pre = false ->
  is_exit line = true ->
  chat_loop (pre ++ line :: post) chat_history printed w
  = chat_loop pre chat_history printed w
  /\ (forall more,
        chat_loop (pre ++ more) chat_history printed w
        = (match chat_loop pre chat_history printed w with
           | (Ok (history, replies), w1, t1) =>
               let '(r, w2, t2) := chat_loop more history replies w1 in (r, w2, t1 ++ t2)
           | (Raise e, w1, t1) => (Raise e, w1, t1)
           end)).
Proof.
  intros Hno Hexit. split; [|intros more; by apply chat_loop_app].
  rewrite (chat_loop_app pre _ _ _ _ Hno).
  destruct (chat_loop pre chat_history printed w) as [[[[history replies]|e] w1] t1]; [|done].
  cbn [Agents.chat_loop]. cbv zeta. unfold is_exit in Hexit. rewrite Hexit.
  unfold ret. by rewrite app_nil_r.
Qed.

End ChatFacts.

Section ChatPrompt.

Lemma format_chat_history_part (history : list Agents.Turn) question agent answer part :
  (question, agent, answer) ∈ history ->
  part ∈ ["User: " +:+ question; Agents.capitalize agent +:+ ": " +:+ answer +:+ PyStr.nl] ->
  PyStr.contains part (Agents.format_chat_history history) = true.
Proof.
  intros Hin Hpart. destruct history as [|turn history]; [by apply elem_of_nil in Hin|].
  unfold Agents.format_chat_history. apply join_contains.
  apply elem_of_cons. right. apply list_elem_of_In, in_flat_map.
  exists (question, agent, answer). split; by apply list_elem_of_In.
Qed.

(** X27: the prompt of a chat turn. With an empty history (at the start, or
    after "clear") the prompt is the query itself. Otherwise it holds, for
    every earlier turn, the line "User: <question>" and the answer after the
    capitalized agent name, and it ends with "Aktuelle Frage:", a line
    break and the query. *)
Theorem chat_prompt_carries_history (history : list Agents.Turn) cleaned_query :
  Agents.chat_query [] cleaned_query = cleaned_query
  /\ (history <> [] ->
      let prompt := Agents.chat_query history cleaned_query in
      (exists before,
          prompt = before +:+ "Aktuelle Frage:" +:+ PyStr.nl +:+ cleaned_query)
      /\ forall question agent answer,
           (question, agent, answer) ∈ history ->
           PyStr.contains ("User: " +:+ question) prompt = true
           /\ PyStr.contains (Agents.capitalize agent +:+ ": " +:+ answer) prompt = true).
Proof.
  split; [reflexivity|]. intros Hne prompt. subst prompt. unfold Agents.chat_query.
  assert (Htruthy : PyStr.truthy (Agents.format_chat_history history) = true).
  { destruct history as [|[[question agent] answer] history]; [done|]. reflexivity. }
  rewrite Htruthy. split.
  - exists (Agents.format_chat_history history +:+ PyStr.nl +:+ PyStr.nl).
    by rewrite !append_assoc.
  - intros question agent answer Hin. split.
    + apply contains_append_l.
      eapply format_chat_history_part; [exact Hin | apply list_elem_of_here].
    + apply contains_append_l.
      eapply contains_trans;
        [|eapply format_chat_history_part;
           [exact Hin | apply list_elem_of_further, list_elem_of_here]].
      replace (Agents.capitalize agent +:+ ": " +:+ answer +:+ PyStr.nl)
        with ((Agents.capitalize agent +:+ ": " +:+ answer) +:+ PyStr.nl)
        by (by rewrite !append_assoc).
      apply contains_append_l, contains_refl.
Qed.

End ChatPrompt.

(** * Instances *)

Ltac each_elem H :=
  first [ apply elem_of_nil in H; destruct H
        | apply elem_of_cons in H as [->|H]; [| each_elem H] ].

Lemma write_answers_without_match_witness :
  write_answers_to_markdown Stub.document [Sample.stray_answer] = Stub.document
  /\ (forall content, write_answers_to_markdown content [] = content).
Proof.
  apply (write_answers_without_match Stub.document [Sample.stray_answer]).
  intros line a Hl Ha.
  change (PyStr.split_lines Stub.document)
    with ["Kontext"; "1. Q?"; ""; "2. R?"; "  1. Q?"] in Hl.
  each_elem Ha. each_elem Hl; vm_compute; discriminate.
Defined.

Lemma old_answer_replaced_witness :
  insert_answers (answer_map_of [Stub.first_answer]) Sample.answered_lines
  = ["### Q?"; ""; "first"; ""]
    ++ insert_answers (answer_map_of [Stub.first_answer]) ["2. R?"].
Proof.
  apply (old_answer_replaced (answer_map_of [Stub.first_answer]) "1. Q?" Stub.first_answer
           [""] "**Antwort:** alt" ["   mehr"; ""] ["2. R?"]).
  - by rewrite answer_map_of_lookup.
  - by repeat constructor.
  - reflexivity.
  - by repeat constructor.
  - right. by exists "2. R?", [].
Defined.

Lemma QUESTION_PATTERN_groups_witness :
  exists ws mention_part rest,
    "12.  @Arch  Wie geht das?" = "12" +:+ "." +:+ ws +:+ mention_part +:+ "Wie geht das?" +:+ rest
    /\ "12" <> "" /\ all_chars PyStr.isdecimal "12" = true
    /\ ws <> "" /\ all_chars PyStr.isspace ws = true
    /\ "Wie geht das?" <> "" /\ all_chars Regex.dot "Wie geht das?" = true
    /\ Regex.eol rest = true
    /\ (("Arch" : string) <> "" /\ all_chars PyStr.isword "Arch" = true
        /\ exists ws2, ws2 <> "" /\ all_chars PyStr.isspace ws2 = true
                       /\ mention_part = "@" +:+ "Arch" +:+ ws2).
Proof.
  apply (QUESTION_PATTERN_groups "12.  @Arch  Wie geht das?" "12" (Some "Arch")
           "Wie geht das?").
  reflexivity.
Defined.

Lemma fragen_section_rule_witness :
  (parse_markdown_questions Sample.fragen_document).1
  = PyStr.strip (PyStr.join PyStr.nl (take 3 (PyStr.split_lines Sample.fragen_document)))
  /\ forall j line,
       PyStr.split_lines Sample.fragen_document !! j = Some line ->
       ((exists q, q ∈ (parse_markdown_questions Sample.fragen_document).2
                   /\ line_index q = Z.of_nat j)
        <-> (3 < j)%nat /\ is_question_line line = true).
Proof.
  apply (fragen_section_rule Sample.fragen_document 3 "## Fragen").
  - reflexivity.
  - reflexivity.
  - intros k l Hk Hl.
    change (PyStr.split_lines Sample.fragen_document)
      with ["Projekt X"; "1. Vorab?"; ""; "## Fragen"; "1. @arch Wie?"; "2. Punkt"] in Hl.
    destruct k as [|[|[|k]]]; [| | |lia]; injection Hl as <-; reflexivity.
Defined.

Lemma heuristic_rule_witness :
  (forall j line g1 g2 g3,
      PyStr.split_lines Sample.plain_document !! j = Some line ->
      RegexGroups.QUESTION_PATTERN (PyStr.strip line) = Some (g1, g2, g3) ->
      forall q,
        (q ∈ (parse_markdown_questions Sample.plain_document).2
         /\ line_index q = Z.of_nat j)
        <-> (is_Some g2 \/ PyMore.endswith "?" (PyStr.strip g3) = true)
            /\ q = mkQuestion (PyMore.int_of_digits g1) (resolve_agent_alias g2)
                     (PyStr.strip g3) (Z.of_nat j) line)
  /\ (forall j line,
        PyStr.split_lines Sample.plain_document !! j = Some line ->
        is_question_line line = false ->
        forall q, q ∈ (parse_markdown_questions Sample.plain_document).2 ->
                  line_index q <> Z.of_nat j)
  /\ (parse_markdown_questions Sample.plain_document).1
     = match (parse_markdown_questions Sample.plain_document).2 with
       | [] => PyStr.strip Sample.plain_document
       | q :: _ =>
           PyStr.strip (PyStr.join PyStr.nl
                          (take (Z.to_nat (line_index q))
                             (PyStr.split_lines Sample.plain_document)))
       end.
Proof.
  apply (heuristic_rule Sample.plain_document).
  intros l Hl.
  change (PyStr.split_lines Sample.plain_document)
    with ["Kontext"; "1. Liste"; "2. @pm Was?"; "3. Warum?"] in Hl.
  each_elem Hl; reflexivity.
Defined.

Lemma incremental_writes_witness :
  let '(outcome, w1, t) :=
    process_questions Stub.lenient_console Stub.disk Stub.new_runner "Kontext"
      Stub.two_questions true false None (Some "out.md") (Some Stub.document) 0%nat in
  exists written,
    writes t
    = map (fun k => ("out.md", write_answers_to_markdown Stub.document (take (S k) written)))
        (seq 0 (length written))
    /\ Forall2 answers_question written (take (length written) Stub.two_questions)
    /\ match outcome with
       | Ok answers =>
           answers = written
           /\ length answers = length Stub.two_questions
           /\ (Stub.two_questions <> [] ->
               last (writes t)
               = Some ("out.md", write_answers_to_markdown Stub.document answers))
       | Raise e =>
           console_failure Stub.lenient_console e \/ write_failure Stub.disk e
       end.
Proof.
  apply (incremental_writes Stub.lenient_console Stub.disk Stub.new_runner "Kontext" true
           false None Stub.two_questions "out.md" Stub.document 0%nat).
  discriminate.
Defined.

(** The first answer is written, the second write finds the disk full: the
    pipeline raises after two writes and returns no answer. *)
Example write_failure_leaves_pipeline :
  let '(outcome, w1, t) :=
    process_questions Stub.lenient_console Stub.small_disk Stub.new_runner "Kontext"
      Stub.two_questions false false None (Some "out.md") (Some Stub.document) 0%nat in
  outcome = Raise (Exception "[Errno 28] No space left on device")
  /\ length (writes t) = 2%nat.
Proof. vm_compute. split; reflexivity. Qed.

Lemma no_target_no_write_witness :
  writes (process_questions Stub.lenient_console Stub.disk Stub.new_runner "Kontext"
            Stub.two_questions true false None None (Some Stub.document) 0%nat).2 = [].
Proof.
  apply (no_target_no_write Stub.lenient_console Stub.disk Stub.new_runner "Kontext" true
           false None Stub.two_questions None (Some Stub.document) 0%nat).
  by left.
Defined.

Lemma real_run_persists_result_witness :
  let questions := (parse_markdown_questions Sample.plain_document).2 in
  let target := target_path "fragen.md" (Some "antworten.md") in
  let '(outcome, w1, t) :=
    process_markdown_file Stub.lenient_console Stub.disk Stub.new_runner Sample.files
      "fragen.md" (Some "antworten.md") false true false None 0%nat in
  Forall (fun pw => pw.1 = target) (writes t)
  /\ (length (writes t) <= length questions)%nat
  /\ match outcome with
     | Ok result =>
         exists answers,
           result = write_answers_to_markdown Sample.plain_document answers
           /\ map question_line answers = map original_line questions
           /\ map question_text answers = map text questions
           /\ length (writes t) = length questions
           /\ last (writes t) = Some (target, result)
     | Raise e => console_failure Stub.lenient_console e \/ write_failure Stub.disk e
     end.
Proof.
  apply (real_run_persists_result Stub.lenient_console Stub.disk Stub.new_runner
           Sample.files "fragen.md" (Some "antworten.md") true false None
           Sample.plain_document 0%nat).
  - apply lookup_insert_eq.
  - vm_compute. discriminate.
Defined.

(** A document that holds a closing tag: the real run returns it with the
    answer inserted, and the dry run, which prints it, raises what the
    console raises on it. *)
Example dry_run_print_refused :
  let run dry_run :=
    process_markdown_file Stub.strict_console Stub.disk Stub.new_runner Sample.tagged_files
      "fragen.md" None dry_run false false None 0%nat in
  (exists result t, run false = (Ok result, 1%nat, t) /\ length (writes t) = 1%nat)
  /\ (exists t,
        run true
        = (Raise (Exception "closing tag '[/INST]' at position 8 doesn't match any open tag"),
           1%nat, t)
        /\ writes t = []).
Proof. split; vm_compute; eauto. Qed.

(** With [verbose], an answer that holds a closing tag is written and then
    refused by the console in the preview: the run raises after the
    write. *)
Example preview_refused_after_write :
  let '(outcome, w1, t) :=
    process_questions Stub.strict_console Stub.disk Stub.echo_new_runner "Kontext [/INST]"
      Stub.two_questions true false None (Some "out.md") (Some Stub.document) 0%nat in
  (exists e, outcome = Raise e /\ console_failure Stub.strict_console e)
  /\ length (writes t) = 1%nat.
Proof.
  vm_compute. split; [|reflexivity]. eexists. split; [reflexivity|].
  exists (preview_banner
            (full_query "Kontext [/INST]" []
               (mkQuestion 1 "research" "A?" 0 "1. @research A?"))).
  vm_compute. reflexivity.
Qed.

Lemma every_question_answered_witness :
  exists a j,
    line_index Sample.was = Z.of_nat j
    /\ a ∈ Sample.plain_answers
    /\ PyStr.strip (question_line a) = PyStr.strip (original_line Sample.was)
    /\ write_answers_to_markdown Sample.plain_document Sample.plain_answers
       = PyStr.join PyStr.nl
           (insert_answers (answer_map_of Sample.plain_answers)
              (take j (PyStr.split_lines Sample.plain_document))
            ++ ["### " +:+ question_text a; ""; answer_text a; ""]
            ++ insert_answers (answer_map_of Sample.plain_answers)
                 (skip_existing_block (drop (S j) (PyStr.split_lines Sample.plain_document)))).
Proof.
  apply (every_question_answered Sample.plain_document Sample.plain_answers Sample.was).
  - reflexivity.
  - change ((parse_markdown_questions Sample.plain_document).2)
      with [Sample.was; Sample.warum].
    apply list_elem_of_here.
Defined.

Lemma run_fails_only_on_provider_witness :
  exists request w0 e0,
    invoke (llm_with_tools Stub.broken_runner) request w0 = (Raise e0, 1%nat)
    /\ Exception "connection refused"
       = (if is_rate_limit (str_exn e0)
          then retries_exhausted MAX_RETRIES (str_exn e0) else e0)
    /\ last [EvRun "research" "find it";
             EvRequest [SystemMessage "Du bist ein Research Agent."; HumanMessage "find it"]]
       = Some (EvRequest request).
Proof.
  apply (run_fails_only_on_provider Stub.broken_runner "find it" 0%nat
           (Exception "connection refused") 1%nat).
  reflexivity.
Defined.

Lemma project_filter_witness :
  exists filtered,
    _get_tools_with_project_filter Sample.implementation Sample.scoped Sample.configs
      "research" (Some 7)
    = Ok filtered
    /\ (project_given (Some 7) = false ->
        filtered = [tool Sample.implementation "query_knowledge_base";
                    tool Sample.implementation "web_search"])
    /\ (project_given (Some 7) = true ->
        map tool_name filtered
        = map scoped_name
            (map tool_name [tool Sample.implementation "query_knowledge_base";
                            tool Sample.implementation "web_search"])
        /\ (forall i t,
              [tool Sample.implementation "query_knowledge_base";
               tool Sample.implementation "web_search"] !! i = Some t ->
              tool_name t <> "query_knowledge_base" ->
              filtered !! i = Some t)
        /\ (forall tool_call w,
              tc_name tool_call = "query_knowledge_base" ->
              tool_result_text (tools_by_name_of filtered) tool_call w
              = (Ok "Unknown tool: query_knowledge_base", w, []))).
Proof.
  apply (project_filter Sample.implementation Sample.scoped Sample.configs "research"
           (Some 7)).
  reflexivity.
Defined.

Lemma mention_removed_witness :
  Agents.parse_agent_mention ("Bitte " +:+ "@" +:+ "Arch" +:+ "  wie baue ich das? ")
  = (Some "architekt", PyStr.strip ("Bitte " +:+ PyStr.lstrip "  wie baue ich das? ")).
Proof.
  apply (mention_removed "Bitte " "Arch" "  wie baue ich das? " "architekt");
    first [reflexivity | discriminate].
Defined.

Lemma chat_exit_witness :
  let chat := Agents.chat_loop Stub.lenient_console Stub.format_exc Stub.new_runner None
                false in
  chat (["@arch Wie?"] ++ "  EXIT " :: ["@r und dann?"]) [] [] 0%nat
  = chat ["@arch Wie?"] [] [] 0%nat
  /\ (forall more,
        chat (["@arch Wie?"] ++ more) [] [] 0%nat
        = (match chat ["@arch Wie?"] [] [] 0%nat with
           | (Ok (history, replies), w1, t1) =>
               let '(r, w2, t2) := chat more history replies w1 in (r, w2, t1 ++ t2)
           | (Raise e, w1, t1) => (Raise e, w1, t1)
           end)).
Proof.
  apply (chat_exit Stub.lenient_console Stub.format_exc Stub.new_runner None false
           ["@arch Wie?"] "  EXIT " ["@r und dann?"] [] [] 0%nat); reflexivity.
Defined.

(** A failure whose message holds a closing tag ends the chat: the print of
    the failure is refused, and the next line is never read. On a console
    that renders the message the chat goes on. *)
Example chat_left_in_failure_print :
  let chat console :=
    Agents.chat_mode console Stub.format_exc Stub.tagging_new_runner None false
      ["@r Was?"; "@arch Wie?"] 0%nat in
  (exists e t, chat Stub.strict_console = (Raise e, 1%nat, t)
               /\ console_failure Stub.strict_console e
               /\ length (requests t) = 1%nat)
  /\ (chat Stub.lenient_console).1.1
     = Ok ([("Wie?", "architekt", "X")],
           [Raise (Exception "Invalid tag [/INST] in prompt"); Ok "X"]).
Proof.
  split; [|vm_compute; reflexivity].
  vm_compute. do 2 eexists. split; [reflexivity|]. split; [|reflexivity].
  exists (Agents.failure_banner (Exception "Invalid tag [/INST] in prompt")).
  vm_compute. reflexivity.
Qed.
